(** * GlassPDF: the staged PSD rendering pipeline of [src/lib/psd-service.ts]

    A shallow embedding of [countLayers], [pixelDataToCanvas], [buildResult],
    [renderPSDToCanvas], [compositeRawLayers] / [renderLayersRaw] and
    [compositeCanvasLayers] / [renderLayersCanvas], together with the
    properties the specification states about them.

    Conventions of the embedding.
    - A JavaScript [number] is an integer [Z]; the layer opacity, which the
      code divides, is a rational [Q] (IEEE rounding is not modelled).
    - An optional field is an [option]; a field that the code only tests for
      truthiness ([hidden], [adjustment]) is a [bool].
    - Code that can throw lives in the error monad [Res]; code that calls the
      external parser or the console lives in the state-and-error monad [M]
      over a [World] (the shared [ArrayBuffer] and the trace of external calls).
    - A canvas is its dimensions and the list of painting operations applied
      to it, oldest first; pixel blending itself is the browser's business.
    - The parser [readPsd] (package ag-psd), the availability of a 2D
      context and the typed arrays the engine allocates are the environment,
      collected in the record [Platform].
    - A file is given as what reading it comes to: its bytes, or the
      exception the read is rejected with. *)

From stdpp Require Import base numbers list strings gmap pretty.
From Stdlib Require Import QArith.
From Stdlib.Strings Require Import Byte.

Set Warnings "-register-all".
Set Default Proof Using "Type".

Local Open Scope Z_scope.

(** ** Exceptions and the error monad *)

(** A thrown value: its constructor name and its [message]. The message text
    of exceptions raised by the platform is browser specific and left empty. *)
Record JsError : Type := mkError { err_name : string; err_message : string }.

Definition Error (msg : string) : JsError := mkError "Error" msg.
Definition RangeError : JsError := mkError "RangeError" EmptyString.
Definition InvalidStateError : JsError := mkError "InvalidStateError" EmptyString.
Definition IndexSizeError : JsError := mkError "IndexSizeError" EmptyString.
Definition NotReadableError : JsError := mkError "NotReadableError" EmptyString.

Inductive Res (A : Type) : Type :=
  | Ok (a : A)
  | Throw (e : JsError).
Arguments Ok {A} a.
Arguments Throw {A} e.

#[global] Instance Res_ret : MRet Res := fun A a => Ok a.
#[global] Instance Res_bind : MBind Res := fun A B k m =>
  match m with
  | Ok a => k a
  | Throw e => Throw e
  end.

Definition is_Ok {A} (r : Res A) : bool :=
  match r with Ok _ => true | Throw _ => false end.

(** ** Bytes and typed arrays *)

#[global] Instance byte_eq_decision : EqDecision byte := Byte.byte_eq_dec.

(** [DataView.getUint32(0)]: the big-endian value of four bytes. *)
Definition byteZ (b : byte) : Z := Z.of_N (Byte.to_N b).

Definition getUint32 (b0 b1 b2 b3 : byte) : Z :=
  ((byteZ b0 * 256 + byteZ b1) * 256 + byteZ b2) * 256 + byteZ b3.

(** Conversion of a number to an element of a [Uint8Array]. *)
Definition toUint8 (v : Z) : byte :=
  default x00 (Byte.of_N (Z.to_N (v mod 256))).

(** The [data] field of a pixel record is typed [any]. The code reads its
    [length] and its [buffer]: a typed-array view has both (the [buffer] is
    the whole backing store, whatever the view's element size or offset);
    a plain array has no [buffer] and is copied element by element. *)
Inductive PixelArray : Type :=
  | TypedArray (buffer : list byte) (len : Z)
  | PlainArray (elems : list Z).

Definition pa_length (d : PixelArray) : Z :=
  match d with
  | TypedArray _ n => n
  | PlainArray es => Z.of_nat (length es)
  end.

(** [new Uint8Array(data.buffer || data)] *)
Definition new_Uint8Array (d : PixelArray) : list byte :=
  match d with
  | TypedArray buffer _ => buffer
  | PlainArray es => toUint8 <$> es
  end.

(** [buf.set(src)]: overwrite the front of [buf]; a [RangeError] when [src]
    is longer than [buf]. *)
Definition typed_set (buf src : list byte) : Res (list byte) :=
  if bool_decide (length src ≤ length buf)%nat
  then Ok (src ++ drop (length src) buf)
  else Throw RangeError.

(** [src.subarray(0, n)] *)
Definition subarray0 (src : list byte) (n : nat) : list byte := take n src.

(** ** Canvases *)

Inductive CompositeOp : Type :=
  | SourceOver | Multiply | Screen | Overlay | Darken | Lighten
  | ColorDodge | ColorBurn | HardLight | SoftLight | Difference | Exclusion
  | Hue | Saturation | Color | Luminosity.

Inductive PaintOp (C : Type) : Type :=
  | PutImageData (data : list byte) (sw sh : Z) (dx dy : Z)
  | DrawImage (src : C) (alpha : Q) (op : CompositeOp) (dx dy : Z).
Arguments PutImageData {C} data sw sh dx dy.
Arguments DrawImage {C} src alpha op dx dy.

Inductive Canvas : Type :=
  mkCanvas { cv_width : Z; cv_height : Z; cv_ops : list (PaintOp Canvas) }.

(** [canvas.width] and [canvas.height] reflect an [unsigned long] attribute
    limited to [0 .. 2^31-1]: the assigned number is taken modulo [2^32] and
    replaced by the default when it falls outside that range. Assigning a
    dimension clears the bitmap. *)
Definition reflect_unsigned_long (dflt v : Z) : Z :=
  let u := v mod 4294967296 in
  if bool_decide (u ≤ 2147483647) then u else dflt.

Definition createElement_canvas : Canvas := mkCanvas 300 150 [].

Definition set_width (v : Z) (c : Canvas) : Canvas :=
  mkCanvas (reflect_unsigned_long 300 v) (cv_height c) [].

Definition set_height (v : Z) (c : Canvas) : Canvas :=
  mkCanvas (cv_width c) (reflect_unsigned_long 150 v) [].

Record ImageData : Type :=
  mkImageData { id_data : list byte; id_width : Z; id_height : Z }.

(** [new ImageData(data, sw, sh)] as the HTML standard defines it: the byte
    length must be a non-zero multiple of four, the pixel count a multiple of
    [sw], and the resulting height equal to [sh]; [sw] and [sh] are converted
    to [unsigned long]. *)
Definition new_ImageData (data : list byte) (sw sh : Z) : Res ImageData :=
  let sw := sw mod 4294967296 in
  let sh := sh mod 4294967296 in
  let bytes := Z.of_nat (length data) in
  if bool_decide (bytes = 0) || negb (bool_decide (bytes mod 4 = 0))
  then Throw InvalidStateError
  else
    let pixels := bytes / 4 in
    if bool_decide (sw = 0) || negb (bool_decide (pixels mod sw = 0))
    then Throw IndexSizeError
    else if bool_decide (pixels / sw = sh)
         then Ok (mkImageData data sw sh)
         else Throw IndexSizeError.

Definition paint (op : PaintOp Canvas) (c : Canvas) : Canvas :=
  mkCanvas (cv_width c) (cv_height c) (cv_ops c ++ [op]).

(** [ctx.putImageData(img, dx, dy)] on the context of canvas [c]. *)
Definition putImageData (img : ImageData) (dx dy : Z) (c : Canvas) : Canvas :=
  paint (PutImageData (id_data img) (id_width img) (id_height img) dx dy) c.

(** ** Pixel records *)

Record PixelData : Type :=
  mkPixelData { pd_data : PixelArray; pd_width : Z; pd_height : Z }.

(** ** The 2D context

    The context of a canvas paints into that canvas: it carries the canvas
    with it, and the canvas the code returns after drawing through the context
    is [ctx_canvas] of the final context. The drawing state is the pair the
    code assigns, with the stack [save] and [restore] work on. *)
Record Ctx : Type := mkCtx {
  ctx_canvas : Canvas;
  globalAlpha : Q;
  globalCompositeOperation : CompositeOp;
  ctx_saved : list (Q * CompositeOp) }.

Definition fresh_context (c : Canvas) : Ctx := mkCtx c 1%Q SourceOver [].

Definition save (ctx : Ctx) : Ctx :=
  mkCtx (ctx_canvas ctx) (globalAlpha ctx) (globalCompositeOperation ctx)
        ((globalAlpha ctx, globalCompositeOperation ctx) :: ctx_saved ctx).

Definition restore (ctx : Ctx) : Ctx :=
  match ctx_saved ctx with
  | [] => ctx
  | (a, op) :: st => mkCtx (ctx_canvas ctx) a op st
  end.

(** Assigning [globalAlpha] a value outside [0, 1] is ignored. *)
Definition set_globalAlpha (a : Q) (ctx : Ctx) : Ctx :=
  if Qle_bool 0 a && Qle_bool a 1
  then mkCtx (ctx_canvas ctx) a (globalCompositeOperation ctx) (ctx_saved ctx)
  else ctx.

(** What a property read on the object literal [BLEND_MODE_MAP] yields: the
    operation stored under an own key, a member inherited from
    [Object.prototype] (a function or object, hence truthy), or [undefined]. *)
Inductive PropValue : Type :=
  | OwnOp (op : CompositeOp)
  | Inherited (key : string)
  | Undefined.

(** Assigning [globalCompositeOperation] anything but the name of an
    operation is ignored. *)
Definition set_globalCompositeOperation (v : PropValue) (ctx : Ctx) : Ctx :=
  match v with
  | OwnOp op => mkCtx (ctx_canvas ctx) (globalAlpha ctx) op (ctx_saved ctx)
  | Inherited _ | Undefined => ctx
  end.

(** [ctx.drawImage(img, dx, dy)]: an [InvalidStateError] when the source
    canvas has a zero dimension. *)
Definition drawImage (img : Canvas) (dx dy : Z) (ctx : Ctx) : Res Ctx :=
  if bool_decide (cv_width img = 0) || bool_decide (cv_height img = 0)
  then Throw InvalidStateError
  else Ok (mkCtx (paint (DrawImage img (globalAlpha ctx)
                                   (globalCompositeOperation ctx) dx dy)
                        (ctx_canvas ctx))
                 (globalAlpha ctx) (globalCompositeOperation ctx)
                 (ctx_saved ctx)).

Definition ctx_putImageData (img : ImageData) (dx dy : Z) (ctx : Ctx) : Ctx :=
  mkCtx (putImageData img dx dy (ctx_canvas ctx))
        (globalAlpha ctx) (globalCompositeOperation ctx) (ctx_saved ctx).

(** ** Documents as the parser returns them *)

Inductive Layer : Type := mkLayer {
  l_hidden : bool;
  l_adjustment : bool;
  l_children : option (list Layer);
  l_imageData : option PixelData;
  l_canvas : option Canvas;
  l_opacity : option Q;
  l_blendMode : option string;
  l_left : option Z;
  l_top : option Z }.

Record Psd : Type := mkPsd {
  psd_width : Z;
  psd_height : Z;
  psd_children : option (list Layer);
  psd_imageData : option PixelData;
  psd_canvas : option Canvas }.

Record ReadOptions : Type := mkReadOptions {
  useImageData : bool;
  skipThumbnail : bool;
  logMissingFeatures : bool;
  skipLayerImageData : bool;
  skipLinkedFilesData : bool }.

(** ** The result type *)

Inductive RenderStage : Type := RawData | HighFidelity | SafeMode | Composite.

Record PSDRenderResult : Type := mkResult {
  canvas : Canvas;
  stage : RenderStage;
  layerCount : Z;
  width : Z;
  height : Z }.

(** ** The environment *)

(** [readPsd] is handed the [ArrayBuffer] by reference: it returns the buffer
    as it leaves it, with the document or the exception. [getContext('2d')]
    may yield [null]. An engine allocates typed arrays up to a length of its
    own, and less when memory is short: [allocates n] tells whether a buffer
    of [n] bytes is to be had. *)
Record Platform : Type := mkPlatform {
  readPsd : list byte -> ReadOptions -> list byte * Res Psd;
  context2d_available : Canvas -> bool;
  allocates : Z -> bool }.

(** The largest length the language lets a typed array have, 2^53 - 1. *)
Definition MAX_SAFE_INTEGER : Z := 9007199254740991.

(** [new Uint8ClampedArray(n)]: [n] zero bytes. A [RangeError] when [n] is
    negative or above 2^53 - 1 (a product the floating-point multiplication
    rounds is above that bound before and after rounding), and when the
    engine does not allocate [n] bytes. *)
Definition new_Uint8ClampedArray (env : Platform) (n : Z) : Res (list byte) :=
  if bool_decide (n < 0) || bool_decide (MAX_SAFE_INTEGER < n) || negb (allocates env n)
  then Throw RangeError
  else Ok (replicate (Z.to_nat n) x00).

Definition getContext (env : Platform) (c : Canvas) : option Ctx :=
  if context2d_available env c then Some (fresh_context c) else None.

(** ** The blend-mode table *)

Definition BLEND_MODE_MAP : gmap string CompositeOp :=
  list_to_map [
    ("normal", SourceOver); ("pass through", SourceOver); ("dissolve", SourceOver);
    ("multiply", Multiply); ("screen", Screen); ("overlay", Overlay);
    ("darken", Darken); ("lighten", Lighten);
    ("color dodge", ColorDodge); ("linear dodge", ColorDodge);
    ("color burn", ColorBurn); ("linear burn", ColorBurn);
    ("hard light", HardLight); ("soft light", SoftLight);
    ("vivid light", HardLight); ("linear light", HardLight);
    ("pin light", HardLight); ("hard mix", HardLight);
    ("difference", Difference); ("exclusion", Exclusion);
    ("subtract", Difference); ("divide", Difference);
    ("hue", Hue); ("saturation", Saturation); ("color", Color);
    ("luminosity", Luminosity);
    ("darker color", Darken); ("lighter color", Lighten) ].

(** The keys every object literal inherits from [Object.prototype]. *)
Definition Object_prototype_keys : list string :=
  [ "constructor"; "__defineGetter__"; "__defineSetter__"; "hasOwnProperty";
    "__lookupGetter__"; "__lookupSetter__"; "isPrototypeOf";
    "propertyIsEnumerable"; "toString"; "valueOf"; "__proto__";
    "toLocaleString" ].

(** [BLEND_MODE_MAP[key]] *)
Definition BLEND_MODE_MAP_get (key : string) : PropValue :=
  match BLEND_MODE_MAP !! key with
  | Some op => OwnOp op
  | None => if bool_decide (key ∈ Object_prototype_keys)
            then Inherited key else Undefined
  end.

(** [v || 'source-over'] *)
Definition or_source_over (v : PropValue) : PropValue :=
  match v with
  | Undefined => OwnOp SourceOver
  | _ => v
  end.

(** [l.blendMode || 'normal']: an absent or empty tag is falsy. *)
Definition blendMode_or_normal (l : Layer) : string :=
  match l_blendMode l with
  | Some EmptyString | None => "normal"
  | Some tag => tag
  end.

(** [(l.opacity ?? 255) / 255] *)
Definition layer_alpha (l : Layer) : Q := (default (255 # 1)%Q (l_opacity l) / (255 # 1))%Q.

(** [l.left || 0], [l.top || 0] *)
Definition or_zero (v : option Z) : Z := default 0 v.

(** ** [countLayers] *)

(** [countLayers(l.children)], by recursion on the layer [l]; [countLayers]
    itself is this count summed by [reduce] over a sequence, see
    [countLayers_Some] for the equation of the source. *)
Fixpoint countLayers_children (l : Layer) : Z :=
  match l_children l with
  | None => 0
  | Some ls => fold_left (fun n l' => n + 1 + countLayers_children l') ls 0
  end.

Definition countLayers (layers : option (list Layer)) : Z :=
  match layers with
  | None => 0
  | Some ls => fold_left (fun n l => n + 1 + countLayers_children l) ls 0
  end.

(** ** [buildResult] *)

(** [a || b] on numbers *)
Definition num_or (a b : Z) : Z := if bool_decide (a = 0) then b else a.

Definition buildResult (c : Canvas) (s : RenderStage) (psd : Psd) : PSDRenderResult :=
  {| canvas := c;
     stage := s;
     layerCount := countLayers (psd_children psd);
     width := num_or (psd_width psd) (cv_width c);
     height := num_or (psd_height psd) (cv_height c) |}.

Section Compositor.
Context (env : Platform).

(** ** [pixelDataToCanvas] *)

Definition pixelDataToCanvas (pd : PixelData) : Res Canvas :=
  let c := createElement_canvas in
  let c := set_width (pd_width pd) c in
  let c := set_height (pd_height pd) c in
  match getContext env c with
  | Some ctx =>
      if bool_decide (0 < pa_length (pd_data pd)) then
        let src := new_Uint8Array (pd_data pd) in
        buf ← new_Uint8ClampedArray env (pd_width pd * pd_height pd * 4);
        buf ← typed_set buf (if bool_decide (length src ≤ length buf)%nat
                             then src else subarray0 src (length buf));
        img ← new_ImageData buf (pd_width pd) (pd_height pd);
        mret (ctx_canvas (ctx_putImageData img 0 0 ctx))
      else mret c
  | None => mret c
  end.

(** ** [renderLayersRaw] and [compositeRawLayers] *)

(** The last statement of the loop body: paint a leaf from its pixel record. *)
Definition paintRaw (l : Layer) (ctx : Ctx) : Res Ctx :=
  match l_imageData l with
  | Some pd =>
      if bool_decide (0 < pd_width pd) && bool_decide (0 < pd_height pd) then
        lc ← pixelDataToCanvas pd;
        let ctx := save ctx in
        let ctx := set_globalAlpha (layer_alpha l) ctx in
        let ctx := set_globalCompositeOperation
                     (or_source_over (BLEND_MODE_MAP_get (blendMode_or_normal l))) ctx in
        ctx ← drawImage lc (or_zero (l_left l)) (or_zero (l_top l)) ctx;
        mret (restore ctx)
      else mret ctx
  | None => mret ctx
  end.

(** One iteration of the loop of [renderLayersRaw], on the layer [l]; the
    inner [loop] is the recursive call on [l.children], which runs from the
    last child down to the first. *)
Fixpoint renderLayerRaw (l : Layer) (ctx : Ctx) {struct l} : Res Ctx :=
  if l_hidden l || l_adjustment l then mret ctx
  else match l_children l with
       | Some cs =>
           (fix loop (ls : list Layer) : Res Ctx :=
              match ls with
              | [] => mret ctx
              | c :: ls' => ctx' ← loop ls'; renderLayerRaw c ctx'
              end) cs
       | None => paintRaw l ctx
       end.

Definition renderLayersRaw (ctx : Ctx) (layers : list Layer) : Res Ctx :=
  foldr (fun l r => ctx' ← r; renderLayerRaw l ctx') (mret ctx) layers.

(** [!psd.width || !psd.height || !psd.children?.length] *)
Definition nothing_to_composite (psd : Psd) : bool :=
  bool_decide (psd_width psd = 0) || bool_decide (psd_height psd = 0) ||
  match psd_children psd with
  | Some (_ :: _) => false
  | Some [] | None => true
  end.

Definition compositeRawLayers (psd : Psd) : Res (option Canvas) :=
  if nothing_to_composite psd then mret None
  else
    let c := createElement_canvas in
    let c := set_width (psd_width psd) c in
    let c := set_height (psd_height psd) c in
    match getContext env c with
    | None => mret None
    | Some ctx =>
        ctx ← renderLayersRaw ctx (default [] (psd_children psd));
        mret (Some (ctx_canvas ctx))
    end.

(** ** [renderLayersCanvas] and [compositeCanvasLayers] *)

Definition paintCanvas (l : Layer) (ctx : Ctx) : Res Ctx :=
  match l_canvas l with
  | Some lc =>
      let ctx := save ctx in
      let ctx := set_globalAlpha (layer_alpha l) ctx in
      let ctx := set_globalCompositeOperation
                   (or_source_over (BLEND_MODE_MAP_get (blendMode_or_normal l))) ctx in
      ctx ← drawImage lc (or_zero (l_left l)) (or_zero (l_top l)) ctx;
      mret (restore ctx)
  | None => mret ctx
  end.

Fixpoint renderLayerCanvas (l : Layer) (ctx : Ctx) {struct l} : Res Ctx :=
  if l_hidden l || l_adjustment l then mret ctx
  else match l_children l with
       | Some cs =>
           (fix loop (ls : list Layer) : Res Ctx :=
              match ls with
              | [] => mret ctx
              | c :: ls' => ctx' ← loop ls'; renderLayerCanvas c ctx'
              end) cs
       | None => paintCanvas l ctx
       end.

Definition renderLayersCanvas (ctx : Ctx) (layers : list Layer) : Res Ctx :=
  foldr (fun l r => ctx' ← r; renderLayerCanvas l ctx') (mret ctx) layers.

Definition compositeCanvasLayers (psd : Psd) : Res (option Canvas) :=
  if nothing_to_composite psd then mret None
  else
    let c := createElement_canvas in
    let c := set_width (psd_width psd) c in
    let c := set_height (psd_height psd) c in
    match getContext env c with
    | None => mret None
    | Some ctx =>
        ctx ← renderLayersCanvas ctx (default [] (psd_children psd));
        mret (Some (ctx_canvas ctx))
    end.

End Compositor.

(** ** The world and its monad *)

Inductive Event : Type :=
  | EvReadPsd (opts : ReadOptions)
  | EvWarn (label message : string).

(** The [ArrayBuffer] of the running invocation, which every stage hands to
    the parser, and what has been asked of the environment so far. *)
Record World : Type := mkWorld { w_buffer : list byte; w_trace : list Event }.

Definition M (A : Type) : Type := World -> World * Res A.

#[global] Instance M_ret : MRet M := fun A a w => (w, Ok a).
#[global] Instance M_bind : MBind M := fun A B k m w =>
  match m w with
  | (w', Ok a) => k a w'
  | (w', Throw e) => (w', Throw e)
  end.

Definition throw {A} (e : JsError) : M A := fun w => (w, Throw e).

Definition lift {A} (r : Res A) : M A := fun w => (w, r).

(** [try { body } catch (e) { handler }] *)
Definition try_catch {A} (body : M A) (handler : JsError -> M A) : M A :=
  fun w =>
    match body w with
    | (w', Ok a) => (w', Ok a)
    | (w', Throw e) => handler e w'
    end.

Definition get_buffer : M (list byte) := fun w => (w, Ok (w_buffer w)).

(** [await file.arrayBuffer()]. A file is given as what reading it comes
    to: the read resolves with a fresh buffer holding the file's bytes, or
    rejects (a file that was moved, or may not be read) and the exception is
    thrown at the [await]. *)
Definition arrayBuffer (file : Res (list byte)) : M unit :=
  fun w =>
    match file with
    | Ok bytes => (mkWorld bytes (w_trace w), Ok ())
    | Throw e => (w, Throw e)
    end.

Definition console_warn (label message : string) : M unit :=
  fun w => (mkWorld (w_buffer w) (w_trace w ++ [EvWarn label message]), Ok ()).

(** [new DataView(buffer).getUint32(0)] *)
Definition DataView_getUint32_0 (buffer : list byte) : Res Z :=
  match buffer with
  | b0 :: b1 :: b2 :: b3 :: _ => Ok (getUint32 b0 b1 b2 b3)
  | _ => Throw RangeError
  end.

(** ** [renderPSDToCanvas] *)

Definition PDF_MESSAGE : string := "This is a PDF file. Use the PDF Viewer tool.".
Definition NOT_PSD_MESSAGE : string := "Not a valid PSD file.".

Definition dquote : string :=
  String (Ascii.Ascii false true false false false true false false) EmptyString.

Definition UNSUPPORTED_MESSAGE : string :=
  "Unsupported PSD structure. Try saving with " +:+ dquote +:+
  "Maximize Compatibility" +:+ dquote +:+ " in Photoshop.".

Definition options_raw_data : ReadOptions :=
  {| useImageData := true; skipThumbnail := true; logMissingFeatures := true;
     skipLayerImageData := false; skipLinkedFilesData := false |}.

Definition options_high_fidelity : ReadOptions :=
  {| useImageData := false; skipThumbnail := true; logMissingFeatures := true;
     skipLayerImageData := false; skipLinkedFilesData := false |}.

Definition options_safe_mode : ReadOptions :=
  {| useImageData := false; skipThumbnail := true; logMissingFeatures := true;
     skipLayerImageData := false; skipLinkedFilesData := true |}.

Definition options_composite : ReadOptions :=
  {| useImageData := false; skipThumbnail := true; logMissingFeatures := false;
     skipLayerImageData := true; skipLinkedFilesData := true |}.

Section Pipeline.
Context (env : Platform).

(** [readPsd(buffer, opts)] on the buffer of the invocation. *)
Definition readPsdM (opts : ReadOptions) : M Psd :=
  fun w =>
    let '(buffer', r) := readPsd env (w_buffer w) opts in
    (mkWorld buffer' (w_trace w ++ [EvReadPsd opts]), r).

(** The magic-number check at the head of [renderPSDToCanvas]. *)
Definition validate_signature (buffer : list byte) : M unit :=
  if bool_decide (4 ≤ length buffer)%nat then
    sig ← lift (DataView_getUint32_0 buffer);
    if bool_decide (sig = 0x25504446) then throw (Error PDF_MESSAGE)
    else if negb (bool_decide (sig = 0x38425053)) then throw (Error NOT_PSD_MESSAGE)
    else mret ()
  else mret ().

(** The bodies of the four [try] blocks: the parse, then what the block does
    with the parsed document. [Some r] is [return r]; [None] is reaching the
    end of the block. *)
Definition raw_data_surface (psd : Psd) : Res (option PSDRenderResult) :=
  let manual :=
    manual ← compositeRawLayers env psd;
    match manual with
    | Some c => mret (Some (buildResult c RawData psd))
    | None => mret None
    end in
  match psd_imageData psd with
  | Some imageData =>
      if negb (bool_decide (psd_width psd = 0)) && negb (bool_decide (psd_height psd = 0))
      then c ← pixelDataToCanvas env imageData;
           mret (Some (buildResult c RawData psd))
      else manual
  | None => manual
  end.

Definition stage_raw_data : M (option PSDRenderResult) :=
  psd ← readPsdM options_raw_data;
  lift (raw_data_surface psd).

Definition high_fidelity_surface (psd : Psd) : Res (option PSDRenderResult) :=
  match psd_canvas psd with
  | Some c => mret (Some (buildResult c HighFidelity psd))
  | None =>
      manual ← compositeCanvasLayers env psd;
      match manual with
      | Some c => mret (Some (buildResult c HighFidelity psd))
      | None => mret None
      end
  end.

Definition stage_high_fidelity : M (option PSDRenderResult) :=
  psd ← readPsdM options_high_fidelity;
  lift (high_fidelity_surface psd).

Definition safe_mode_surface (psd : Psd) : Res (option PSDRenderResult) :=
  match psd_canvas psd with
  | Some c => mret (Some (buildResult c SafeMode psd))
  | None => mret None
  end.

Definition stage_safe_mode : M (option PSDRenderResult) :=
  psd ← readPsdM options_safe_mode;
  lift (safe_mode_surface psd).

Definition composite_surface (psd : Psd) : Res (option PSDRenderResult) :=
  match psd_canvas psd with
  | Some c => mret (Some (buildResult c Composite psd))
  | None => mret None
  end.

Definition stage_composite : M (option PSDRenderResult) :=
  psd ← readPsdM options_composite;
  lift (composite_surface psd).

(** The four [catch] blocks: the first is empty, the others warn. *)
Definition catch_raw_data (e : JsError) : M (option PSDRenderResult) :=
  mret None.

Definition catch_high_fidelity (e : JsError) : M (option PSDRenderResult) :=
  console_warn "[PSD] Stage 1 failed:" (err_message e);; mret None.

Definition catch_safe_mode (e : JsError) : M (option PSDRenderResult) :=
  console_warn "[PSD] Stage 2 failed:" (err_message e);; mret None.

Definition catch_composite (e : JsError) : M (option PSDRenderResult) :=
  console_warn "[PSD] Stage 3 failed:" (err_message e);; mret None.

(** The function body after [const buffer = await file.arrayBuffer()]. *)
Definition renderBuffer : M PSDRenderResult :=
  buffer ← get_buffer;
  validate_signature buffer;;
  r ← try_catch stage_raw_data catch_raw_data;
  match r with
  | Some res => mret res
  | None =>
  r ← try_catch stage_high_fidelity catch_high_fidelity;
  match r with
  | Some res => mret res
  | None =>
  r ← try_catch stage_safe_mode catch_safe_mode;
  match r with
  | Some res => mret res
  | None =>
  r ← try_catch stage_composite catch_composite;
  match r with
  | Some res => mret res
  | None => throw (Error UNSUPPORTED_MESSAGE)
  end end end end.

Definition renderPSDToCanvas (file : Res (list byte)) : M PSDRenderResult :=
  arrayBuffer file;; renderBuffer.

End Pipeline.

(** * Vocabulary of the specification *)

(** ** The nodes of a layer tree *)

(** Every layer of the tree under [l], [l] included: leaves and groups alike. *)
Fixpoint layer_nodes (l : Layer) : list Layer :=
  l :: match l_children l with
       | Some cs =>
           (fix nodes_of (ls : list Layer) : list Layer :=
              match ls with
              | [] => []
              | c :: ls' => layer_nodes c ++ nodes_of ls'
              end) cs
       | None => []
       end.

Definition tree_nodes (layers : option (list Layer)) : list Layer :=
  match layers with
  | Some ls => concat (layer_nodes <$> ls)
  | None => []
  end.

(** ** The loop of the compositors, by index *)

(** [for (let i = n - 1; i >= 0; i--) body(i)] on a threaded context. *)
Fixpoint for_down (n : nat) (body : nat -> Ctx -> Res Ctx) (ctx : Ctx) : Res Ctx :=
  match n with
  | O => mret ctx
  | S i => ctx' ← body i ctx; for_down i body ctx'
  end.

(** [const l = layers[i]; ...] with the given loop body. *)
Definition at_index (layers : list Layer) (visit : Layer -> Ctx -> Res Ctx)
    (i : nat) (ctx : Ctx) : Res Ctx :=
  match layers !! i with
  | Some l => visit l ctx
  | None => mret ctx
  end.

(** The loop of both compositors over its body [visit]: the body runs on the
    last sibling first. *)
Definition loop_over (visit : Layer -> Ctx -> Res Ctx) (ctx : Ctx)
    (layers : list Layer) : Res Ctx :=
  foldr (fun l r => ctx' ← r; visit l ctx') (mret ctx) layers.

(** The layers that get painted, in the order of painting: of a sibling
    sequence the last sibling comes first; a hidden or adjustment layer
    contributes nothing, a group contributes what its children do, any other
    layer itself. *)
Fixpoint leaves_painted (l : Layer) : list Layer :=
  if l_hidden l || l_adjustment l then []
  else match l_children l with
       | Some cs =>
           (fix of_siblings (ls : list Layer) : list Layer :=
              match ls with
              | [] => []
              | c :: ls' => of_siblings ls' ++ leaves_painted c
              end) cs
       | None => [l]
       end.

Definition paint_order (layers : list Layer) : list Layer :=
  foldr (fun l later => later ++ leaves_painted l) [] layers.

(** Painting a sequence of layers one after the other, first to last. *)
Fixpoint paint_each (paint_leaf : Layer -> Ctx -> Res Ctx) (ctx : Ctx)
    (ls : list Layer) : Res Ctx :=
  match ls with
  | [] => mret ctx
  | l :: ls' => ctx' ← paint_leaf l ctx; paint_each paint_leaf ctx' ls'
  end.

(** The drawing state of a context, apart from what has been painted. *)
Definition drawing_state (ctx : Ctx) : Q * CompositeOp * list (Q * CompositeOp) :=
  (globalAlpha ctx, globalCompositeOperation ctx, ctx_saved ctx).

(** ** Layers that differ in one field *)

Definition with_blendMode (tag : option string) (l : Layer) : Layer :=
  mkLayer (l_hidden l) (l_adjustment l) (l_children l) (l_imageData l)
          (l_canvas l) (l_opacity l) tag (l_left l) (l_top l).

Definition with_children (cs : option (list Layer)) (l : Layer) : Layer :=
  mkLayer (l_hidden l) (l_adjustment l) cs (l_imageData l)
          (l_canvas l) (l_opacity l) (l_blendMode l) (l_left l) (l_top l).

Definition with_pixels (img : option PixelData) (cv : option Canvas) (l : Layer) : Layer :=
  mkLayer (l_hidden l) (l_adjustment l) (l_children l) img
          cv (l_opacity l) (l_blendMode l) (l_left l) (l_top l).

(** The layer reached from a sibling sequence by a path of child indices gets
    the blend-mode tag [tag]; a path that leaves the tree changes nothing. *)
Fixpoint retag_at (path : list nat) (tag : option string) (layers : list Layer)
    : list Layer :=
  match path with
  | [] => layers
  | [i] => match layers !! i with
           | Some l => <[i := with_blendMode tag l]> layers
           | None => layers
           end
  | i :: path' =>
      match layers !! i with
      | Some l =>
          match l_children l with
          | Some cs => <[i := with_children (Some (retag_at path' tag cs)) l]> layers
          | None => layers
          end
      | None => layers
      end
  end.

Definition psd_with_children (cs : option (list Layer)) (psd : Psd) : Psd :=
  mkPsd (psd_width psd) (psd_height psd) cs (psd_imageData psd) (psd_canvas psd).

(** ** Signatures *)

(** The ASCII bytes "%PDF" and "8BPS". *)
Definition PDF_SIGNATURE : list byte := [x25; x50; x44; x46].
Definition PSD_SIGNATURE : list byte := [x38; x42; x50; x53].

(** The message of the error the magic-number contract asks for, if any. *)
Definition signature_error (file : list byte) : option string :=
  if bool_decide (4 ≤ length file)%nat then
    if bool_decide (take 4 file = PDF_SIGNATURE) then Some PDF_MESSAGE
    else if bool_decide (take 4 file = PSD_SIGNATURE) then None
    else Some NOT_PSD_MESSAGE
  else None.

(** ** Stages *)

Definition all_stages : list RenderStage := [RawData; HighFidelity; SafeMode; Composite].

Definition stage_options (s : RenderStage) : ReadOptions :=
  match s with
  | RawData => options_raw_data
  | HighFidelity => options_high_fidelity
  | SafeMode => options_safe_mode
  | Composite => options_composite
  end.

Definition stage_body (env : Platform) (s : RenderStage) : M (option PSDRenderResult) :=
  match s with
  | RawData => stage_raw_data env
  | HighFidelity => stage_high_fidelity env
  | SafeMode => stage_safe_mode env
  | Composite => stage_composite env
  end.

Definition stage_catch (s : RenderStage) : JsError -> M (option PSDRenderResult) :=
  match s with
  | RawData => catch_raw_data
  | HighFidelity => catch_high_fidelity
  | SafeMode => catch_safe_mode
  | Composite => catch_composite
  end.

(** What the stage does with the document its parse returned. *)
Definition stage_render (env : Platform) (s : RenderStage) (psd : Psd)
    : Res (option PSDRenderResult) :=
  match s with
  | RawData => raw_data_surface env psd
  | HighFidelity => high_fidelity_surface env psd
  | SafeMode => safe_mode_surface psd
  | Composite => composite_surface psd
  end.

(** One stage with its [catch] block. *)
Definition attempt (env : Platform) (s : RenderStage) : M (option PSDRenderResult) :=
  try_catch (stage_body env s) (stage_catch s).

(** A sequence of stages tried in turn, ending in the terminal error. *)
Fixpoint cascade (env : Platform) (stages : list RenderStage) : M PSDRenderResult :=
  match stages with
  | [] => throw (Error UNSUPPORTED_MESSAGE)
  | s :: rest =>
      r ← attempt env s;
      match r with
      | Some res => mret res
      | None => cascade env rest
      end
  end.

(** What one stage, run on its own on a buffer, comes to: the surface it
    returns, or nothing when it throws or reaches the end of its block. *)
Definition stage_surface (env : Platform) (s : RenderStage) (buffer : list byte)
    : option PSDRenderResult :=
  match snd (stage_body env s (mkWorld buffer [])) with
  | Ok (Some r) => Some r
  | Ok None | Throw _ => None
  end.

(** The first stage of a list that yields a surface, with that surface. *)
Fixpoint first_surface (env : Platform) (stages : list RenderStage) (buffer : list byte)
    : option (RenderStage * PSDRenderResult) :=
  match stages with
  | [] => None
  | s :: rest =>
      match stage_surface env s buffer with
      | Some r => Some (s, r)
      | None => first_surface env rest buffer
      end
  end.

(** The same search when each stage is handed the buffer as the parse of the
    stage before left it. *)
Fixpoint first_surface_threaded (env : Platform) (stages : list RenderStage)
    (buffer : list byte) : option (RenderStage * PSDRenderResult) :=
  match stages with
  | [] => None
  | s :: rest =>
      match stage_surface env s buffer with
      | Some r => Some (s, r)
      | None =>
          first_surface_threaded env rest
            (fst (readPsd env buffer (stage_options s)))
      end
  end.

(** The stages attempted when [s] is the one that succeeds. *)
Definition stages_through (s : RenderStage) : list RenderStage :=
  match s with
  | RawData => [RawData]
  | HighFidelity => [RawData; HighFidelity]
  | SafeMode => [RawData; HighFidelity; SafeMode]
  | Composite => [RawData; HighFidelity; SafeMode; Composite]
  end.

(** The parses recorded in a trace, in order. *)
Definition parses (tr : list Event) : list ReadOptions :=
  omap (fun ev => match ev with EvReadPsd o => Some o | EvWarn _ _ => None end) tr.

(** The warnings recorded in a trace, in order. *)
Definition warnings (tr : list Event) : list (string * string) :=
  omap (fun ev => match ev with EvWarn l m => Some (l, m) | EvReadPsd _ => None end) tr.

(** The parser leaves the buffer as it found it. *)
Definition parser_read_only (env : Platform) : Prop :=
  forall buffer opts, fst (readPsd env buffer opts) = buffer.

(** ** What a compositor may leave on a canvas *)

(** A layer drawn by a compositor: a [drawImage] of a source that has both
    dimensions, at an alpha between 0 and 1. *)
Definition is_layer_draw (op : PaintOp Canvas) : Prop :=
  match op with
  | DrawImage src a _ _ _ =>
      (0 <= a)%Q /\ (a <= 1)%Q /\ cv_width src <> 0 /\ cv_height src <> 0
  | PutImageData _ _ _ _ _ => False
  end.

(** The canvas of [ctx'] is the canvas of [ctx] with layer draws added, at
    most [n] of them. *)
Definition draws_added (n : nat) (ctx ctx' : Ctx) : Prop :=
  cv_width (ctx_canvas ctx') = cv_width (ctx_canvas ctx) /\
  cv_height (ctx_canvas ctx') = cv_height (ctx_canvas ctx) /\
  exists ops,
    cv_ops (ctx_canvas ctx') = cv_ops (ctx_canvas ctx) ++ ops /\
    Forall is_layer_draw ops /\ (length ops <= n)%nat.

(** The engine gives a typed array of [n] bytes. *)
Definition allocatable (env : Platform) (n : Z) : Prop :=
  n <= MAX_SAFE_INTEGER /\ allocates env n = true.

(** The pixel record of a layer, if it has one, fits the range of canvas
    dimensions. *)
Definition pixels_in_canvas_range (l : Layer) : Prop :=
  match l_imageData l with
  | Some pd => pd_width pd <= 2147483647 /\ pd_height pd <= 2147483647
  | None => True
  end.

(** Painting the pixel record of a layer takes a buffer the engine does not
    give: the record has a width, a height and data, a 2D context is to be
    had for its canvas, and its [w*h*4] bytes are not allocated. *)
Definition wants_too_much (env : Platform) (l : Layer) : Prop :=
  match l_imageData l with
  | Some pd =>
      0 < pd_width pd /\ 0 < pd_height pd /\ 0 < pa_length (pd_data pd) /\
      context2d_available env (mkCanvas (pd_width pd) (pd_height pd) []) = true /\
      ~ allocatable env (pd_width pd * pd_height pd * 4)
  | None => False
  end.

(** The canvas of a layer, if it has one, lacks a dimension. *)
Definition has_empty_canvas (l : Layer) : Prop :=
  match l_canvas l with
  | Some c => cv_width c = 0 \/ cv_height c = 0
  | None => False
  end.

(** ** What a run writes to the console *)

(** The first argument of [console.warn] in the [catch] block of a stage; the
    [catch] block of the raw-data stage is empty. *)
Definition stage_label (s : RenderStage) : option string :=
  match s with
  | RawData => None
  | HighFidelity => Some "[PSD] Stage 1 failed:"
  | SafeMode => Some "[PSD] Stage 2 failed:"
  | Composite => Some "[PSD] Stage 3 failed:"
  end.

(** The warning a stage gives rise to when run on a buffer: its label with
    the message of what the stage threw, if it has a label and throws. *)
Definition stage_warning (env : Platform) (s : RenderStage) (buffer : list byte)
    : option (string * string) :=
  match stage_label s, snd (stage_body env s (mkWorld buffer [])) with
  | Some label, Throw e => Some (label, err_message e)
  | _, _ => None
  end.

(** The stages of a list that get attempted on a buffer: all up to and
    including the first that yields a surface. *)
Fixpoint stages_attempted (env : Platform) (stages : list RenderStage)
    (buffer : list byte) : list RenderStage :=
  match stages with
  | [] => []
  | s :: rest =>
      s :: match stage_surface env s buffer with
           | Some _ => []
           | None => stages_attempted env rest buffer
           end
  end.

(** * Export: [exportCanvasAsImage], [exportCanvasAsPDF], [triggerDownload] *)

(** ** Strings *)

(** [s.split(sep)] for a separator of one character: the pieces between the
    separators, one more than there are separators. *)
Fixpoint split_on (sep : Ascii.ascii) (s : string) : list string :=
  match s with
  | EmptyString => [EmptyString]
  | String c s' =>
      if Ascii.eqb c sep then EmptyString :: split_on sep s'
      else match split_on sep s' with
           | piece :: pieces => String c piece :: pieces
           | [] => [String c EmptyString]
           end
  end.

(** [`${pieces[0]}`]: an index past the end gives [undefined], which a
    template prints as such. *)
Definition template_index (pieces : list string) (i : nat) : string :=
  match pieces !! i with
  | Some piece => piece
  | None => "undefined"
  end.

Definition dot : Ascii.ascii := Ascii.Ascii false true true true false true false false.

(** [name.split('.')[0]] *)
Definition before_first_dot (name : string) : string :=
  template_index (split_on dot name) 0.

Fixpoint has_char (c : Ascii.ascii) (s : string) : bool :=
  match s with
  | EmptyString => false
  | String c' s' => Ascii.eqb c' c || has_char c s'
  end.

Fixpoint count_char (c : Ascii.ascii) (s : string) : nat :=
  match s with
  | EmptyString => 0
  | String c' s' => (if Ascii.eqb c' c then 1 else 0) + count_char c s'
  end.

(** ** The platform of the export functions *)

Inductive DomEvent : Type :=
  | EvCreateObjectURL (data : list byte) (type url : string)
  | EvAnchorClick (href download : string)
  | EvRevokeObjectURL (url : string).

(** [canvas.toBlob] hands its callback the encoded bytes or [null];
    [URL.createObjectURL] names a blob; [canvas.toDataURL] and [fetch] turn
    the canvas into JPEG bytes; [jpeg_page_document] stands for the calls
    into pdf-lib of [exportCanvasAsPDF] ([PDFDocument.create], [embedJpg],
    [addPage], [drawImage], [save]), which give the bytes of a document of
    one page holding the image or throw. *)
Record ExportPlatform : Type := mkExportPlatform {
  toBlob : Canvas -> string -> Q -> option (list byte);
  createObjectURL : list byte -> string -> string;
  toDataURL : Canvas -> string -> Q -> string;
  fetch_arrayBuffer : string -> Res (list byte);
  jpeg_page_document : list byte -> Res (list byte) }.

Inductive ImageFormat : Type := FormatPng | FormatJpg.

(** [format === 'png' ? 'png' : 'jpg'] and [format === 'png' ? 'image/png' : 'image/jpeg'] *)
Definition image_extension (format : ImageFormat) : string :=
  match format with FormatPng => "png" | FormatJpg => "jpg" end.

Definition image_mime (format : ImageFormat) : string :=
  match format with FormatPng => "image/png" | FormatJpg => "image/jpeg" end.

(** [`${fileName.split('.')[0]}.${ext}`] *)
Definition export_name (ext fileName : string) : string :=
  before_first_dot fileName +:+ "." +:+ ext.

(** The body of the callback of [toBlob], and of [triggerDownload]: an
    anchor on an object URL is clicked and the URL revoked. *)
Definition download_blob (penv : ExportPlatform) (data : list byte)
    (type fileName : string) : list DomEvent :=
  let url := createObjectURL penv data type in
  [EvCreateObjectURL data type url; EvAnchorClick url fileName;
   EvRevokeObjectURL url].

(** [exportCanvasAsImage]: what its [toBlob] callback does when it runs. *)
Definition exportCanvasAsImage (penv : ExportPlatform) (c : Canvas)
    (format : ImageFormat) (fileName : string) : list DomEvent :=
  match toBlob penv c (image_mime format) (95 # 100)%Q with
  | None => []
  | Some blob =>
      download_blob penv blob (image_mime format)
                    (export_name (image_extension format) fileName)
  end.

Definition exportCanvasAsPDF (penv : ExportPlatform) (c : Canvas) : Res (list byte) :=
  bytes ← fetch_arrayBuffer penv (toDataURL penv c "image/jpeg" (92 # 100)%Q);
  jpeg_page_document penv bytes.

(** [triggerDownload(data, fileName, type = 'application/pdf')] *)
Definition triggerDownload (penv : ExportPlatform) (data : list byte)
    (fileName : string) (type : option string) : list DomEvent :=
  download_blob penv data (default "application/pdf" type) fileName.

(** * The viewer: the handlers of [PSDViewerTool] *)

Record File : Type := mkFile {
  file_name : string;
  file_type : string;
  file_bytes : list byte }.

Record Toast : Type := mkToast {
  toast_variant : option string;
  toast_title : string;
  toast_description : string }.

(** The zoom factor is a floating-point number: its type and the arithmetic
    of the initial fit, [Math.min(aw / cw, ah / ch, 1)], are taken from the
    platform, with the message of the [TypeError] that reading a property of
    [undefined] raises, and with the exception that reading a file rejects
    with when the file cannot be read. *)
Record ViewerPlatform : Type := mkViewerPlatform {
  Number : Type;
  fit_ratio : Z -> Z -> Z -> Z -> Number;
  undefined_read_message : string;
  read_error : File -> option JsError }.

(** What [file.arrayBuffer()] settles to. *)
Definition File_arrayBuffer (venv : ViewerPlatform) (file : File) : Res (list byte) :=
  match read_error venv file with
  | None => Ok (file_bytes file)
  | Some e => Throw e
  end.

(** The state hooks of the component. *)
Record ViewerState (N : Type) : Type := mkViewerState {
  sourceFile : option File;
  renderResult : option PSDRenderResult;
  isProcessing : bool;
  zoom : N;
  isFullscreen : bool }.
Arguments mkViewerState {N} _ _ _ _ _.
Arguments sourceFile {N} _.
Arguments renderResult {N} _.
Arguments isProcessing {N} _.
Arguments zoom {N} _.
Arguments isFullscreen {N} _.

(** [err.message || text] *)
Definition message_or (text : string) (e : JsError) : string :=
  match err_message e with
  | EmptyString => text
  | message => message
  end.

Definition LOAD_FALLBACK : string := "Could not composite this PSD document.".

(** [handleFileSelect]: [container] is the client width and height of
    [containerRef.current], if the reference is set. *)
Definition handleFileSelect (env : Platform) (venv : ViewerPlatform)
    (container : option (Z * Z)) (files : list File)
    (st : ViewerState (Number venv)) (w : World)
    : ViewerState (Number venv) * list Toast * World :=
  let file := files !! 0%nat in
  (* setSourceFile(file); setIsProcessing(true); setRenderResult(null) *)
  let st := mkViewerState file None true (zoom st) (isFullscreen st) in
  let '(w, outcome) :=
    match file with
    | Some f => renderPSDToCanvas env (File_arrayBuffer venv f) w
    | None => (w, Throw (mkError "TypeError" (undefined_read_message venv)))
    end in
  let '(st, toasts) :=
    match outcome with
    | Ok result =>
        let st := mkViewerState (sourceFile st) (Some result) (isProcessing st)
                                (zoom st) (isFullscreen st) in
        match container with
        | Some (clientWidth, clientHeight) =>
            let padding := 160 in
            let availableWidth := clientWidth - padding in
            let availableHeight := clientHeight - padding in
            let ratio := fit_ratio venv availableWidth (cv_width (canvas result))
                                   availableHeight (cv_height (canvas result)) in
            (mkViewerState (sourceFile st) (renderResult st) (isProcessing st)
                           ratio (isFullscreen st), [])
        | None => (st, [])
        end
    | Throw err =>
        (mkViewerState None (renderResult st) (isProcessing st) (zoom st)
                       (isFullscreen st),
         [mkToast (Some "destructive") "Load Error" (message_or LOAD_FALLBACK err)])
    end in
  (* finally: setIsProcessing(false) *)
  (mkViewerState (sourceFile st) (renderResult st) false (zoom st) (isFullscreen st),
   toasts, w).

Inductive ExportFormat : Type := ExportPng | ExportJpg | ExportPdf.

(** [format.toUpperCase()] *)
Definition format_upper (format : ExportFormat) : string :=
  match format with ExportPng => "PNG" | ExportJpg => "JPG" | ExportPdf => "PDF" end.

Definition export_success (format : ExportFormat) : Toast :=
  mkToast None "Studio Export"
          ("File saved successfully as " +:+ format_upper format +:+ ".").

Definition export_failure : Toast :=
  mkToast (Some "destructive") "Export Failed"
          "Memory limit exceeded during export composition.".

(** [handleExport]: the state after it, its toasts, and what reaches the
    DOM, the download of an image being what the callback of [toBlob] does
    once it runs. *)
Definition handleExport {N : Type} (penv : ExportPlatform) (format : ExportFormat)
    (st : ViewerState N) : ViewerState N * list Toast * list DomEvent :=
  match renderResult st, sourceFile st with
  | Some result, Some file =>
      let '(toasts, events) :=
        match format with
        | ExportPdf =>
            match exportCanvasAsPDF penv (canvas result) with
            | Ok pdfBytes =>
                ([export_success format],
                 triggerDownload penv pdfBytes (export_name "pdf" (file_name file)) None)
            | Throw _ => ([export_failure], [])
            end
        | ExportPng =>
            ([export_success format],
             exportCanvasAsImage penv (canvas result) FormatPng (file_name file))
        | ExportJpg =>
            ([export_success format],
             exportCanvasAsImage penv (canvas result) FormatJpg (file_name file))
        end in
      (mkViewerState (sourceFile st) (renderResult st) false (zoom st)
                     (isFullscreen st), toasts, events)
  | _, _ => (st, [], [])
  end.

(** The extension each export format ends up with. *)
Definition export_extension (format : ExportFormat) : string :=
  match format with ExportPng => "png" | ExportJpg => "jpg" | ExportPdf => "pdf" end.

(** * The upload control: the handlers of [FileUpload] *)

(** [toLowerCase] and [trim] follow Unicode; they are taken from the
    platform. *)
Record TextPlatform : Type := mkTextPlatform {
  toLowerCase : string -> string;
  trim : string -> string }.

(** [s.endsWith(suffix)]: some tail of [s] is [suffix]. *)
Fixpoint endsWith (s suffix : string) : bool :=
  String.eqb s suffix ||
  match s with
  | EmptyString => false
  | String _ s' => endsWith s' suffix
  end.

Definition comma : Ascii.ascii := Ascii.Ascii false false true true false true false false.

(** [accept.split(',').map(a => a.trim().toLowerCase())] *)
Definition accepted_extensions (tenv : TextPlatform) (accept : string) : list string :=
  (fun a => toLowerCase tenv (trim tenv a)) <$> split_on comma accept.

(** [exts.some(ext => f.name.toLowerCase().endsWith(ext))] *)
Definition file_accepted (tenv : TextPlatform) (exts : list string) (f : File) : bool :=
  existsb (fun ext => endsWith (toLowerCase tenv (file_name f)) ext) exts.

(** [onDrop]: the argument of the call of [onFilesSelected], if it is called.
    An absent or empty [accept] is falsy. *)
Definition onDrop (tenv : TextPlatform) (accept : option string) (multiple : bool)
    (dropped : list File) : option (list File) :=
  let files := dropped in
  let files :=
    match accept with
    | Some (String _ _ as accept) =>
        let exts := accepted_extensions tenv accept in
        List.filter (file_accepted tenv exts) files
    | Some EmptyString | None => files
    end in
  match files with
  | first :: _ => Some (if multiple then files else [first])
  | [] => None
  end.

(** [onInputChange]: [chosen] is [e.target.files], if there is one. *)
Definition onInputChange (chosen : option (list File)) : option (list File) :=
  let files := default [] chosen in
  match files with
  | _ :: _ => Some files
  | [] => None
  end.

(** * [src/lib/pdf-service.ts]: merging and splitting *)

Record SaveOptions : Type := mkSaveOptions {
  useObjectStreams : bool;
  objectsPerStream : Z }.

Definition SAVE_OPTS : SaveOptions := mkSaveOptions true 50.

Record PageRange : Type := mkPageRange { range_start : Z; range_end : Z }.

Definition TypeError : JsError := mkError "TypeError" EmptyString.

(** The largest length of an array, 2^32 - 1. *)
Definition MAX_ARRAY_LENGTH : Z := 4294967295.

(** [Array.from({ length: n }, (_, i) => f(i))] for an integer [n]: the
    array [f(0), ..., f(n - 1)], empty when [n] is not positive; a
    [RangeError] when [n] is no array length. *)
Definition Array_from_length {A : Type} (n : Z) (f : Z -> A) : Res (list A) :=
  if bool_decide (MAX_ARRAY_LENGTH < n) then Throw RangeError
  else Ok (f <$> seqZ 0 n).

Section PdfService.
(** A document of pdf-lib, as far as these functions look at it, is the
    sequence of its pages; what a page is does not matter to them. Reading
    a document from bytes and writing one are the library's. The library
    keeps the pages of a document in an array, which bounds their number.
    A file is given to these functions as the bytes that
    [await file.arrayBuffer()] resolved with. *)
Context {Page : Type}.

Record PdfLib : Type := mkPdfLib {
  PDFDocument_load : list byte -> Res (list Page);
  PDFDocument_save : list Page -> SaveOptions -> list byte;
  page_count_bound : forall file doc,
    PDFDocument_load file = Ok doc -> Z.of_nat (length doc) <= MAX_ARRAY_LENGTH }.

Context (lib : PdfLib).

(** [doc.copyPages(source, indices)]: a copy of the page at each index; the
    library fails on an index that is no page of the source. *)
Fixpoint copyPages (source : list Page) (indices : list Z) : Res (list Page) :=
  match indices with
  | [] => mret []
  | i :: rest =>
      match (if bool_decide (0 <= i) then source !! Z.to_nat i else None) with
      | Some page => pages ← copyPages source rest; mret (page :: pages)
      | None => Throw TypeError
      end
  end.

(** [pdf.getPageIndices()] *)
Definition getPageIndices (doc : list Page) : list Z :=
  seqZ 0 (Z.of_nat (length doc)).

(** [pages.forEach((p) => doc.addPage(p))] *)
Definition addPages (doc pages : list Page) : list Page :=
  foldl (fun doc p => doc ++ [p]) doc pages.

(** [Array.from({ length: end - start + 1 }, (_, i) => start - 1 + i)
       .filter((i) => i >= 0 && i < total)] *)
Definition range_indices (total : Z) (range : PageRange) : Res (list Z) :=
  indices ← Array_from_length (range_end range - range_start range + 1)
                              (fun i => range_start range - 1 + i);
  mret (filter (fun i => 0 <= i /\ i < total) indices).

(** The loop of [mergePDFDocuments] over the remaining files. *)
Fixpoint merge_loop (merged : list Page) (files : list (list byte)) : Res (list Page) :=
  match files with
  | [] => mret merged
  | file :: rest =>
      pdf ← PDFDocument_load lib file;
      pages ← copyPages pdf (getPageIndices pdf);
      merge_loop (addPages merged pages) rest
  end.

Definition mergePDFDocuments (files : list (list byte)) : Res (list byte) :=
  merged ← merge_loop [] files;
  mret (PDFDocument_save lib merged SAVE_OPTS).

(** The loop of [splitPDFDocument] over the remaining ranges. *)
Fixpoint split_loop (source : list Page) (total : Z) (results : list (list byte))
    (ranges : list PageRange) : Res (list (list byte)) :=
  match ranges with
  | [] => mret results
  | range :: rest =>
      let doc := [] in
      indices ← range_indices total range;
      if bool_decide (0 < length indices)%nat then
        pages ← copyPages source indices;
        let doc := addPages doc pages in
        split_loop source total (results ++ [PDFDocument_save lib doc SAVE_OPTS]) rest
      else split_loop source total results rest
  end.

Definition splitPDFDocument (file : list byte) (ranges : list PageRange)
    : Res (list (list byte)) :=
  source ← PDFDocument_load lib file;
  let total := Z.of_nat (length source) in
  split_loop source total [] ranges.

(** The loop of [extractAndMergePDFRanges] over the remaining ranges. *)
Fixpoint extract_loop (source : list Page) (total : Z) (doc : list Page)
    (ranges : list PageRange) : Res (list Page) :=
  match ranges with
  | [] => mret doc
  | range :: rest =>
      indices ← range_indices total range;
      pages ← copyPages source indices;
      extract_loop source total (addPages doc pages) rest
  end.

Definition extractAndMergePDFRanges (file : list byte) (ranges : list PageRange)
    : Res (list byte) :=
  source ← PDFDocument_load lib file;
  let total := Z.of_nat (length source) in
  doc ← extract_loop source total [] ranges;
  mret (PDFDocument_save lib doc SAVE_OPTS).

(** The pages of a document that a range of page numbers, counted from 1,
    covers. *)
Definition page_slice (source : list Page) (range : PageRange) : list Page :=
  let first := Z.max (range_start range) 1 in
  let last := Z.min (range_end range) (Z.of_nat (length source)) in
  take (Z.to_nat (last - first + 1)) (drop (Z.to_nat (first - 1)) source).

End PdfService.
Arguments PdfLib Page : clear implicits.

(** The range asks [Array.from] for no more indices than an array holds. *)
Definition range_fits (range : PageRange) : bool :=
  bool_decide (range_end range - range_start range + 1 <= MAX_ARRAY_LENGTH).

(** * The split tool: [onExecuteSplit] of [SplitTool] *)

Record RangeInput : Type := mkRangeInput {
  input_start : string;
  input_end : string;
  input_id : string }.

(** [parseInt], which gives [NaN] ([None]) on text that does not start with
    a number, and the printing of a number in a template. The numbers are
    integers: text of so many digits that [parseInt] gives [Infinity] is left
    out of the model. *)
Record NumberPlatform : Type := mkNumberPlatform {
  parseInt : string -> option Z;
  number_toString : Z -> string }.

(** The body of the [map] over the entered ranges:
    [start = Math.max(1, parseInt(r.start) || 1)],
    [endValue = r.end.trim() === '' ? start : parseInt(r.end)],
    [end = Math.min(totalPageCount, isNaN(endValue) ? start : endValue)]. *)
Definition entered_range (nenv : NumberPlatform) (tenv : TextPlatform)
    (totalPageCount : Z) (r : RangeInput) : PageRange :=
  let start :=
    Z.max 1 (match parseInt nenv (input_start r) with
             | Some 0 | None => 1
             | Some n => n
             end) in
  let endValue :=
    if String.eqb (trim tenv (input_end r)) EmptyString then Some start
    else parseInt nenv (input_end r) in
  let end_ := Z.min totalPageCount (default start endValue) in
  mkPageRange start end_.

(** [extractionRanges.map(...).filter(r => r.start <= r.end)] *)
Definition validRanges (nenv : NumberPlatform) (tenv : TextPlatform)
    (totalPageCount : Z) (extractionRanges : list RangeInput) : list PageRange :=
  filter (fun r => range_start r <= range_end r)
         (entered_range nenv tenv totalPageCount <$> extractionRanges).

(** [`split_p${range.start}-p${range.end}_${sourceFile.name}`] *)
Definition split_name (nenv : NumberPlatform) (range : PageRange) (name : string) : string :=
  "split_p" +:+ number_toString nenv (range_start range) +:+ "-p" +:+
  number_toString nenv (range_end range) +:+ "_" +:+ name.

(** [files.forEach((data, i) => { const range = validRanges[i]; ... })] from
    index [i] on: the downloads made, and the [TypeError] of reading
    [range.start] when there is no range at the index. *)
Fixpoint split_downloads (nenv : NumberPlatform) (penv : ExportPlatform)
    (name : string) (valid : list PageRange) (files : list (list byte)) (i : nat)
    : list DomEvent * option JsError :=
  match files with
  | [] => ([], None)
  | data :: rest =>
      match valid !! i with
      | Some range =>
          let '(events, err) := split_downloads nenv penv name valid rest (S i) in
          (triggerDownload penv data (split_name nenv range name) None ++ events, err)
      | None => ([], Some TypeError)
      end
  end.

Definition invalid_ranges_toast : Toast :=
  mkToast (Some "destructive") "Invalid Ranges" "Please check your page ranges.".

Definition split_success_toast : Toast :=
  mkToast None "Success" "Files processed successfully.".

Definition split_error_toast : Toast :=
  mkToast (Some "destructive") "Error" "Failed to process PDF.".

(** [onExecuteSplit]: the toasts shown and what reaches the DOM; [None]
    when there is no source file and the handler returns at once. In every
    other case [isProcessing] is switched on and, at the end, off. *)
Definition onExecuteSplit {Page : Type} (nenv : NumberPlatform) (tenv : TextPlatform)
    (lib : PdfLib Page) (penv : ExportPlatform)
    (sourceFile : option File) (totalPageCount : Z)
    (extractionRanges : list RangeInput) (mergeOutput : bool)
    : option (list Toast * list DomEvent) :=
  match sourceFile with
  | None => None
  | Some file =>
      let valid := validRanges nenv tenv totalPageCount extractionRanges in
      Some
        match valid with
        | [] => ([invalid_ranges_toast], [])
        | _ :: _ =>
            if mergeOutput then
              match extractAndMergePDFRanges lib (file_bytes file) valid with
              | Ok data =>
                  ([split_success_toast],
                   triggerDownload penv data ("split_merged_" +:+ file_name file) None)
              | Throw _ => ([split_error_toast], [])
              end
            else
              match splitPDFDocument lib (file_bytes file) valid with
              | Ok files =>
                  match split_downloads nenv penv (file_name file) valid files 0 with
                  | (events, None) => ([split_success_toast], events)
                  | (events, Some _) => ([split_error_toast], events)
                  end
              | Throw _ => ([split_error_toast], [])
              end
        end
  end.

(** * Sample inputs *)

(** A platform whose parser rejects every buffer, and one whose parser finds
    a flattened canvas only when per-layer pixel decoding is skipped. On both
    a 2D context is always to be had, typed arrays go up to 2^32 - 1 bytes,
    and the parser leaves the buffer alone. *)
Definition env_rejecting : Platform :=
  mkPlatform (fun buffer _ => (buffer, Throw (Error "Invalid signature")))
             (fun _ => true) (fun n => bool_decide (n <= 4294967295)).

Definition sample_leaf : Layer :=
  mkLayer false false None None None None None None None.

Definition sample_group : Layer :=
  mkLayer false false (Some [sample_leaf; sample_leaf]) None None None None None None.

Definition sample_psd : Psd :=
  mkPsd 2 1 (Some [sample_group; sample_leaf]) None (Some (mkCanvas 2 1 [])).

Definition env_composite_only : Platform :=
  mkPlatform (fun buffer opts =>
                (buffer, if skipLayerImageData opts then Ok sample_psd
                         else Throw (Error "Invalid blend mode")))
             (fun _ => true) (fun n => bool_decide (n <= 4294967295)).

Definition sample_psd_file : list byte := PSD_SIGNATURE ++ [x00; x01].
Definition sample_pdf_file : list byte := PDF_SIGNATURE ++ [x2d; x31].
Definition sample_png_file : list byte := [x89; x50; x4e; x47; x0d].
Definition sample_short_file : list byte := [x38; x42; x50].

Definition empty_world : World := mkWorld [] [].

(** Pixel records: one of no width around four bytes, one whose data is
    longer than its two pixels need, one whose data is shorter. *)
Definition zero_size_pixels : PixelData :=
  mkPixelData (TypedArray [x00; x00; x00; xff] 4) 0 0.

Definition long_pixels : PixelData :=
  mkPixelData (TypedArray [x01; x02; x03; x04; x05; x06; x07; x08; x09; x0a] 10) 2 1.

Definition short_pixels : PixelData :=
  mkPixelData (TypedArray [x01; x02; x03] 3) 2 1.

(** A record of the largest canvas dimensions: its pixels would take more
    bytes than a typed array can have. *)
Definition huge_pixels : PixelData :=
  mkPixelData (TypedArray [x01; x02; x03; x04] 4) 2147483647 2147483647.

(** Layers: a leaf with pixels in both forms, the same leaf hidden, a group
    that also carries pixels of its own, and such a group without children. *)
Definition painted_leaf : Layer :=
  mkLayer false false None
          (Some (mkPixelData (TypedArray [x01; x02; x03; x04] 4) 1 1))
          (Some (mkCanvas 1 1 [])) None (Some "multiply") (Some 3) None.

Definition hidden_leaf : Layer :=
  mkLayer true false None
          (Some (mkPixelData (TypedArray [x01; x02; x03; x04] 4) 1 1))
          (Some (mkCanvas 1 1 [])) None None None None.

Definition group_with_pixels : Layer :=
  mkLayer false false (Some [painted_leaf])
          (Some (mkPixelData (TypedArray [x09; x09; x09; x09] 4) 1 1))
          (Some (mkCanvas 7 7 [])) None None None None.

Definition empty_group_with_pixels : Layer :=
  mkLayer false false (Some [])
          (Some (mkPixelData (TypedArray [x09; x09; x09; x09] 4) 1 1))
          (Some (mkCanvas 7 7 [])) None None None None.

Definition sample_context : Ctx := fresh_context (mkCanvas 4 4 []).

(** An export platform on which encoding always works, and one on which it
    never does. *)
Definition penv_encoding : ExportPlatform :=
  mkExportPlatform (fun _ _ _ => Some [x89; x50]) (fun _ _ => "blob:1")
                   (fun _ _ _ => "data:image/jpeg;base64,") (fun _ => Ok [xff; xd8])
                   (fun bytes => Ok (x25 :: x50 :: bytes)).

Definition penv_failing : ExportPlatform :=
  mkExportPlatform (fun _ _ _ => None) (fun _ _ => "blob:1")
                   (fun _ _ _ => "data:,") (fun _ => Ok [])
                   (fun _ => Throw (Error "SOI not found in JPEG")).

Definition venv_sample : ViewerPlatform :=
  mkViewerPlatform Q
    (fun aw cw ah ch =>
       let a := (inject_Z aw / inject_Z cw)%Q in
       let b := (inject_Z ah / inject_Z ch)%Q in
       let m := if Qle_bool a b then a else b in
       if Qle_bool m 1 then m else 1%Q)
                   "Cannot read properties of undefined (reading 'arrayBuffer')"
    (fun file => if String.eqb (file_name file) "gone.psd"
                 then Some (mkError "NotReadableError" "The file could not be read.")
                 else None).

Definition sample_upload : File := mkFile "poster.final.psd" EmptyString sample_psd_file.

Definition unreadable_upload : File := mkFile "gone.psd" EmptyString sample_psd_file.

Definition idle_viewer : ViewerState Q := mkViewerState None None false 1%Q false.

Definition loaded_viewer : ViewerState Q :=
  mkViewerState (Some sample_upload)
                (Some (buildResult (mkCanvas 2 1 []) Composite sample_psd))
                false 1%Q false.

(** A text platform for ASCII names: letters A to Z are lowered, blanks at
    either end are not looked at. *)
Definition ascii_lower (c : Ascii.ascii) : Ascii.ascii :=
  let n := Ascii.nat_of_ascii c in
  if (65 <=? n)%nat && (n <=? 90)%nat then Ascii.ascii_of_nat (n + 32) else c.

Fixpoint string_lower (s : string) : string :=
  match s with
  | EmptyString => EmptyString
  | String c s' => String (ascii_lower c) (string_lower s')
  end.

Definition tenv_ascii : TextPlatform := mkTextPlatform string_lower (fun s => s).

Definition dropped_files : list File :=
  [mkFile "notes.txt" "text/plain" []; mkFile "Poster.PSD" EmptyString sample_psd_file;
   mkFile "logo.psd" EmptyString sample_psd_file].

(** A library whose pages are numbers: a file of [n] bytes loads as the
    pages [1 .. n], an empty file or one of more than 255 bytes does not
    load; saving writes one byte for each page. *)
Definition lib_sample : PdfLib nat.
Proof.
  refine (mkPdfLib
            (fun file =>
               if bool_decide (file = []) || bool_decide (255 < Z.of_nat (length file))
               then Throw (Error "No PDF header found")
               else Ok (seq 1 (length file)))
            (fun doc _ => (fun p => default x00 (Byte.of_nat p)) <$> doc) _).
  intros file doc. unfold MAX_ARRAY_LENGTH.
  destruct (bool_decide (file = [])); [discriminate|].
  case_bool_decide as Hlen; [discriminate|].
  intros [= <-]. rewrite length_seq. lia.
Defined.

Definition five_page_file : list byte := [x25; x50; x44; x46; x2d].

(** Number parsing for plain decimal text, and printing by stdpp. *)
Fixpoint parse_digits (acc : option Z) (s : string) : option Z :=
  match s with
  | EmptyString => acc
  | String c s' =>
      let n := Ascii.nat_of_ascii c in
      if (48 <=? n)%nat && (n <=? 57)%nat
      then parse_digits (Some (10 * default 0 acc + Z.of_nat (n - 48))) s'
      else acc
  end.

Definition nenv_decimal : NumberPlatform :=
  mkNumberPlatform (parse_digits None) pretty.

Definition split_upload : File := mkFile "report.pdf" "application/pdf" five_page_file.

Definition entered_ranges : list RangeInput :=
  [mkRangeInput "2" "3" "a"; mkRangeInput "4" "2" "b"; mkRangeInput "x" EmptyString "c";
   mkRangeInput "5" "99" "d"].

(** * Properties *)

(** ** Induction over layer trees *)

Lemma Layer_nested_ind (P : Layer -> Prop)
    (step : forall l,
        match l_children l with Some cs => Forall P cs | None => True end -> P l) :
  forall l, P l.
Proof.
  fix IH 1. intros l. apply step.
  destruct l as [h a cs img cv o b x y]; simpl.
  destruct cs as [cs|]; [|exact I].
  induction cs as [|c cs IHcs]; constructor; [apply IH | exact IHcs].
Qed.

(** ** The equations of the source *)

Lemma countLayers_children_eq l :
  countLayers_children l = countLayers (l_children l).
Proof. destruct l as [h a [cs|] img cv o b x y]; reflexivity. Qed.

(** [layers.reduce((n, l) => n + 1 + countLayers(l.children), 0)] *)
Lemma countLayers_Some ls :
  countLayers (Some ls) =
  fold_left (fun n l => n + 1 + countLayers (l_children l)) ls 0.
Proof.
  unfold countLayers at 1. generalize 0.
  induction ls as [|l ls IH]; intros a; simpl; [reflexivity|].
  rewrite countLayers_children_eq. apply IH.
Qed.

Lemma layer_nodes_eq l :
  layer_nodes l = l :: tree_nodes (l_children l).
Proof.
  destruct l as [h a [cs|] img cv o b x y]; simpl; [|reflexivity].
  f_equal. induction cs as [|c cs IH]; simpl; [reflexivity|].
  rewrite IH. reflexivity.
Qed.

Lemma fold_left_count (f : Layer -> Z) ls a :
  fold_left (fun n l => n + 1 + f l) ls a =
  a + fold_left (fun n l => n + 1 + f l) ls 0.
Proof.
  revert a. induction ls as [|l ls IH]; intros a; simpl; [lia|].
  rewrite (IH (a + 1 + f l)), (IH (0 + 1 + f l)). lia.
Qed.

Lemma countLayers_children_nodes l :
  countLayers_children l = Z.of_nat (length (tree_nodes (l_children l))).
Proof.
  induction l as [l IHl] using Layer_nested_ind.
  rewrite countLayers_children_eq.
  destruct (l_children l) as [cs|]; [|reflexivity].
  unfold countLayers, tree_nodes.
  induction cs as [|c cs IHcs]; [reflexivity|].
  apply Forall_cons_1 in IHl as [Hc Hcs].
  rewrite fmap_cons. cbn [fold_left concat].
  rewrite fold_left_count, (IHcs Hcs), Hc, layer_nodes_eq, length_app.
  cbn [length]. lia.
Qed.

Lemma countLayers_nodes layers :
  countLayers layers = Z.of_nat (length (tree_nodes layers)).
Proof.
  destruct layers as [ls|]; [|reflexivity].
  unfold countLayers, tree_nodes.
  induction ls as [|l ls IH]; [reflexivity|].
  rewrite fmap_cons. cbn [fold_left concat].
  rewrite fold_left_count, IH, countLayers_children_nodes, layer_nodes_eq, length_app.
  cbn [length]. lia.
Qed.

(** ** The magic number *)

Lemma byteZ_range b : 0 <= byteZ b < 256.
Proof. unfold byteZ. pose proof (Byte.to_N_bounded b). lia. Qed.

Lemma byteZ_inj b c : byteZ b = byteZ c -> b = c.
Proof.
  unfold byteZ. intros H. apply N2Z.inj in H.
  pose proof (Byte.of_to_N b) as Hb. rewrite H, Byte.of_to_N in Hb. congruence.
Qed.

Lemma getUint32_inj b0 b1 b2 b3 c0 c1 c2 c3 :
  getUint32 b0 b1 b2 b3 = getUint32 c0 c1 c2 c3 ->
  [b0; b1; b2; b3] = [c0; c1; c2; c3].
Proof.
  unfold getUint32. intros H.
  pose proof (byteZ_range b0). pose proof (byteZ_range b1).
  pose proof (byteZ_range b2). pose proof (byteZ_range b3).
  pose proof (byteZ_range c0). pose proof (byteZ_range c1).
  pose proof (byteZ_range c2). pose proof (byteZ_range c3).
  assert (byteZ b0 = byteZ c0) by lia.
  assert (byteZ b1 = byteZ c1) by lia.
  assert (byteZ b2 = byteZ c2) by lia.
  assert (byteZ b3 = byteZ c3) by lia.
  repeat f_equal; apply byteZ_inj; assumption.
Qed.

Lemma PDF_magic : getUint32 x25 x50 x44 x46 = 0x25504446.
Proof. reflexivity. Qed.

Lemma PSD_magic : getUint32 x38 x42 x50 x53 = 0x38425053.
Proof. reflexivity. Qed.

Lemma validate_signature_run buffer w :
  validate_signature buffer w =
  (w, match signature_error buffer with
      | Some msg => Throw (Error msg)
      | None => Ok ()
      end).
Proof.
  unfold validate_signature, signature_error.
  case_bool_decide as Hlen; [|reflexivity].
  destruct buffer as [|b0 [|b1 [|b2 [|b3 rest]]]]; simpl in Hlen; try lia.
  cbn [take DataView_getUint32_0]. rewrite take_0.
  assert (Hpdf : [b0; b1; b2; b3] = PDF_SIGNATURE <->
                 getUint32 b0 b1 b2 b3 = 0x25504446).
  { split; [intros [= -> -> -> ->]; reflexivity|].
    intros H. apply getUint32_inj. rewrite PDF_magic. exact H. }
  assert (Hpsd : [b0; b1; b2; b3] = PSD_SIGNATURE <->
                 getUint32 b0 b1 b2 b3 = 0x38425053).
  { split; [intros [= -> -> -> ->]; reflexivity|].
    intros H. apply getUint32_inj. rewrite PSD_magic. exact H. }
  unfold mbind, M_bind, lift, throw, mret, M_ret.
  repeat case_bool_decide; simpl; try reflexivity; exfalso; tauto.
Qed.

(** ** Running stages *)

Section PipelineFacts.
Context (env : Platform).

Lemma stage_body_run s w :
  stage_body env s w =
  (mkWorld (fst (readPsd env (w_buffer w) (stage_options s)))
           (w_trace w ++ [EvReadPsd (stage_options s)]),
   snd (readPsd env (w_buffer w) (stage_options s)) ≫= stage_render env s).
Proof.
  destruct s; cbn [stage_body stage_options stage_render];
    unfold stage_raw_data, stage_high_fidelity, stage_safe_mode, stage_composite,
           readPsdM, mbind, M_bind, lift;
    destruct (readPsd env _ _) as [buffer' [psd|e]]; reflexivity.
Qed.

Lemma stage_surface_eq s buffer :
  stage_surface env s buffer =
  match snd (readPsd env buffer (stage_options s)) ≫= stage_render env s with
  | Ok (Some r) => Some r
  | Ok None | Throw _ => None
  end.
Proof. unfold stage_surface. rewrite stage_body_run. reflexivity. Qed.

(** An attempt never throws: it parses once and answers with the surface of
    the stage, if any. *)
Lemma attempt_run s w :
  exists evs,
    attempt env s w =
      (mkWorld (fst (readPsd env (w_buffer w) (stage_options s)))
               (w_trace w ++ evs),
       Ok (stage_surface env s (w_buffer w))) /\
    parses evs = [stage_options s].
Proof.
  unfold attempt, try_catch. rewrite stage_body_run, stage_surface_eq.
  destruct (snd (readPsd env _ _) ≫= stage_render env s) as [[r|]|e].
  - eexists. split; reflexivity.
  - eexists. split; reflexivity.
  - destruct s; cbn [stage_catch];
      unfold catch_raw_data, catch_high_fidelity, catch_safe_mode,
             catch_composite, console_warn, mbind, M_bind, mret, M_ret;
      cbn [w_buffer w_trace]; rewrite <- ?(assoc_L (++));
      eexists; split; reflexivity.
Qed.

(** The stages a cascade attempts on a buffer. *)
Lemma cascade_run stages w :
  exists buffer' evs,
    cascade env stages w = 
      (mkWorld buffer' (w_trace w ++ evs),
       match first_surface_threaded env stages (w_buffer w) with
       | Some (_, r) => Ok r
       | None => Throw (Error UNSUPPORTED_MESSAGE)
       end) /\
    exists tried,
      parses evs = stage_options <$> tried /\
      tried `prefix_of` stages /\
      match first_surface_threaded env stages (w_buffer w) with
      | Some (s, _) => last tried = Some s
      | None => tried = stages
      end.
Proof.
  revert w. induction stages as [|s rest IH]; intros w.
  - exists (w_buffer w), []. rewrite (right_id_L [] (++)).
    destruct w; split; [reflexivity|]. exists []. done.
  - destruct (attempt_run s w) as (evs & Hrun & Hevs).
    cbn [cascade first_surface_threaded]. unfold mbind, M_bind. rewrite Hrun.
    destruct (stage_surface env s (w_buffer w)) as [r|].
    + eexists _, evs. split; [reflexivity|].
      exists [s]. rewrite Hevs. split_and!; [done| |done].
      by apply prefix_cons, prefix_nil.
    + destruct (IH (mkWorld (fst (readPsd env (w_buffer w) (stage_options s)))
                            (w_trace w ++ evs)))
        as (buffer' & evs' & Hrest & tried & Htried & Hpre & Hlast).
      cbn [w_buffer w_trace] in *.
      exists buffer', (evs ++ evs'). rewrite (assoc_L (++)). split; [exact Hrest|].
      exists (s :: tried). unfold parses in *. rewrite omap_app, Hevs, Htried.
      split_and!; [done|by apply prefix_cons|].
      destruct (first_surface_threaded env rest _) as [[s' r']|].
      * destruct tried; [discriminate|]. exact Hlast.
      * by rewrite Hlast.
Qed.

Lemma renderBuffer_cascade w :
  renderBuffer env w =
  (validate_signature (w_buffer w);; cascade env all_stages) w.
Proof. reflexivity. Qed.

End PipelineFacts.

Section PipelineResults.
Context (env : Platform).

(** A surface is always built by [buildResult] from the document the stage
    parsed, under the stage's own name. *)
Lemma stage_render_built s psd r :
  stage_render env s psd = Ok (Some r) ->
  exists c, r = buildResult c s psd.
Proof.
  destruct s; cbn [stage_render];
    unfold raw_data_surface, high_fidelity_surface, safe_mode_surface,
           composite_surface, mbind, Res_bind, mret, Res_ret; intros H;
    repeat match type of H with
           | context [match ?x with _ => _ end] => destruct x
           end;
    try discriminate; injection H as <-; eexists; reflexivity.
Qed.

Lemma stage_surface_built s buffer r :
  stage_surface env s buffer = Some r ->
  exists buffer' psd c,
    readPsd env buffer (stage_options s) = (buffer', Ok psd) /\
    r = buildResult c s psd.
Proof.
  rewrite stage_surface_eq.
  destruct (readPsd env buffer (stage_options s)) as [buffer' [psd|e]];
    cbn [snd mbind Res_bind]; [|discriminate].
  destruct (stage_render env s psd) as [[r'|]|e] eqn:Hr; try discriminate.
  intros [= <-]. apply stage_render_built in Hr as [c ->]. eauto.
Qed.

Lemma stage_surface_stage s buffer r :
  stage_surface env s buffer = Some r -> stage r = s.
Proof. intros (? & ? & ? & _ & ->)%stage_surface_built. reflexivity. Qed.

Lemma first_surface_threaded_built stages buffer s r :
  first_surface_threaded env stages buffer = Some (s, r) ->
  exists buffer0 buffer' psd c,
    readPsd env buffer0 (stage_options s) = (buffer', Ok psd) /\
    r = buildResult c s psd.
Proof.
  revert buffer. induction stages as [|s0 rest IH]; intros buffer; [discriminate|].
  cbn [first_surface_threaded].
  destruct (stage_surface env s0 buffer) as [r0|] eqn:H0.
  - intros [= <- <-]. apply stage_surface_built in H0 as (? & ? & ? & ? & ?). eauto 6.
  - apply IH.
Qed.

Lemma prefix_of_all_stages tried s :
  tried `prefix_of` all_stages -> last tried = Some s ->
  tried = stages_through s.
Proof.
  intros [k Hk] Hlast. unfold all_stages in Hk.
  destruct tried as [|a [|b [|c [|d [|e tried]]]]];
    simplify_eq/=; reflexivity.
Qed.

(** The pipeline on the buffer of the invocation: the signature check, then
    the cascade over the four stages. *)
Lemma renderBuffer_run w :
  exists buffer' evs,
    renderBuffer env w =
      (mkWorld buffer' (w_trace w ++ evs),
       match signature_error (w_buffer w) with
       | Some msg => Throw (Error msg)
       | None =>
           match first_surface_threaded env all_stages (w_buffer w) with
           | Some (_, r) => Ok r
           | None => Throw (Error UNSUPPORTED_MESSAGE)
           end
       end) /\
    match signature_error (w_buffer w) with
    | Some _ => evs = [] /\ buffer' = w_buffer w
    | None =>
        parses evs = stage_options <$>
          match first_surface_threaded env all_stages (w_buffer w) with
          | Some (s, _) => stages_through s
          | None => all_stages
          end
    end.
Proof.
  rewrite renderBuffer_cascade. unfold mbind, M_bind.
  rewrite validate_signature_run.
  destruct (signature_error (w_buffer w)) as [msg|].
  - exists (w_buffer w), []. rewrite (right_id_L [] (++)). by destruct w.
  - destruct (cascade_run env all_stages w)
      as (buffer' & evs & Hrun & tried & Htried & Hpre & Hlast).
    exists buffer', evs. split; [exact Hrun|]. rewrite Htried. f_equal.
    destruct (first_surface_threaded env all_stages (w_buffer w)) as [[s r]|].
    + by apply prefix_of_all_stages.
    + exact Hlast.
Qed.

Lemma renderPSDToCanvas_renderBuffer file w :
  renderPSDToCanvas env (Ok file) w = renderBuffer env (mkWorld file (w_trace w)).
Proof. reflexivity. Qed.

(** *** A parser that leaves the buffer alone *)

Context (Hro : parser_read_only env).

Lemma first_surface_threaded_read_only stages buffer :
  first_surface_threaded env stages buffer = first_surface env stages buffer.
Proof using Hro.
  induction stages as [|s rest IH]; [reflexivity|].
  cbn [first_surface_threaded first_surface]. rewrite Hro, IH. reflexivity.
Qed.

Lemma stage_body_buffer s w :
  w_buffer (fst (stage_body env s w)) = w_buffer w.
Proof using Hro. rewrite stage_body_run. apply Hro. Qed.

Lemma cascade_buffer stages w :
  w_buffer (fst (cascade env stages w)) = w_buffer w.
Proof using Hro.
  revert w. induction stages as [|s rest IH]; intros w; [reflexivity|].
  destruct (attempt_run env s w) as (evs & Hrun & _).
  cbn [cascade]. unfold mbind, M_bind. rewrite Hrun.
  destruct (stage_surface env s (w_buffer w)); cbn [fst w_buffer].
  - apply Hro.
  - rewrite IH. apply Hro.
Qed.

Lemma renderBuffer_buffer w :
  w_buffer (fst (renderBuffer env w)) = w_buffer w.
Proof using Hro.
  rewrite renderBuffer_cascade. unfold mbind, M_bind.
  rewrite validate_signature_run.
  destruct (signature_error (w_buffer w)); [reflexivity|].
  apply cascade_buffer.
Qed.

Lemma renderBuffer_result w :
  snd (renderBuffer env w) =
  match signature_error (w_buffer w) with
  | Some msg => Throw (Error msg)
  | None =>
      match first_surface env all_stages (w_buffer w) with
      | Some (_, r) => Ok r
      | None => Throw (Error UNSUPPORTED_MESSAGE)
      end
  end.
Proof using Hro.
  destruct (renderBuffer_run w) as (buffer' & evs & -> & _).
  rewrite first_surface_threaded_read_only. reflexivity.
Qed.

End PipelineResults.

(** ** The staged pipeline *)

Lemma first_surface_None env stages buffer :
  first_surface env stages buffer = None <->
  forall s, s ∈ stages -> stage_surface env s buffer = None.
Proof.
  induction stages as [|s0 rest IH]; cbn [first_surface].
  - split; [intros _ s Hs; by apply elem_of_nil in Hs | done].
  - destruct (stage_surface env s0 buffer) as [r|] eqn:H0.
    + split; [discriminate|]. intros H. specialize (H s0 (list_elem_of_here _ _)).
      congruence.
    + rewrite IH. split.
      * intros H s [->|Hs]%elem_of_cons; auto.
      * intros H s Hs. apply H. by apply list_elem_of_further.
Qed.

Lemma elem_of_all_stages s : s ∈ all_stages.
Proof. destruct s; unfold all_stages; set_solver. Qed.

Lemma messages_distinct :
  PDF_MESSAGE <> NOT_PSD_MESSAGE /\ PDF_MESSAGE <> UNSUPPORTED_MESSAGE /\
  NOT_PSD_MESSAGE <> UNSUPPORTED_MESSAGE.
Proof. split_and!; discriminate. Qed.

Lemma signature_error_cases file msg :
  signature_error file = Some msg -> msg = PDF_MESSAGE \/ msg = NOT_PSD_MESSAGE.
Proof.
  unfold signature_error. repeat case_bool_decide; intros [= <-]; auto.
Qed.

(** C1. On a buffer that passes the signature check, [renderPSDToCanvas]
    returns the surface of the first stage, in the order raw-data,
    high-fidelity, safe-mode, composite, whose own parse of that buffer yields
    one; a stage is passed over exactly when it throws or ends without a
    surface. The result carries the name of that stage in [stage], the parses
    made are those of the stages up to and including it, and none after it.
    When no stage yields a surface all four parses are made and the terminal
    error is raised. The buffer is the same for every stage. *)
Theorem staged_fallback_order env file w :
  parser_read_only env ->
  signature_error file = None ->
  exists evs,
    fst (renderPSDToCanvas env (Ok file) w) = mkWorld file (w_trace w ++ evs) /\
    match first_surface env all_stages file with
    | Some (s, r) =>
        snd (renderPSDToCanvas env (Ok file) w) = Ok r /\
        stage r = s /\
        parses evs = stage_options <$> stages_through s
    | None =>
        snd (renderPSDToCanvas env (Ok file) w) = Throw (Error UNSUPPORTED_MESSAGE) /\
        parses evs = stage_options <$> all_stages
    end.
Proof.
  intros Hro Hsig. rewrite renderPSDToCanvas_renderBuffer.
  pose proof (renderBuffer_buffer env Hro (mkWorld file (w_trace w))) as Hbuf.
  destruct (renderBuffer_run env (mkWorld file (w_trace w)))
    as (buffer' & evs & Hrun & Hevs).
  cbn [w_buffer w_trace] in *. rewrite Hsig in Hrun, Hevs.
  rewrite first_surface_threaded_read_only in Hrun, Hevs by exact Hro.
  rewrite Hrun in Hbuf |- *. cbn [fst snd w_buffer] in *. subst buffer'.
  exists evs. split; [reflexivity|].
  destruct (first_surface env all_stages file) as [[s r]|] eqn:Hfirst.
  - split_and!; [reflexivity| |exact Hevs].
    clear -Hfirst. unfold all_stages in Hfirst. cbn [first_surface] in Hfirst.
    repeat match type of Hfirst with
           | context [stage_surface ?e ?s ?b] =>
               let H := fresh "H" in
               destruct (stage_surface e s b) eqn:H;
               [apply stage_surface_stage in H|]
           end; congruence.
  - split; [reflexivity|exact Hevs].
Qed.

Lemma staged_fallback_order_witness :
  parser_read_only env_composite_only /\
  signature_error sample_psd_file = None /\
  exists evs,
    fst (renderPSDToCanvas env_composite_only (Ok sample_psd_file) empty_world)
      = mkWorld sample_psd_file (w_trace empty_world ++ evs) /\
    match first_surface env_composite_only all_stages sample_psd_file with
    | Some (s, r) =>
        snd (renderPSDToCanvas env_composite_only (Ok sample_psd_file) empty_world) = Ok r /\
        stage r = s /\
        parses evs = stage_options <$> stages_through s
    | None =>
        snd (renderPSDToCanvas env_composite_only (Ok sample_psd_file) empty_world)
          = Throw (Error UNSUPPORTED_MESSAGE) /\
        parses evs = stage_options <$> all_stages
    end.
Proof.
  assert (Hro : parser_read_only env_composite_only) by (intros ? ?; reflexivity).
  split; [exact Hro|]. split; [reflexivity|].
  apply (staged_fallback_order env_composite_only sample_psd_file empty_world Hro).
  reflexivity.
Defined.

(** The staged-fallback scenario of the specification: per-layer parsing
    fails, the flattened image is there, the composite stage answers. *)
Example composite_fallback_sample :
  snd (renderPSDToCanvas env_composite_only (Ok sample_psd_file) empty_world)
  = Ok {| canvas := mkCanvas 2 1 []; stage := Composite; layerCount := 4;
          width := 2; height := 1 |}.
Proof. reflexivity. Qed.

(** C2. A buffer of at least four bytes is checked before any parse: the PDF
    signature raises the wrong-tool error, four bytes that are neither the
    PDF nor the PSD signature raise the generic error, the two messages
    differ, and the trace of the run is left as it was. *)
Theorem magic_number_validation env file w :
  (4 <= length file)%nat ->
  (take 4 file = PDF_SIGNATURE ->
   renderPSDToCanvas env (Ok file) w =
     (mkWorld file (w_trace w), Throw (Error PDF_MESSAGE))) /\
  (take 4 file <> PDF_SIGNATURE -> take 4 file <> PSD_SIGNATURE ->
   renderPSDToCanvas env (Ok file) w =
     (mkWorld file (w_trace w), Throw (Error NOT_PSD_MESSAGE))) /\
  Error PDF_MESSAGE <> Error NOT_PSD_MESSAGE.
Proof.
  intros Hlen. rewrite renderPSDToCanvas_renderBuffer, renderBuffer_cascade.
  unfold mbind, M_bind. rewrite validate_signature_run. cbn [w_buffer].
  unfold signature_error. rewrite bool_decide_eq_true_2 by exact Hlen.
  split_and!.
  - intros Hpdf. rewrite bool_decide_eq_true_2 by exact Hpdf. reflexivity.
  - intros Hpdf Hpsd. rewrite !bool_decide_eq_false_2 by assumption. reflexivity.
  - discriminate.
Qed.

Lemma magic_number_validation_witness :
  (4 <= length sample_pdf_file)%nat /\
  take 4 sample_pdf_file = PDF_SIGNATURE /\
  renderPSDToCanvas env_composite_only (Ok sample_pdf_file) empty_world =
    (mkWorld sample_pdf_file [], Throw (Error PDF_MESSAGE)).
Proof.
  assert (Hlen : (4 <= length sample_pdf_file)%nat) by (vm_compute; lia).
  split; [exact Hlen|]. split; [reflexivity|].
  apply (magic_number_validation env_composite_only sample_pdf_file empty_world Hlen).
  reflexivity.
Defined.

Example not_a_psd_sample :
  renderPSDToCanvas env_composite_only (Ok sample_png_file) empty_world =
    (mkWorld sample_png_file [], Throw (Error NOT_PSD_MESSAGE)).
Proof. reflexivity. Qed.

(** C3. [countLayers] counts every node of a layer tree, groups and leaves
    at every depth, so the [layerCount] that [buildResult] stores is that
    number for the document it is given; and whatever [renderPSDToCanvas]
    returns carries the node count of a document the parser returned. The
    count is made by [countLayers] alone, whatever the compositors paint. *)
Theorem layerCount_counts_all_nodes :
  (forall layers, countLayers layers = Z.of_nat (length (tree_nodes layers))) /\
  (forall c s psd,
     layerCount (buildResult c s psd)
     = Z.of_nat (length (tree_nodes (psd_children psd)))) /\
  (forall env file w w' r,
     renderPSDToCanvas env file w = (w', Ok r) ->
     exists buffer opts buffer' psd,
       readPsd env buffer opts = (buffer', Ok psd) /\
       layerCount r = Z.of_nat (length (tree_nodes (psd_children psd)))).
Proof.
  split_and!.
  - apply countLayers_nodes.
  - intros c s psd. apply countLayers_nodes.
  - intros env [file|e] w w' r; [|discriminate].
    rewrite renderPSDToCanvas_renderBuffer.
    destruct (renderBuffer_run env (mkWorld file (w_trace w)))
      as (buffer' & evs & -> & _).
    destruct (signature_error _); [discriminate|].
    destruct (first_surface_threaded env all_stages _) as [[s r']|] eqn:Hfirst;
      [|discriminate].
    intros [= _ ->].
    apply first_surface_threaded_built in Hfirst as (b0 & b1 & psd & c & Hparse & ->).
    exists b0, (stage_options s), b1, psd. split; [exact Hparse|].
    apply countLayers_nodes.
Qed.

Lemma layerCount_counts_all_nodes_witness :
  renderPSDToCanvas env_composite_only (Ok sample_psd_file) empty_world
  = (fst (renderPSDToCanvas env_composite_only (Ok sample_psd_file) empty_world),
     Ok (buildResult (mkCanvas 2 1 []) Composite sample_psd)) /\
  exists buffer opts buffer' psd,
    readPsd env_composite_only buffer opts = (buffer', Ok psd) /\
    layerCount (buildResult (mkCanvas 2 1 []) Composite sample_psd)
    = Z.of_nat (length (tree_nodes (psd_children psd))).
Proof.
  assert (H : renderPSDToCanvas env_composite_only (Ok sample_psd_file) empty_world
              = (fst (renderPSDToCanvas env_composite_only (Ok sample_psd_file) empty_world),
                 Ok (buildResult (mkCanvas 2 1 []) Composite sample_psd)))
    by reflexivity.
  split; [exact H|].
  exact (proj2 (proj2 layerCount_counts_all_nodes) _ _ _ _ _ H).
Defined.

Example countLayers_sample :
  countLayers (psd_children sample_psd) = 4 /\
  length (tree_nodes (psd_children sample_psd)) = 4%nat.
Proof. split; reflexivity. Qed.

(** C6. As first stated the claim knew two ways for [renderPSDToCanvas] to
    raise an error. A file whose read is rejected is a third: the exception
    of the read reaches the caller before any check is made or any stage is
    attempted, and it is none of the pipeline's own three. *)
Lemma unreadable_file_error_reaches_caller :
  renderPSDToCanvas env_rejecting (Throw NotReadableError) empty_world
  = (empty_world, Throw NotReadableError) /\
  (NotReadableError ∉ [Error PDF_MESSAGE; Error NOT_PSD_MESSAGE;
                       Error UNSUPPORTED_MESSAGE]) /\
  ~ (forall file w,
       (exists e, snd (renderPSDToCanvas env_rejecting file w) = Throw e) ->
       exists bytes,
         file = Ok bytes /\
         (is_Some (signature_error bytes) \/
          forall s, stage_surface env_rejecting s bytes = None)).
Proof.
  split_and!.
  - reflexivity.
  - intros Hin. repeat (apply elem_of_cons in Hin as [Hin|Hin]);
      [discriminate Hin..|by apply elem_of_nil in Hin].
  - intros Hclaim.
    destruct (Hclaim (Throw NotReadableError) empty_world) as (bytes & [=] & _).
    by exists NotReadableError.
Qed.

(** C6, amended. When the read of the file is rejected, [renderPSDToCanvas]
    throws what the read threw and does nothing else. When the file is
    read, it throws exactly when the signature check rejects the buffer or
    none of the four stages yields a surface; in the second case the error
    is the one that carries the advice to save with maximum compatibility;
    and whatever the parser or a compositor throws inside a stage, the error
    the caller sees is one of the pipeline's own three. *)
Theorem errors_from_read_signature_or_exhaustion env file w :
  parser_read_only env ->
  match file with
  | Throw e => renderPSDToCanvas env file w = (w, Throw e)
  | Ok bytes =>
      ((exists e, snd (renderPSDToCanvas env file w) = Throw e) <->
       (is_Some (signature_error bytes) \/
        forall s, stage_surface env s bytes = None)) /\
      (signature_error bytes = None ->
       (forall s, stage_surface env s bytes = None) ->
       snd (renderPSDToCanvas env file w) = Throw (Error UNSUPPORTED_MESSAGE)) /\
      (forall e,
         snd (renderPSDToCanvas env file w) = Throw e ->
         e = Error PDF_MESSAGE \/ e = Error NOT_PSD_MESSAGE \/
         e = Error UNSUPPORTED_MESSAGE)
  end.
Proof.
  intros Hro. destruct file as [file|e]; [|reflexivity].
  rewrite renderPSDToCanvas_renderBuffer.
  rewrite (renderBuffer_result env Hro). cbn [w_buffer].
  destruct (signature_error file) as [msg|] eqn:Hsig.
  - split_and!.
    + split; [intros _; left; eauto | intros _; eauto].
    + discriminate.
    + intros e [= <-]. apply signature_error_cases in Hsig as [->| ->]; auto.
  - destruct (first_surface env all_stages file) as [[s r]|] eqn:Hfirst.
    + split_and!.
      * split; [intros [e He]; discriminate|].
        intros [[? [=]]|Hnone]. exfalso.
        assert (first_surface env all_stages file = None) as Hn
          by (apply first_surface_None; auto).
        congruence.
      * intros _ Hnone. exfalso.
        assert (first_surface env all_stages file = None) as Hn
          by (apply first_surface_None; auto).
        congruence.
      * discriminate.
    + split_and!.
      * split; [|eauto]. intros _. right. intros s.
        apply (proj1 (first_surface_None env all_stages file) Hfirst).
        apply elem_of_all_stages.
      * reflexivity.
      * intros e [= <-]. auto.
Qed.

Lemma errors_from_read_signature_or_exhaustion_witness :
  parser_read_only env_rejecting /\
  snd (renderPSDToCanvas env_rejecting (Ok sample_psd_file) empty_world)
  = Throw (Error UNSUPPORTED_MESSAGE) /\
  renderPSDToCanvas env_rejecting (Throw NotReadableError) empty_world
  = (empty_world, Throw NotReadableError).
Proof.
  assert (Hro : parser_read_only env_rejecting) by (intros ? ?; reflexivity).
  split; [exact Hro|]. split.
  - apply (proj1 (proj2 (errors_from_read_signature_or_exhaustion
                           env_rejecting (Ok sample_psd_file) empty_world Hro))).
    + reflexivity.
    + intros s. destruct s; reflexivity.
  - exact (errors_from_read_signature_or_exhaustion
             env_rejecting (Throw NotReadableError) empty_world Hro).
Defined.

Example stage_errors_are_logged_not_raised :
  warnings (w_trace (fst (renderPSDToCanvas env_rejecting (Ok sample_psd_file) empty_world)))
  = [("[PSD] Stage 1 failed:", "Invalid signature");
     ("[PSD] Stage 2 failed:", "Invalid signature");
     ("[PSD] Stage 3 failed:", "Invalid signature")] /\
  snd (renderPSDToCanvas env_rejecting (Ok sample_psd_file) empty_world)
  = Throw (Error UNSUPPORTED_MESSAGE).
Proof. split; reflexivity. Qed.

(** C8. On a buffer of fewer than four bytes the signature check does
    nothing: neither signature error can be what [renderPSDToCanvas] raises,
    and if it raises anything it is the terminal error, after the parses of
    all four stages, in their order. *)
Theorem short_buffer_skips_validation env file w :
  (length file < 4)%nat ->
  validate_signature file w = (w, Ok ()) /\
  snd (renderPSDToCanvas env (Ok file) w) <> Throw (Error PDF_MESSAGE) /\
  snd (renderPSDToCanvas env (Ok file) w) <> Throw (Error NOT_PSD_MESSAGE) /\
  (forall e,
     snd (renderPSDToCanvas env (Ok file) w) = Throw e ->
     e = Error UNSUPPORTED_MESSAGE /\
     exists evs,
       w_trace (fst (renderPSDToCanvas env (Ok file) w)) = w_trace w ++ evs /\
       parses evs = stage_options <$> all_stages).
Proof.
  intros Hlen.
  assert (Hsig : signature_error file = None).
  { unfold signature_error. rewrite bool_decide_eq_false_2 by lia. reflexivity. }
  split; [by rewrite validate_signature_run, Hsig|].
  rewrite renderPSDToCanvas_renderBuffer.
  destruct (renderBuffer_run env (mkWorld file (w_trace w)))
    as (buffer' & evs & -> & Hevs).
  cbn [w_buffer w_trace fst snd] in *. rewrite Hsig in *.
  pose proof messages_distinct as (_ & Hpu & Hnu).
  destruct (first_surface_threaded env all_stages file) as [[s r]|].
  - split_and!; try discriminate.
  - split_and!; [intros [= ?]; congruence | intros [= ?]; congruence |].
    intros e [= <-]. split; [reflexivity|]. exists evs. done.
Qed.

Lemma short_buffer_skips_validation_witness :
  (length sample_short_file < 4)%nat /\
  validate_signature sample_short_file empty_world = (empty_world, Ok ()) /\
  snd (renderPSDToCanvas env_rejecting (Ok sample_short_file) empty_world)
    <> Throw (Error NOT_PSD_MESSAGE).
Proof.
  assert (Hlen : (length sample_short_file < 4)%nat) by (vm_compute; lia).
  pose proof (short_buffer_skips_validation env_rejecting sample_short_file
                empty_world Hlen) as (Hv & _ & Hn & _).
  split; [exact Hlen|]. split; [exact Hv | exact Hn].
Defined.

Example short_buffer_sample :
  snd (renderPSDToCanvas env_rejecting (Ok sample_short_file) empty_world)
  = Throw (Error UNSUPPORTED_MESSAGE) /\
  parses (w_trace (fst (renderPSDToCanvas env_rejecting (Ok sample_short_file) empty_world)))
  = [options_raw_data; options_high_fidelity; options_safe_mode; options_composite].
Proof. split; reflexivity. Qed.

(** ** [pixelDataToCanvas] *)

Lemma reflect_unsigned_long_id dflt v :
  0 <= v <= 2147483647 -> reflect_unsigned_long dflt v = v.
Proof.
  intros Hv. unfold reflect_unsigned_long.
  rewrite Z.mod_small by lia. by rewrite bool_decide_eq_true_2 by lia.
Qed.

Lemma new_ImageData_fits data w h :
  0 < w <= 2147483647 -> 0 < h <= 2147483647 ->
  Z.of_nat (length data) = w * h * 4 ->
  new_ImageData data w h = Ok (mkImageData data w h).
Proof.
  intros Hw Hh Hlen. unfold new_ImageData.
  rewrite (Z.mod_small w), (Z.mod_small h) by lia. rewrite Hlen.
  rewrite Z.mod_mul, Z.div_mul by lia.
  rewrite (Z.mul_comm w h), Z.mod_mul, Z.div_mul by lia.
  rewrite (bool_decide_eq_false_2 (h * w * 4 = 0)) by nia.
  rewrite (bool_decide_eq_true_2 (0 = 0)) by reflexivity.
  rewrite (bool_decide_eq_false_2 (w = 0)) by lia.
  rewrite (bool_decide_eq_true_2 (h = h)) by reflexivity.
  reflexivity.
Qed.

(** What [buf.set(...)] leaves in a zeroed buffer of [n] bytes: the first [n]
    bytes of the source, then zeros. *)
Lemma typed_set_zeroed n (src : list byte) :
  typed_set (replicate n x00)
            (if bool_decide (length src <= length (replicate n x00))%nat
             then src else subarray0 src (length (replicate n x00)))
  = Ok (take n src ++ replicate (n - length src) x00).
Proof.
  unfold typed_set, subarray0. rewrite !length_replicate.
  destruct (decide (length src <= n)%nat) as [Hlen|Hlen].
  - rewrite !(bool_decide_eq_true_2 _ Hlen).
    rewrite drop_replicate, take_ge by exact Hlen. reflexivity.
  - rewrite (bool_decide_eq_false_2 _ Hlen).
    rewrite length_take, bool_decide_eq_true_2 by lia.
    rewrite drop_replicate. replace (n - n `min` length src)%nat with 0%nat by lia.
    replace (n - length src)%nat with 0%nat by lia. reflexivity.
Qed.

Lemma new_Uint8ClampedArray_run env n :
  0 <= n ->
  new_Uint8ClampedArray env n =
  if bool_decide (n <= MAX_SAFE_INTEGER) && allocates env n
  then Ok (replicate (Z.to_nat n) x00) else Throw RangeError.
Proof.
  intros Hn. unfold new_Uint8ClampedArray.
  rewrite (bool_decide_eq_false_2 (n < 0)) by lia. cbn [orb].
  case_bool_decide; case_bool_decide; try lia; cbn [orb andb];
    by destruct (allocates env n).
Qed.

Lemma allocatable_true env n :
  allocatable env n -> bool_decide (n <= MAX_SAFE_INTEGER) && allocates env n = true.
Proof. intros [Hn ->]. by rewrite bool_decide_eq_true_2. Qed.

Lemma allocatable_false env n :
  ~ allocatable env n -> bool_decide (n <= MAX_SAFE_INTEGER) && allocates env n = false.
Proof.
  intros Hno. apply not_true_is_false. intros [Hn Ha]%andb_true_iff.
  apply Hno. split; [by apply bool_decide_eq_true in Hn|exact Ha].
Qed.

(** [pixelDataToCanvas] on a record whose width and height are positive
    canvas dimensions. *)
Lemma pixelDataToCanvas_run env pd :
  0 < pd_width pd <= 2147483647 -> 0 < pd_height pd <= 2147483647 ->
  pixelDataToCanvas env pd =
  if context2d_available env (mkCanvas (pd_width pd) (pd_height pd) [])
     && bool_decide (0 < pa_length (pd_data pd))
  then
    if bool_decide (pd_width pd * pd_height pd * 4 <= MAX_SAFE_INTEGER)
       && allocates env (pd_width pd * pd_height pd * 4)
    then
      let n := Z.to_nat (pd_width pd * pd_height pd * 4) in
      let src := new_Uint8Array (pd_data pd) in
      Ok (mkCanvas (pd_width pd) (pd_height pd)
            [PutImageData (take n src ++ replicate (n - length src) x00)
                          (pd_width pd) (pd_height pd) 0 0])
    else Throw RangeError
  else Ok (mkCanvas (pd_width pd) (pd_height pd) []).
Proof.
  intros Hw Hh. unfold pixelDataToCanvas, getContext, set_width, set_height,
    createElement_canvas. cbn [cv_width cv_height].
  rewrite !reflect_unsigned_long_id by lia.
  destruct (context2d_available env _); [|reflexivity]. cbn [andb].
  case_bool_decide as Hdata; [|reflexivity].
  rewrite new_Uint8ClampedArray_run by nia.
  destruct (bool_decide _ && allocates env _); [|reflexivity].
  cbn [mbind Res_bind]. rewrite typed_set_zeroed. cbn [mbind Res_bind].
  rewrite new_ImageData_fits; [reflexivity|lia|lia|].
  rewrite length_app, length_take, length_replicate. nia.
Qed.

(** C9. As first stated the claim covered every pixel record; a record of
    zero width makes the [ImageData] constructor throw. *)
Lemma pixelDataToCanvas_zero_size_throws :
  is_Ok (pixelDataToCanvas env_rejecting zero_size_pixels) = false /\
  ~ (exists c, pixelDataToCanvas env_rejecting zero_size_pixels = Ok c /\
               cv_width c = pd_width zero_size_pixels /\
               cv_height c = pd_height zero_size_pixels).
Proof.
  split; [reflexivity|]. intros (c & Hc & _). discriminate Hc.
Qed.

(** C9, amended. [pixelDataToCanvas] never throws on a record without data,
    which it leaves unpainted. On a record whose width and height are
    positive canvas dimensions it does not throw either, whatever the
    length of the data, as long as the engine gives the buffer of [w*h*4]
    bytes: the canvas has the declared width and height; nothing is written
    when the data is empty or no 2D context is to be had; otherwise the
    [w*h*4] bytes written are the first [w*h*4] bytes of the data when there
    are more, and the data followed by zeros when there are fewer. When the
    engine does not give the buffer, a record with data, on a context, makes
    it throw a [RangeError]. *)
Theorem pixelDataToCanvas_total_on_positive_sizes env :
  (forall pd,
     pa_length (pd_data pd) <= 0 ->
     exists c, pixelDataToCanvas env pd = Ok c /\ cv_ops c = []) /\
  (forall pd,
     0 < pd_width pd <= 2147483647 -> 0 < pd_height pd <= 2147483647 ->
     let n := Z.to_nat (pd_width pd * pd_height pd * 4) in
     let src := new_Uint8Array (pd_data pd) in
     let available :=
       context2d_available env (mkCanvas (pd_width pd) (pd_height pd) []) in
     (allocatable env (pd_width pd * pd_height pd * 4) \/
      pa_length (pd_data pd) <= 0 \/ available = false ->
      exists c,
        pixelDataToCanvas env pd = Ok c /\
        cv_width c = pd_width pd /\ cv_height c = pd_height pd /\
        (pa_length (pd_data pd) <= 0 \/ available = false -> cv_ops c = []) /\
        (0 < pa_length (pd_data pd) -> available = true ->
         ((n < length src)%nat ->
          cv_ops c = [PutImageData (take n src) (pd_width pd) (pd_height pd) 0 0]) /\
         ((length src <= n)%nat ->
          cv_ops c = [PutImageData (src ++ replicate (n - length src) x00)
                                   (pd_width pd) (pd_height pd) 0 0]))) /\
     (~ allocatable env (pd_width pd * pd_height pd * 4) ->
      0 < pa_length (pd_data pd) -> available = true ->
      pixelDataToCanvas env pd = Throw RangeError)).
Proof.
  split.
  - intros pd Hempty. unfold pixelDataToCanvas.
    destruct (getContext env _) as [ctx|]; [|eauto].
    rewrite bool_decide_eq_false_2 by lia. eauto.
  - intros pd Hw Hh n src available.
    rewrite (pixelDataToCanvas_run env pd Hw Hh). fold n src available. split.
    + intros Hfits.
      assert (available && bool_decide (0 < pa_length (pd_data pd)) = false \/
              available && bool_decide (0 < pa_length (pd_data pd)) = true /\
              allocatable env (pd_width pd * pd_height pd * 4)) as [Hoff|[Hon Halloc]].
      { destruct available; cbn [andb]; [|by left].
        case_bool_decide as Hdata; [|by left].
        destruct Hfits as [Halloc|[Hempty|Hctx]]; [by right|lia|discriminate]. }
      * rewrite Hoff. eexists. split; [reflexivity|].
        cbn [cv_width cv_height cv_ops]. split_and!; try reflexivity.
        intros Hdata ->. rewrite (bool_decide_eq_true_2 _ Hdata) in Hoff.
        discriminate Hoff.
      * rewrite Hon, (allocatable_true _ _ Halloc). eexists. split; [reflexivity|].
        cbn [cv_width cv_height cv_ops].
        apply andb_true_iff in Hon as [Hctx Hdata%bool_decide_eq_true].
        split_and!; try reflexivity.
        -- intros [Hempty|Hoff]; [lia|congruence].
        -- intros _ _. split; intros Hlen.
           ++ replace (n - length src)%nat with 0%nat by lia.
              cbn [replicate]. by rewrite (right_id_L [] (++)).
           ++ by rewrite take_ge by exact Hlen.
    + intros Hno Hdata ->. rewrite (bool_decide_eq_true_2 _ Hdata). cbn [andb].
      by rewrite (allocatable_false _ _ Hno).
Qed.

Lemma pixelDataToCanvas_total_on_positive_sizes_witness :
  pixelDataToCanvas env_rejecting long_pixels
    = Ok (mkCanvas 2 1
            [PutImageData [x01; x02; x03; x04; x05; x06; x07; x08] 2 1 0 0]) /\
  pixelDataToCanvas env_rejecting short_pixels
    = Ok (mkCanvas 2 1
            [PutImageData [x01; x02; x03; x00; x00; x00; x00; x00] 2 1 0 0]) /\
  pixelDataToCanvas env_rejecting huge_pixels = Throw RangeError.
Proof.
  assert (Hlong_w : 0 < pd_width long_pixels <= 2147483647) by (vm_compute; split; congruence).
  assert (Hlong_h : 0 < pd_height long_pixels <= 2147483647) by (vm_compute; split; congruence).
  assert (Hshort_w : 0 < pd_width short_pixels <= 2147483647) by (vm_compute; split; congruence).
  assert (Hshort_h : 0 < pd_height short_pixels <= 2147483647) by (vm_compute; split; congruence).
  assert (Hhuge_w : 0 < pd_width huge_pixels <= 2147483647) by (vm_compute; split; congruence).
  assert (Hhuge_h : 0 < pd_height huge_pixels <= 2147483647) by (vm_compute; split; congruence).
  assert (Halloc : allocatable env_rejecting 8) by (split; [vm_compute; congruence|reflexivity]).
  split_and!.
  - destruct (proj1 (proj2 (pixelDataToCanvas_total_on_positive_sizes env_rejecting)
                       long_pixels Hlong_w Hlong_h) (or_introl Halloc))
      as (c & Hrun & Hcw & Hch & _ & Hops).
    destruct c as [cw ch ops]. cbn [cv_width cv_height cv_ops] in *.
    rewrite Hrun, Hcw, Hch.
    rewrite (proj1 (Hops ltac:(reflexivity) eq_refl) ltac:(vm_compute; lia)).
    reflexivity.
  - destruct (proj1 (proj2 (pixelDataToCanvas_total_on_positive_sizes env_rejecting)
                       short_pixels Hshort_w Hshort_h) (or_introl Halloc))
      as (c & Hrun & Hcw & Hch & _ & Hops).
    destruct c as [cw ch ops]. cbn [cv_width cv_height cv_ops] in *.
    rewrite Hrun, Hcw, Hch.
    rewrite (proj2 (Hops ltac:(reflexivity) eq_refl) ltac:(vm_compute; lia)).
    reflexivity.
  - apply (proj2 (proj2 (pixelDataToCanvas_total_on_positive_sizes env_rejecting)
                    huge_pixels Hhuge_w Hhuge_h)); [|reflexivity|reflexivity].
    intros [Hn _]. vm_compute in Hn. congruence.
Defined.

(** ** The loops of the compositors *)

Lemma Res_bind_Ok {A} (r : Res A) : r ≫= Ok = r.
Proof. by destruct r. Qed.

Lemma Res_bind_assoc {A B C} (r : Res A) (f : A -> Res B) (g : B -> Res C) :
  (r ≫= f) ≫= g = r ≫= (fun a => f a ≫= g).
Proof. by destruct r. Qed.

Lemma loop_over_from visit (r : Res Ctx) layers :
  foldr (fun l r => ctx' ← r; visit l ctx') r layers =
  r ≫= (fun ctx => loop_over visit ctx layers).
Proof.
  unfold loop_over. induction layers as [|l layers IH]; cbn [foldr].
  - symmetry. apply Res_bind_Ok.
  - rewrite IH, Res_bind_assoc. reflexivity.
Qed.

Lemma loop_over_app visit ctx front back :
  loop_over visit ctx (front ++ back) =
  loop_over visit ctx back ≫= (fun ctx' => loop_over visit ctx' front).
Proof. unfold loop_over at 1. rewrite foldr_app. apply loop_over_from. Qed.

Lemma loop_over_cons visit ctx l layers :
  loop_over visit ctx (l :: layers) = loop_over visit ctx layers ≫= visit l.
Proof. reflexivity. Qed.

Lemma loop_over_ext visit visit' ctx layers :
  Forall (fun l => forall c, visit l c = visit' l c) layers ->
  loop_over visit ctx layers = loop_over visit' ctx layers.
Proof.
  induction 1 as [|l layers Hl _ IH]; [reflexivity|].
  rewrite !loop_over_cons, IH. destruct (loop_over visit' ctx layers); [apply Hl|reflexivity].
Qed.

Lemma for_down_ext n body body' ctx :
  (forall i c, (i < n)%nat -> body i c = body' i c) ->
  for_down n body ctx = for_down n body' ctx.
Proof.
  revert ctx. induction n as [|n IH]; intros ctx Hbody; [reflexivity|].
  cbn [for_down]. rewrite Hbody by lia.
  destruct (body' n ctx) as [ctx'|e]; [|reflexivity].
  cbn [mbind Res_bind]. apply IH. intros i c Hi. apply Hbody. lia.
Qed.

(** The loop visits index [length - 1] first and index [0] last. *)
Lemma loop_over_for_down visit ctx layers :
  loop_over visit ctx layers =
  for_down (length layers) (at_index layers visit) ctx.
Proof.
  revert ctx. induction layers as [|l layers IH] using rev_ind; intros ctx;
    [reflexivity|].
  rewrite loop_over_app, length_app, Nat.add_1_r. cbn [for_down].
  replace (at_index (layers ++ [l]) visit (length layers) ctx) with (visit l ctx)
    by (unfold at_index; by rewrite list_lookup_middle).
  change (loop_over visit ctx [l]) with (visit l ctx).
  destruct (visit l ctx) as [ctx'|e]; [|reflexivity].
  cbn [mbind Res_bind]. rewrite IH. apply for_down_ext.
  intros i c Hi. unfold at_index. by rewrite lookup_app_l.
Qed.

Section CompositorFacts.
Context (env : Platform).

Lemma renderLayersRaw_loop ctx layers :
  renderLayersRaw env ctx layers = loop_over (renderLayerRaw env) ctx layers.
Proof. reflexivity. Qed.

Lemma renderLayersCanvas_loop ctx layers :
  renderLayersCanvas ctx layers = loop_over renderLayerCanvas ctx layers.
Proof. reflexivity. Qed.

(** The loop body of [renderLayersRaw], as the source writes it. *)
Lemma renderLayerRaw_eq l ctx :
  renderLayerRaw env l ctx =
  if l_hidden l || l_adjustment l then Ok ctx
  else match l_children l with
       | Some cs => renderLayersRaw env ctx cs
       | None => paintRaw env l ctx
       end.
Proof.
  destruct l as [h a [cs|] img cv o b x y]; cbn [renderLayerRaw l_hidden
    l_adjustment l_children]; destruct (h || a); reflexivity.
Qed.

(** The loop body of [renderLayersCanvas], as the source writes it. *)
Lemma renderLayerCanvas_eq l ctx :
  renderLayerCanvas l ctx =
  if l_hidden l || l_adjustment l then Ok ctx
  else match l_children l with
       | Some cs => renderLayersCanvas ctx cs
       | None => paintCanvas l ctx
       end.
Proof.
  destruct l as [h a [cs|] img cv o b x y]; cbn [renderLayerCanvas l_hidden
    l_adjustment l_children]; destruct (h || a); reflexivity.
Qed.

End CompositorFacts.

(** *** What gets painted, and in which order *)

Lemma leaves_painted_eq l :
  leaves_painted l =
  if l_hidden l || l_adjustment l then []
  else match l_children l with
       | Some cs => paint_order cs
       | None => [l]
       end.
Proof.
  destruct l as [h a [cs|] img cv o b x y]; cbn [leaves_painted l_hidden
    l_adjustment l_children]; destruct (h || a); reflexivity.
Qed.

Lemma paint_each_app paint_leaf ctx front back :
  paint_each paint_leaf ctx (front ++ back) =
  paint_each paint_leaf ctx front ≫= (fun ctx' => paint_each paint_leaf ctx' back).
Proof.
  revert ctx. induction front as [|l front IH]; intros ctx; [reflexivity|].
  cbn [app paint_each]. destruct (paint_leaf l ctx) as [ctx'|e]; [apply IH|reflexivity].
Qed.

Section PaintOrder.
Context (visit paint_leaf : Layer -> Ctx -> Res Ctx).
Context (visit_eq : forall l ctx,
  visit l ctx =
  if l_hidden l || l_adjustment l then Ok ctx
  else match l_children l with
       | Some cs => loop_over visit ctx cs
       | None => paint_leaf l ctx
       end).

Lemma loop_over_paint_order_from layers :
  Forall (fun l => forall ctx,
            visit l ctx = paint_each paint_leaf ctx (leaves_painted l)) layers ->
  forall ctx,
    loop_over visit ctx layers = paint_each paint_leaf ctx (paint_order layers).
Proof.
  induction 1 as [|l layers Hl _ IH]; intros ctx; [reflexivity|].
  rewrite loop_over_cons. cbn [paint_order foldr]. fold (paint_order layers).
  rewrite paint_each_app, IH.
  destruct (paint_each paint_leaf ctx (paint_order layers)); [apply Hl|reflexivity].
Qed.

Lemma visit_paints_leaves l :
  forall ctx, visit l ctx = paint_each paint_leaf ctx (leaves_painted l).
Proof using visit_eq.
  induction l as [l IHl] using Layer_nested_ind. intros ctx.
  rewrite visit_eq, leaves_painted_eq. destruct (_ || _); [reflexivity|].
  destruct (l_children l) as [cs|].
  - by apply loop_over_paint_order_from.
  - cbn [paint_each]. symmetry. apply Res_bind_Ok.
Qed.

Lemma loop_over_paint_order ctx layers :
  loop_over visit ctx layers = paint_each paint_leaf ctx (paint_order layers).
Proof using visit_eq.
  apply loop_over_paint_order_from, Forall_forall. intros l _.
  apply visit_paints_leaves.
Qed.

End PaintOrder.

(** C4. Both compositors run their loop body on the siblings from the last
    index down to the first. The body leaves the context untouched on a
    sibling that is hidden or an adjustment layer, whatever lies below it;
    on a visible group with children it is the compositor run on those
    children with the same context, and nothing else: the pixel data of the
    group plays no part. Taken together: what a compositor does to a context
    is to paint, one after the other, the layers of [paint_order], which
    lists later siblings before earlier ones, leaves out hidden and
    adjustment layers with all below them, and holds no group. *)
Theorem compositors_paint_back_to_front env :
  (forall ctx layers,
     renderLayersRaw env ctx layers =
       for_down (length layers) (at_index layers (renderLayerRaw env)) ctx /\
     renderLayersCanvas ctx layers =
       for_down (length layers) (at_index layers renderLayerCanvas) ctx) /\
  (forall l ctx,
     l_hidden l = true \/ l_adjustment l = true ->
     renderLayerRaw env l ctx = Ok ctx /\
     renderLayerCanvas l ctx = Ok ctx) /\
  (forall l cs ctx,
     l_hidden l = false -> l_adjustment l = false ->
     l_children l = Some cs -> cs <> [] ->
     renderLayerRaw env l ctx = renderLayersRaw env ctx cs /\
     renderLayerCanvas l ctx = renderLayersCanvas ctx cs) /\
  (forall ctx layers,
     renderLayersRaw env ctx layers =
       paint_each (paintRaw env) ctx (paint_order layers) /\
     renderLayersCanvas ctx layers =
       paint_each paintCanvas ctx (paint_order layers)).
Proof.
  split_and!.
  - intros ctx layers. split; apply loop_over_for_down.
  - intros l ctx Hskip. rewrite renderLayerRaw_eq, renderLayerCanvas_eq.
    assert (l_hidden l || l_adjustment l = true) as ->; [|done].
    destruct Hskip as [-> | ->]; [reflexivity|apply orb_true_r].
  - intros l cs ctx Hh Ha Hcs _.
    rewrite renderLayerRaw_eq, renderLayerCanvas_eq, Hh, Ha, Hcs. done.
  - intros ctx layers. split.
    + apply (loop_over_paint_order (renderLayerRaw env) (paintRaw env)).
      apply renderLayerRaw_eq.
    + apply (loop_over_paint_order renderLayerCanvas paintCanvas).
      apply renderLayerCanvas_eq.
Qed.

Lemma compositors_paint_back_to_front_witness :
  renderLayerRaw env_rejecting hidden_leaf sample_context = Ok sample_context /\
  renderLayerCanvas group_with_pixels sample_context
    = renderLayersCanvas sample_context [painted_leaf].
Proof.
  pose proof (compositors_paint_back_to_front env_rejecting)
    as (_ & Hskip & Hgroup & _).
  split.
  - apply (Hskip hidden_leaf sample_context). left. reflexivity.
  - apply (Hgroup group_with_pixels [painted_leaf] sample_context);
      [reflexivity|reflexivity|reflexivity|discriminate].
Defined.

Example paint_order_sample :
  paint_order [with_blendMode (Some "screen") painted_leaf; hidden_leaf;
               group_with_pixels; empty_group_with_pixels]
  = [painted_leaf; with_blendMode (Some "screen") painted_leaf].
Proof. reflexivity. Qed.

(** The painting order on a sample: of two visible leaves the later sibling
    is drawn first; the group's own canvas (7 by 7) is never a source. *)
Example back_to_front_sample :
  cv_ops <$> (ctx_canvas <$>
    (match renderLayersCanvas sample_context
             [with_blendMode (Some "screen") painted_leaf; hidden_leaf;
              group_with_pixels] with
     | Ok ctx => Some ctx
     | Throw _ => None
     end))
  = Some [DrawImage (mkCanvas 1 1 []) (255 / 255)%Q Multiply 3 0;
          DrawImage (mkCanvas 1 1 []) (255 / 255)%Q Screen 3 0].
Proof. vm_compute. reflexivity. Qed.

(** C10. A layer that carries a [children] sequence, empty or not, is
    handled as a group by both compositors: what the loop body does on it
    is to skip it when it is hidden or an adjustment layer and otherwise to
    composite its children; its own pixel record and canvas can be replaced
    by anything, or removed, without changing the outcome; and with no
    children nothing at all is painted. *)
Theorem children_take_precedence env l cs ctx :
  l_children l = Some cs ->
  renderLayerRaw env l ctx
    = (if l_hidden l || l_adjustment l then Ok ctx else renderLayersRaw env ctx cs) /\
  renderLayerCanvas l ctx
    = (if l_hidden l || l_adjustment l then Ok ctx else renderLayersCanvas ctx cs) /\
  (forall img cv,
     renderLayerRaw env (with_pixels img cv l) ctx = renderLayerRaw env l ctx /\
     renderLayerCanvas (with_pixels img cv l) ctx = renderLayerCanvas l ctx) /\
  (cs = [] ->
   renderLayerRaw env l ctx = Ok ctx /\ renderLayerCanvas l ctx = Ok ctx).
Proof.
  intros Hcs. split_and!.
  - by rewrite renderLayerRaw_eq, Hcs.
  - by rewrite renderLayerCanvas_eq, Hcs.
  - intros img cv. rewrite !renderLayerRaw_eq, !renderLayerCanvas_eq.
    cbn [with_pixels l_hidden l_adjustment l_children]. by rewrite Hcs.
  - intros ->. rewrite renderLayerRaw_eq, renderLayerCanvas_eq, Hcs.
    by destruct (l_hidden l || l_adjustment l).
Qed.

Lemma children_take_precedence_witness :
  l_children empty_group_with_pixels = Some [] /\
  renderLayerRaw env_rejecting empty_group_with_pixels sample_context
    = Ok sample_context /\
  renderLayerCanvas empty_group_with_pixels sample_context = Ok sample_context.
Proof.
  assert (Hcs : l_children empty_group_with_pixels = Some []) by reflexivity.
  split; [exact Hcs|].
  apply (children_take_precedence env_rejecting empty_group_with_pixels []
           sample_context Hcs).
  reflexivity.
Defined.

(** ** The drawing state and the blend-mode table *)

Lemma BLEND_MODE_MAP_normal : BLEND_MODE_MAP !! "normal" = Some SourceOver.
Proof. vm_compute. reflexivity. Qed.

(** What the assignment of [globalCompositeOperation] does with a tag that
    the table does not hold, in a context that composites source-over. *)
Lemma blend_mode_fallback_assignment tag l ctx :
  BLEND_MODE_MAP !! tag = None ->
  globalCompositeOperation ctx = SourceOver ->
  set_globalCompositeOperation
    (or_source_over (BLEND_MODE_MAP_get
                       (blendMode_or_normal (with_blendMode (Some tag) l)))) ctx
  = set_globalCompositeOperation
      (or_source_over (BLEND_MODE_MAP_get
                         (blendMode_or_normal (with_blendMode (Some "normal") l)))) ctx.
Proof.
  intros Htag Hop.
  unfold blendMode_or_normal. cbn [with_blendMode l_blendMode].
  destruct tag as [|a tag]; [reflexivity|].
  unfold BLEND_MODE_MAP_get. rewrite Htag, BLEND_MODE_MAP_normal.
  destruct ctx as [cv al op st]. cbn [globalCompositeOperation] in Hop. subst op.
  case_bool_decide; reflexivity.
Qed.

Lemma drawImage_state img dx dy ctx ctx' :
  drawImage img dx dy ctx = Ok ctx' -> drawing_state ctx' = drawing_state ctx.
Proof.
  unfold drawImage. destruct (_ || _); [discriminate|]. by intros [= <-].
Qed.

Lemma save_restore_state img dx dy a v ctx ctx' :
  drawImage img dx dy
    (set_globalCompositeOperation v (set_globalAlpha a (save ctx))) = Ok ctx' ->
  drawing_state (restore ctx') = drawing_state ctx.
Proof.
  intros H%drawImage_state. unfold drawing_state, restore in *.
  destruct ctx as [cv al op st], ctx' as [cv' al' op' st'].
  unfold set_globalAlpha, save in H. cbn in H.
  destruct (Qle_bool 0 a && Qle_bool a 1), v; cbn in H;
    injection H as -> -> ->; reflexivity.
Qed.

Section DrawingState.
Context (env : Platform).

Lemma paintRaw_state l ctx ctx' :
  paintRaw env l ctx = Ok ctx' -> drawing_state ctx' = drawing_state ctx.
Proof.
  unfold paintRaw. destruct (l_imageData l) as [pd|]; [|by intros [= <-]].
  destruct (_ && _); [|by intros [= <-]].
  destruct (pixelDataToCanvas env pd) as [lc|e]; [|discriminate].
  cbn [mbind Res_bind].
  destruct (drawImage lc _ _ _) as [ctx1|e] eqn:Hdraw; [|discriminate].
  intros [= <-]. by apply save_restore_state in Hdraw.
Qed.

Lemma paintCanvas_state l ctx ctx' :
  paintCanvas l ctx = Ok ctx' -> drawing_state ctx' = drawing_state ctx.
Proof.
  unfold paintCanvas. destruct (l_canvas l) as [lc|]; [|by intros [= <-]].
  destruct (drawImage lc _ _ _) as [ctx1|e] eqn:Hdraw; [|discriminate].
  intros [= <-]. by apply save_restore_state in Hdraw.
Qed.

Lemma loop_over_state visit layers :
  Forall (fun l => forall ctx ctx',
            visit l ctx = Ok ctx' -> drawing_state ctx' = drawing_state ctx) layers ->
  forall ctx ctx',
    loop_over visit ctx layers = Ok ctx' -> drawing_state ctx' = drawing_state ctx.
Proof.
  induction 1 as [|l layers Hl _ IH]; intros ctx ctx'.
  - by intros [= <-].
  - rewrite loop_over_cons.
    destruct (loop_over visit ctx layers) as [ctx1|e] eqn:Hrest; [|discriminate].
    cbn [mbind Res_bind]. intros Hvisit.
    rewrite (Hl _ _ Hvisit). by apply IH.
Qed.

Lemma renderLayerRaw_state l :
  forall ctx ctx',
    renderLayerRaw env l ctx = Ok ctx' -> drawing_state ctx' = drawing_state ctx.
Proof.
  induction l as [l IHl] using Layer_nested_ind. intros ctx ctx'.
  rewrite renderLayerRaw_eq. destruct (_ || _); [by intros [= <-]|].
  destruct (l_children l) as [cs|].
  - rewrite renderLayersRaw_loop. by apply loop_over_state.
  - apply paintRaw_state.
Qed.

Lemma renderLayerCanvas_state l :
  forall ctx ctx',
    renderLayerCanvas l ctx = Ok ctx' -> drawing_state ctx' = drawing_state ctx.
Proof.
  induction l as [l IHl] using Layer_nested_ind. intros ctx ctx'.
  rewrite renderLayerCanvas_eq. destruct (_ || _); [by intros [= <-]|].
  destruct (l_children l) as [cs|].
  - rewrite renderLayersCanvas_loop. by apply loop_over_state.
  - apply paintCanvas_state.
Qed.

End DrawingState.

(** ** Blend-mode fallback *)

Section Fallback.
Context (visit paint_leaf : Layer -> Ctx -> Res Ctx).
Context (visit_eq : forall l ctx,
  visit l ctx =
  if l_hidden l || l_adjustment l then Ok ctx
  else match l_children l with
       | Some cs => loop_over visit ctx cs
       | None => paint_leaf l ctx
       end).
Context (visit_state : forall l ctx ctx',
  visit l ctx = Ok ctx' -> drawing_state ctx' = drawing_state ctx).
Context (tag : string) (Htag : BLEND_MODE_MAP !! tag = None).
Context (paint_fallback : forall l ctx,
  globalCompositeOperation ctx = SourceOver ->
  paint_leaf (with_blendMode (Some tag) l) ctx =
  paint_leaf (with_blendMode (Some "normal") l) ctx).

Lemma loop_keeps_source_over layers ctx ctx' :
  globalCompositeOperation ctx = SourceOver ->
  loop_over visit ctx layers = Ok ctx' ->
  globalCompositeOperation ctx' = SourceOver.
Proof using visit_state.
  intros Hop Hloop.
  assert (drawing_state ctx' = drawing_state ctx) as [= _ -> _]; [|exact Hop].
  revert Hloop. apply loop_over_state, Forall_forall. intros l _. apply visit_state.
Qed.

(** Two sibling sequences that agree but for one layer paint alike when the
    loop body does the same on the two layers wherever the loop reaches it. *)
Lemma loop_over_insert layers i l l1 l2 ctx :
  layers !! i = Some l ->
  globalCompositeOperation ctx = SourceOver ->
  (forall c, globalCompositeOperation c = SourceOver -> visit l1 c = visit l2 c) ->
  loop_over visit ctx (<[i := l1]> layers) = loop_over visit ctx (<[i := l2]> layers).
Proof using visit_state.
  intros Hl Hop Hsame. apply lookup_lt_Some in Hl.
  rewrite !insert_take_drop by exact Hl.
  rewrite !loop_over_app, !loop_over_cons.
  destruct (loop_over visit ctx (drop (S i) layers)) as [ctx1|e] eqn:Hrest;
    [|reflexivity].
  cbn [mbind Res_bind]. rewrite Hsame; [reflexivity|].
  by apply (loop_keeps_source_over _ _ _ Hop Hrest).
Qed.

Lemma retag_loop path :
  forall layers ctx,
    globalCompositeOperation ctx = SourceOver ->
    loop_over visit ctx (retag_at path (Some tag) layers) =
    loop_over visit ctx (retag_at path (Some "normal") layers).
Proof using visit_eq visit_state paint_fallback.
  induction path as [|i path IH]; intros layers ctx Hop; [reflexivity|].
  destruct path as [|j path].
  - cbn [retag_at]. destruct (layers !! i) as [l|] eqn:Hl; [|reflexivity].
    apply (loop_over_insert _ _ _ _ _ _ Hl Hop). intros c Hc.
    rewrite !visit_eq. cbn [with_blendMode l_hidden l_adjustment l_children].
    destruct (_ || _); [reflexivity|].
    destruct (l_children l); [reflexivity|]. by apply paint_fallback.
  - change (retag_at (i :: j :: path) ?t layers) with
      (match layers !! i with
       | Some l =>
           match l_children l with
           | Some cs => <[i := with_children (Some (retag_at (j :: path) t cs)) l]> layers
           | None => layers
           end
       | None => layers
       end).
    destruct (layers !! i) as [l|] eqn:Hl; [|reflexivity].
    destruct (l_children l) as [cs|]; [|reflexivity].
    apply (loop_over_insert _ _ _ _ _ _ Hl Hop). intros c Hc.
    rewrite !visit_eq. cbn [with_children l_hidden l_adjustment l_children].
    destruct (_ || _); [reflexivity|]. by apply IH.
Qed.

End Fallback.

Lemma paintCanvas_fallback tag :
  BLEND_MODE_MAP !! tag = None ->
  forall l ctx,
    globalCompositeOperation ctx = SourceOver ->
    paintCanvas (with_blendMode (Some tag) l) ctx =
    paintCanvas (with_blendMode (Some "normal") l) ctx.
Proof.
  intros Htag l ctx Hop. unfold paintCanvas.
  cbn [with_blendMode l_canvas l_left l_top].
  destruct (l_canvas l) as [lc|]; [|reflexivity].
  change (layer_alpha (with_blendMode ?t l)) with (layer_alpha l).
  rewrite (blend_mode_fallback_assignment tag l); [reflexivity|exact Htag|].
  unfold set_globalAlpha, save. by destruct (_ && _).
Qed.

Lemma paintRaw_fallback env tag :
  BLEND_MODE_MAP !! tag = None ->
  forall l ctx,
    globalCompositeOperation ctx = SourceOver ->
    paintRaw env (with_blendMode (Some tag) l) ctx =
    paintRaw env (with_blendMode (Some "normal") l) ctx.
Proof.
  intros Htag l ctx Hop. unfold paintRaw.
  cbn [with_blendMode l_imageData l_left l_top].
  destruct (l_imageData l) as [pd|]; [|reflexivity].
  destruct (_ && _); [|reflexivity].
  change (layer_alpha (with_blendMode ?t l)) with (layer_alpha l).
  rewrite (blend_mode_fallback_assignment tag l); [reflexivity|exact Htag|].
  unfold set_globalAlpha, save. by destruct (_ && _).
Qed.

Lemma retag_at_length path tag layers :
  length (retag_at path tag layers) = length layers.
Proof.
  destruct path as [|i [|j path]]; [reflexivity| |].
  - cbn [retag_at]. destruct (layers !! i); [apply length_insert|reflexivity].
  - change (retag_at (i :: j :: path) tag layers) with
      (match layers !! i with
       | Some l =>
           match l_children l with
           | Some cs => <[i := with_children (Some (retag_at (j :: path) tag cs)) l]> layers
           | None => layers
           end
       | None => layers
       end).
    destruct (layers !! i) as [l|]; [|reflexivity].
    destruct (l_children l); [apply length_insert|reflexivity].
Qed.

Lemma nothing_to_composite_retag path tag tag' layers psd :
  nothing_to_composite (psd_with_children (Some (retag_at path tag layers)) psd) =
  nothing_to_composite (psd_with_children (Some (retag_at path tag' layers)) psd).
Proof.
  unfold nothing_to_composite. cbn [psd_with_children psd_width psd_height psd_children].
  pose proof (retag_at_length path tag layers) as H1.
  pose proof (retag_at_length path tag' layers) as H2.
  destruct (retag_at path tag layers), (retag_at path tag' layers), layers;
    simplify_eq/=; reflexivity.
Qed.

(** C5. Let the blend-mode tag of a layer, anywhere in a layer tree, be one
    the table does not hold. Either compositor, started in a context that
    composites source-over, ends exactly as it does when that layer is tagged
    'normal' instead: same painting operations, same error if any. The
    compositing entry points create such a context, so the two documents
    composite to the same canvas. *)
Theorem unrecognized_blend_mode_is_normal env tag :
  BLEND_MODE_MAP !! tag = None ->
  (forall path layers ctx,
     globalCompositeOperation ctx = SourceOver ->
     renderLayersRaw env ctx (retag_at path (Some tag) layers) =
       renderLayersRaw env ctx (retag_at path (Some "normal") layers) /\
     renderLayersCanvas ctx (retag_at path (Some tag) layers) =
       renderLayersCanvas ctx (retag_at path (Some "normal") layers)) /\
  (forall path layers psd,
     compositeRawLayers env
       (psd_with_children (Some (retag_at path (Some tag) layers)) psd) =
     compositeRawLayers env
       (psd_with_children (Some (retag_at path (Some "normal") layers)) psd) /\
     compositeCanvasLayers env
       (psd_with_children (Some (retag_at path (Some tag) layers)) psd) =
     compositeCanvasLayers env
       (psd_with_children (Some (retag_at path (Some "normal") layers)) psd)).
Proof.
  intros Htag.
  assert (Hloops : forall path layers ctx,
     globalCompositeOperation ctx = SourceOver ->
     renderLayersRaw env ctx (retag_at path (Some tag) layers) =
       renderLayersRaw env ctx (retag_at path (Some "normal") layers) /\
     renderLayersCanvas ctx (retag_at path (Some tag) layers) =
       renderLayersCanvas ctx (retag_at path (Some "normal") layers)).
  { intros path layers ctx Hop. split.
    - rewrite !renderLayersRaw_loop.
      apply (retag_loop (renderLayerRaw env) (paintRaw env)); try done.
      + apply renderLayerRaw_eq.
      + apply renderLayerRaw_state.
      + by apply paintRaw_fallback.
    - rewrite !renderLayersCanvas_loop.
      apply (retag_loop renderLayerCanvas paintCanvas); try done.
      + apply renderLayerCanvas_eq.
      + apply renderLayerCanvas_state.
      + by apply paintCanvas_fallback. }
  split; [exact Hloops|].
  intros path layers psd. unfold compositeRawLayers, compositeCanvasLayers.
  rewrite (nothing_to_composite_retag path (Some tag) (Some "normal")).
  destruct (nothing_to_composite _); [done|].
  cbn [psd_with_children psd_width psd_height psd_children default from_option id].
  unfold getContext. destruct (context2d_available env _); [|done].
  destruct (Hloops path layers
              (fresh_context (set_height (psd_height psd)
                                (set_width (psd_width psd) createElement_canvas)))
              eq_refl) as [-> ->].
  done.
Qed.

Lemma unrecognized_blend_mode_is_normal_witness :
  BLEND_MODE_MAP !! "constructor" = None /\
  renderLayersCanvas sample_context
    (retag_at [1; 0]%nat (Some "constructor") [hidden_leaf; group_with_pixels]) =
  renderLayersCanvas sample_context
    (retag_at [1; 0]%nat (Some "normal") [hidden_leaf; group_with_pixels]).
Proof.
  assert (Htag : BLEND_MODE_MAP !! "constructor" = None) by (vm_compute; reflexivity).
  split; [exact Htag|].
  apply (proj1 (unrecognized_blend_mode_is_normal env_rejecting "constructor" Htag)
           [1; 0]%nat [hidden_leaf; group_with_pixels] sample_context).
  reflexivity.
Defined.

(** A tag of some later format version, on the raw-data path: the layer is
    drawn source-over, as a layer tagged 'normal' is. *)
Example future_blend_mode_sample :
  BLEND_MODE_MAP !! "plasma" = None /\
  compositeRawLayers env_rejecting
    (mkPsd 4 4 (Some [with_blendMode (Some "plasma") painted_leaf]) None None)
  = Ok (Some (mkCanvas 4 4
          [DrawImage (mkCanvas 1 1 [PutImageData [x01; x02; x03; x04] 1 1 0 0])
                     (255 / 255)%Q SourceOver 3 0])).
Proof. split; vm_compute; reflexivity. Qed.

(** * Further properties of the compositors *)

Lemma drawImage_added img dx dy ctx ctx' :
  (0 <= globalAlpha ctx)%Q -> (globalAlpha ctx <= 1)%Q ->
  drawImage img dx dy ctx = Ok ctx' ->
  draws_added 1 ctx ctx'.
Proof.
  intros Ha0 Ha1. unfold drawImage.
  destruct (bool_decide (cv_width img = 0)) eqn:Hw; [discriminate|].
  destruct (bool_decide (cv_height img = 0)) eqn:Hh; [discriminate|].
  apply bool_decide_eq_false in Hw, Hh. intros [= <-].
  split_and!; [reflexivity..|]. eexists. split; [reflexivity|].
  split; [|cbn; lia]. constructor; [|constructor]. done.
Qed.

Lemma draws_added_refl n ctx : draws_added n ctx ctx.
Proof.
  split_and!; [reflexivity..|]. exists []. rewrite (right_id_L [] (++)).
  split_and!; [reflexivity|constructor|cbn; lia].
Qed.

Lemma draws_added_trans n m ctx1 ctx2 ctx3 :
  draws_added n ctx1 ctx2 -> draws_added m ctx2 ctx3 ->
  draws_added (n + m) ctx1 ctx3.
Proof.
  intros (Hw1 & Hh1 & ops1 & Ho1 & Hf1 & Hl1) (Hw2 & Hh2 & ops2 & Ho2 & Hf2 & Hl2).
  split_and!; [congruence..|]. exists (ops1 ++ ops2).
  rewrite Ho2, Ho1, (assoc_L (++)). split_and!; [reflexivity| |].
  - by apply Forall_app.
  - rewrite length_app. lia.
Qed.

Lemma draws_added_restore n ctx ctx' :
  draws_added n ctx ctx' -> draws_added n ctx (restore ctx').
Proof.
  unfold draws_added, restore.
  destruct (ctx_saved ctx') as [|[a op] st]; [done|]. done.
Qed.

Lemma set_globalAlpha_range a ctx :
  (0 <= globalAlpha ctx)%Q -> (globalAlpha ctx <= 1)%Q ->
  (0 <= globalAlpha (set_globalAlpha a ctx))%Q /\
  (globalAlpha (set_globalAlpha a ctx) <= 1)%Q.
Proof.
  intros H0 H1. unfold set_globalAlpha.
  destruct (Qle_bool 0 a) eqn:Ha0, (Qle_bool a 1) eqn:Ha1; cbn; try done.
  by apply Qle_bool_iff in Ha0, Ha1.
Qed.

(** The five statements both compositors paint a leaf with. *)
Lemma save_draw_restore_added lc dx dy a v ctx ctx1 :
  (0 <= globalAlpha ctx)%Q -> (globalAlpha ctx <= 1)%Q ->
  drawImage lc dx dy
    (set_globalCompositeOperation v (set_globalAlpha a (save ctx))) = Ok ctx1 ->
  draws_added 1 ctx (restore ctx1).
Proof.
  intros H0 H1 Hdraw. apply draws_added_restore.
  assert (Hrange : (0 <= globalAlpha (set_globalCompositeOperation v
                                        (set_globalAlpha a (save ctx))))%Q /\
                   (globalAlpha (set_globalCompositeOperation v
                                   (set_globalAlpha a (save ctx))) <= 1)%Q).
  { destruct (set_globalAlpha_range a (save ctx) H0 H1) as [? ?].
    by destruct v. }
  destruct Hrange as [Hr0 Hr1].
  pose proof (drawImage_added _ _ _ _ _ Hr0 Hr1 Hdraw) as (Hw & Hh & ops & Hops & Hrest).
  split_and!.
  - rewrite Hw. unfold set_globalAlpha, save. by destruct v, (_ && _).
  - rewrite Hh. unfold set_globalAlpha, save. by destruct v, (_ && _).
  - exists ops. split; [|exact Hrest]. rewrite Hops. f_equal.
    unfold set_globalAlpha, save. by destruct v, (_ && _).
Qed.

Lemma paintCanvas_added l ctx ctx' :
  (0 <= globalAlpha ctx)%Q -> (globalAlpha ctx <= 1)%Q ->
  paintCanvas l ctx = Ok ctx' -> draws_added 1 ctx ctx'.
Proof.
  intros H0 H1. unfold paintCanvas.
  destruct (l_canvas l) as [lc|]; [|intros [= <-]; apply draws_added_refl].
  destruct (drawImage lc _ _ _) as [ctx1|e] eqn:Hdraw; [|discriminate].
  intros [= <-]. by apply save_draw_restore_added in Hdraw.
Qed.

Lemma paintRaw_added env l ctx ctx' :
  (0 <= globalAlpha ctx)%Q -> (globalAlpha ctx <= 1)%Q ->
  paintRaw env l ctx = Ok ctx' -> draws_added 1 ctx ctx'.
Proof.
  intros H0 H1. unfold paintRaw.
  destruct (l_imageData l) as [pd|]; [|intros [= <-]; apply draws_added_refl].
  destruct (_ && _); [|intros [= <-]; apply draws_added_refl].
  destruct (pixelDataToCanvas env pd) as [lc|e]; [|discriminate].
  cbn [mbind Res_bind].
  destruct (drawImage lc _ _ _) as [ctx1|e] eqn:Hdraw; [|discriminate].
  intros [= <-]. by apply save_draw_restore_added in Hdraw.
Qed.

Lemma paint_each_added paint_leaf :
  (forall l ctx ctx',
     paint_leaf l ctx = Ok ctx' -> drawing_state ctx' = drawing_state ctx) ->
  (forall l ctx ctx',
     (0 <= globalAlpha ctx)%Q -> (globalAlpha ctx <= 1)%Q ->
     paint_leaf l ctx = Ok ctx' -> draws_added 1 ctx ctx') ->
  forall ls ctx ctx',
    (0 <= globalAlpha ctx)%Q -> (globalAlpha ctx <= 1)%Q ->
    paint_each paint_leaf ctx ls = Ok ctx' ->
    draws_added (length ls) ctx ctx'.
Proof.
  intros Hstate Hadded ls. induction ls as [|l ls IH]; intros ctx ctx' H0 H1.
  - intros [= <-]. apply draws_added_refl.
  - cbn [paint_each length].
    destruct (paint_leaf l ctx) as [ctx1|e] eqn:Hl; [|discriminate].
    cbn [mbind Res_bind]. intros Hrest.
    pose proof (Hstate _ _ _ Hl) as [= Ha _ _].
    apply (draws_added_trans 1 (length ls) ctx ctx1 ctx'); [by eapply Hadded|].
    apply IH; [by rewrite Ha..|exact Hrest].
Qed.

Lemma renderLayersRaw_added env ctx layers ctx' :
  (0 <= globalAlpha ctx)%Q -> (globalAlpha ctx <= 1)%Q ->
  renderLayersRaw env ctx layers = Ok ctx' ->
  draws_added (length (paint_order layers)) ctx ctx'.
Proof.
  intros H0 H1. rewrite renderLayersRaw_loop,
    (loop_over_paint_order (renderLayerRaw env) (paintRaw env))
    by apply renderLayerRaw_eq.
  apply paint_each_added; [apply paintRaw_state|apply paintRaw_added|done..].
Qed.

Lemma renderLayersCanvas_added ctx layers ctx' :
  (0 <= globalAlpha ctx)%Q -> (globalAlpha ctx <= 1)%Q ->
  renderLayersCanvas ctx layers = Ok ctx' ->
  draws_added (length (paint_order layers)) ctx ctx'.
Proof.
  intros H0 H1. rewrite renderLayersCanvas_loop,
    (loop_over_paint_order renderLayerCanvas paintCanvas)
    by apply renderLayerCanvas_eq.
  apply paint_each_added; [apply paintCanvas_state|apply paintCanvas_added|done..].
Qed.

(** X1. A compositor that returns leaves the drawing state of the context
    as it found it: [globalAlpha], [globalCompositeOperation] and the stack
    of saved states. Every [save] is matched by its [restore]. *)
Theorem compositors_restore_drawing_state env ctx layers ctx' :
  renderLayersRaw env ctx layers = Ok ctx' \/
  renderLayersCanvas ctx layers = Ok ctx' ->
  globalAlpha ctx' = globalAlpha ctx /\
  globalCompositeOperation ctx' = globalCompositeOperation ctx /\
  ctx_saved ctx' = ctx_saved ctx.
Proof.
  intros Hrun.
  assert (drawing_state ctx' = drawing_state ctx) as [= -> -> ->]; [|done].
  destruct Hrun as [Hrun|Hrun]; revert Hrun.
  - rewrite renderLayersRaw_loop. apply loop_over_state, Forall_forall.
    intros l _. apply renderLayerRaw_state.
  - rewrite renderLayersCanvas_loop. apply loop_over_state, Forall_forall.
    intros l _. apply renderLayerCanvas_state.
Qed.

Lemma compositors_restore_drawing_state_witness :
  match renderLayersCanvas sample_context [painted_leaf; group_with_pixels] with
  | Ok ctx' =>
      globalAlpha ctx' = globalAlpha sample_context /\
      globalCompositeOperation ctx' = globalCompositeOperation sample_context /\
      ctx_saved ctx' = ctx_saved sample_context
  | Throw _ => False
  end.
Proof.
  destruct (renderLayersCanvas sample_context [painted_leaf; group_with_pixels])
    as [ctx'|e] eqn:Hrun.
  - exact (compositors_restore_drawing_state env_rejecting sample_context
             [painted_leaf; group_with_pixels] ctx' (or_intror Hrun)).
  - vm_compute in Hrun. discriminate Hrun.
Defined.

(** X2. A compositor that returns has only added to the canvas: its width
    and height are unchanged, what was painted before is still there, in
    front, and what was added are [drawImage] operations only, each of a
    source with both dimensions and at an alpha between 0 and 1 (whatever
    the opacity of the layer), at most one for each layer of [paint_order]. *)
Theorem compositors_add_layer_draws env ctx layers ctx' :
  (0 <= globalAlpha ctx)%Q -> (globalAlpha ctx <= 1)%Q ->
  renderLayersRaw env ctx layers = Ok ctx' \/
  renderLayersCanvas ctx layers = Ok ctx' ->
  draws_added (length (paint_order layers)) ctx ctx'.
Proof.
  intros H0 H1 [Hrun|Hrun].
  - by apply (renderLayersRaw_added env).
  - by apply renderLayersCanvas_added.
Qed.

Lemma compositors_add_layer_draws_witness :
  match renderLayersRaw env_rejecting sample_context
          [painted_leaf; hidden_leaf; group_with_pixels] with
  | Ok ctx' => draws_added 2 sample_context ctx'
  | Throw _ => False
  end.
Proof.
  assert (H0 : (0 <= globalAlpha sample_context)%Q) by (vm_compute; discriminate).
  assert (H1 : (globalAlpha sample_context <= 1)%Q) by (vm_compute; discriminate).
  destruct (renderLayersRaw env_rejecting sample_context
              [painted_leaf; hidden_leaf; group_with_pixels])
    as [ctx'|e] eqn:Hrun.
  - exact (compositors_add_layer_draws env_rejecting sample_context
             [painted_leaf; hidden_leaf; group_with_pixels] ctx' H0 H1
             (or_introl Hrun)).
  - vm_compute in Hrun. discriminate Hrun.
Defined.

Lemma paintRaw_cases env l ctx :
  pixels_in_canvas_range l ->
  (wants_too_much env l /\ paintRaw env l ctx = Throw RangeError) \/
  (~ wants_too_much env l /\ exists ctx', paintRaw env l ctx = Ok ctx').
Proof.
  unfold pixels_in_canvas_range, wants_too_much, paintRaw.
  destruct (l_imageData l) as [pd|]; [|right; split; [tauto|eauto]].
  intros [Hw Hh].
  destruct (bool_decide (0 < pd_width pd)) eqn:Hw0;
    [apply bool_decide_eq_true in Hw0
    |apply bool_decide_eq_false in Hw0; right; split; [tauto|cbn; eauto]].
  destruct (bool_decide (0 < pd_height pd)) eqn:Hh0;
    [apply bool_decide_eq_true in Hh0
    |apply bool_decide_eq_false in Hh0; right; split; [tauto|cbn; eauto]].
  cbn [andb]. rewrite pixelDataToCanvas_run by lia.
  assert (Hdraw : forall ops, exists ctx',
            (lc ← Ok (mkCanvas (pd_width pd) (pd_height pd) ops);
             ctx0 ← drawImage lc (or_zero (l_left l)) (or_zero (l_top l))
                      (set_globalCompositeOperation
                         (or_source_over (BLEND_MODE_MAP_get (blendMode_or_normal l)))
                         (set_globalAlpha (layer_alpha l) (save ctx)));
             mret (restore ctx0)) = Ok ctx').
  { intros ops. cbn [mbind Res_bind]. unfold drawImage. cbn [cv_width cv_height].
    rewrite !bool_decide_eq_false_2 by lia. cbn [orb mbind Res_bind]. eauto. }
  destruct (context2d_available env _) eqn:Hctx; cbn [andb];
    [|right; split; [intros (_ & _ & _ & ? & _); discriminate|apply Hdraw]].
  destruct (bool_decide (0 < pa_length (pd_data pd))) eqn:Hdata;
    [apply bool_decide_eq_true in Hdata
    |apply bool_decide_eq_false in Hdata; right; split; [tauto|apply Hdraw]].
  destruct (bool_decide _ && allocates env _) eqn:Halloc.
  - right. split; [|apply Hdraw].
    intros (_ & _ & _ & _ & Hno). apply Hno.
    apply andb_true_iff in Halloc as [Hn%bool_decide_eq_true Ha]. by split.
  - left. split; [|reflexivity]. split_and!; try done.
    intros Hyes. by rewrite (allocatable_true _ _ Hyes) in Halloc.
Qed.

(** X3. On layers whose pixel records have dimensions within the canvas
    range, the raw-data compositor throws exactly when one of the layers it
    is to paint wants a buffer the engine does not give, and then what it
    throws is the [RangeError] of the typed-array constructor: one such
    layer costs the whole composite. Otherwise neither the conversion of a
    record to a canvas nor the drawing of that canvas fails, whatever the
    length of the data, the opacity, the blend mode or the offsets, and
    [compositeRawLayers] returns, with a canvas or with [null]. *)
Theorem raw_compositor_throws_iff env :
  (forall ctx layers,
     Forall pixels_in_canvas_range (paint_order layers) ->
     (Exists (wants_too_much env) (paint_order layers) ->
      renderLayersRaw env ctx layers = Throw RangeError) /\
     (~ Exists (wants_too_much env) (paint_order layers) ->
      exists ctx', renderLayersRaw env ctx layers = Ok ctx')) /\
  (forall psd,
     Forall pixels_in_canvas_range (paint_order (default [] (psd_children psd))) ->
     ~ Exists (wants_too_much env) (paint_order (default [] (psd_children psd))) ->
     exists r, compositeRawLayers env psd = Ok r).
Proof.
  assert (Hloop : forall ctx layers,
     Forall pixels_in_canvas_range (paint_order layers) ->
     (Exists (wants_too_much env) (paint_order layers) ->
      renderLayersRaw env ctx layers = Throw RangeError) /\
     (~ Exists (wants_too_much env) (paint_order layers) ->
      exists ctx', renderLayersRaw env ctx layers = Ok ctx')).
  { intros ctx layers. rewrite renderLayersRaw_loop,
      (loop_over_paint_order (renderLayerRaw env) (paintRaw env))
      by apply renderLayerRaw_eq.
    generalize (paint_order layers). intros ls Hls. revert ctx.
    induction Hls as [|l ls Hl _ IH]; intros ctx.
    - split; [intros H; inversion H | cbn; eauto].
    - cbn [paint_each].
      destruct (paintRaw_cases env l ctx Hl) as [[Hbig ->]|[Hfits [ctx1 ->]]].
      + split; [reflexivity|]. intros Hno. exfalso. apply Hno. by left.
      + cbn [mbind Res_bind]. destruct (IH ctx1) as [IHt IHo]. split.
        * intros [?|?]%Exists_cons; [tauto|auto].
        * intros Hno. apply IHo. intros H. apply Hno. by right. }
  split; [exact Hloop|]. intros psd Hpsd Hno. unfold compositeRawLayers.
  destruct (nothing_to_composite psd); [cbn; eauto|].
  destruct (getContext env _) as [ctx|]; [|cbn; eauto].
  destruct (proj2 (Hloop ctx _ Hpsd) Hno) as [ctx' ->]. cbn. eauto.
Qed.

Lemma raw_compositor_throws_iff_witness :
  Forall pixels_in_canvas_range
    (paint_order [painted_leaf; with_pixels (Some huge_pixels) None painted_leaf]) /\
  renderLayersRaw env_rejecting sample_context
    [painted_leaf; with_pixels (Some huge_pixels) None painted_leaf]
  = Throw RangeError /\
  exists ctx',
    renderLayersRaw env_rejecting sample_context [painted_leaf; group_with_pixels]
    = Ok ctx'.
Proof.
  assert (H : Forall pixels_in_canvas_range
                (paint_order [painted_leaf;
                              with_pixels (Some huge_pixels) None painted_leaf])).
  { repeat constructor; cbn; discriminate. }
  assert (H' : Forall pixels_in_canvas_range
                 (paint_order [painted_leaf; group_with_pixels])).
  { repeat constructor; cbn; discriminate. }
  split; [exact H|]. split.
  - apply (proj1 (proj1 (raw_compositor_throws_iff env_rejecting) sample_context _ H)).
    left. cbn. split_and!; try reflexivity.
    intros [Hn _]. vm_compute in Hn. congruence.
  - apply (proj2 (proj1 (raw_compositor_throws_iff env_rejecting) sample_context _ H')).
    intros Hex. apply Exists_exists in Hex as (l & Hin & Hl).
    repeat (apply elem_of_cons in Hin as [->|Hin]);
      [| |by apply elem_of_nil in Hin];
      destruct Hl as (_ & _ & _ & _ & Hno); apply Hno;
      (split; [vm_compute; congruence|reflexivity]).
Defined.

Lemma paintCanvas_cases l ctx :
  (has_empty_canvas l /\ paintCanvas l ctx = Throw InvalidStateError) \/
  (~ has_empty_canvas l /\ exists ctx', paintCanvas l ctx = Ok ctx').
Proof.
  unfold has_empty_canvas, paintCanvas.
  destruct (l_canvas l) as [lc|]; [|right; split; [tauto|eauto]].
  unfold drawImage.
  destruct (bool_decide (cv_width lc = 0)) eqn:Hw.
  { apply bool_decide_eq_true in Hw. left. auto. }
  destruct (bool_decide (cv_height lc = 0)) eqn:Hh.
  { apply bool_decide_eq_true in Hh. left. auto. }
  apply bool_decide_eq_false in Hw, Hh. right. split; [tauto|]. cbn. eauto.
Qed.

(** X4. The canvas compositor throws exactly when one of the layers it is
    to paint carries a canvas without width or without height, and then
    what it throws is the [InvalidStateError] of [drawImage]: one such layer
    costs the whole composite. Layers that are not painted (hidden,
    adjustment, below such a layer, groups) cannot make it fail. *)
Theorem canvas_compositor_throws_iff ctx layers :
  (Exists has_empty_canvas (paint_order layers) ->
   renderLayersCanvas ctx layers = Throw InvalidStateError) /\
  (~ Exists has_empty_canvas (paint_order layers) ->
   exists ctx', renderLayersCanvas ctx layers = Ok ctx').
Proof.
  rewrite renderLayersCanvas_loop,
    (loop_over_paint_order renderLayerCanvas paintCanvas)
    by apply renderLayerCanvas_eq.
  generalize (paint_order layers). intros ls. revert ctx.
  induction ls as [|l ls IH]; intros ctx.
  - split; [intros H; inversion H | cbn; eauto].
  - cbn [paint_each].
    destruct (paintCanvas_cases l ctx) as [[Hl ->]|[Hl [ctx1 ->]]].
    + split; [reflexivity|]. intros Hno. exfalso. apply Hno. by left.
    + cbn [mbind Res_bind]. destruct (IH ctx1) as [IHt IHo]. split.
      * intros [?|?]%Exists_cons; [tauto|auto].
      * intros Hno. apply IHo. intros H. apply Hno. by right.
Qed.

Lemma canvas_compositor_throws_iff_witness :
  Exists has_empty_canvas
    (paint_order [painted_leaf; with_pixels None (Some (mkCanvas 0 5 [])) painted_leaf]) /\
  renderLayersCanvas sample_context
    [painted_leaf; with_pixels None (Some (mkCanvas 0 5 [])) painted_leaf]
  = Throw InvalidStateError.
Proof.
  assert (H : Exists has_empty_canvas
    (paint_order [painted_leaf; with_pixels None (Some (mkCanvas 0 5 [])) painted_leaf])).
  { left. left. reflexivity. }
  split; [exact H|].
  exact (proj1 (canvas_compositor_throws_iff sample_context _) H).
Defined.

Lemma nothing_to_composite_false psd :
  nothing_to_composite psd = false ->
  psd_width psd <> 0 /\ psd_height psd <> 0 /\
  exists l ls, psd_children psd = Some (l :: ls).
Proof.
  unfold nothing_to_composite.
  destruct (bool_decide (psd_width psd = 0)) eqn:Hw; [discriminate|].
  destruct (bool_decide (psd_height psd = 0)) eqn:Hh; [discriminate|].
  apply bool_decide_eq_false in Hw, Hh.
  destruct (psd_children psd) as [[|l ls]|]; try discriminate. eauto.
Qed.

(** X5. The two compositing entry points answer [null], without creating a
    context or throwing, for a document without width, without height or
    without layers. A canvas they return has the width and height of the
    document (dimensions within the canvas range) and holds nothing but
    layer draws, at most one for each layer of [paint_order]. *)
Theorem composite_canvas_of_document env psd :
  (psd_width psd = 0 \/ psd_height psd = 0 \/
   psd_children psd = None \/ psd_children psd = Some [] ->
   compositeRawLayers env psd = Ok None /\
   compositeCanvasLayers env psd = Ok None) /\
  (forall c,
     compositeRawLayers env psd = Ok (Some c) \/
     compositeCanvasLayers env psd = Ok (Some c) ->
     psd_width psd <> 0 /\ psd_height psd <> 0 /\
     (exists l ls, psd_children psd = Some (l :: ls)) /\
     (0 <= psd_width psd <= 2147483647 -> cv_width c = psd_width psd) /\
     (0 <= psd_height psd <= 2147483647 -> cv_height c = psd_height psd) /\
     Forall is_layer_draw (cv_ops c) /\
     (length (cv_ops c) <= length (paint_order (default [] (psd_children psd))))%nat).
Proof.
  split.
  - intros Hnothing.
    assert (nothing_to_composite psd = true) as Hn.
    { unfold nothing_to_composite.
      destruct Hnothing as [->|[->|[->| ->]]];
        rewrite ?bool_decide_eq_true_2 by reflexivity;
        rewrite ?orb_true_r; reflexivity. }
    unfold compositeRawLayers, compositeCanvasLayers. by rewrite Hn.
  - intros c Hc.
    assert (nothing_to_composite psd = false /\
            exists ctx',
              (renderLayersRaw env
                 (fresh_context (set_height (psd_height psd)
                                   (set_width (psd_width psd) createElement_canvas)))
                 (default [] (psd_children psd)) = Ok ctx' \/
               renderLayersCanvas
                 (fresh_context (set_height (psd_height psd)
                                   (set_width (psd_width psd) createElement_canvas)))
                 (default [] (psd_children psd)) = Ok ctx') /\
              c = ctx_canvas ctx') as (Hn & ctx' & Hrun & ->).
    { unfold compositeRawLayers, compositeCanvasLayers, getContext in Hc.
      destruct (nothing_to_composite psd); [by destruct Hc|].
      split; [reflexivity|].
      destruct (context2d_available env _); [|by destruct Hc].
      destruct Hc as [Hc|Hc].
      - destruct (renderLayersRaw env _ _) as [ctx'|e] eqn:Hrun; [|discriminate].
        injection Hc as <-. eauto.
      - destruct (renderLayersCanvas _ _) as [ctx'|e] eqn:Hrun; [|discriminate].
        injection Hc as <-. eauto. }
    apply nothing_to_composite_false in Hn as (Hw & Hh & Hcs).
    assert (draws_added (length (paint_order (default [] (psd_children psd))))
              (fresh_context (set_height (psd_height psd)
                                (set_width (psd_width psd) createElement_canvas)))
              ctx') as (Hcw & Hch & ops & Hops & Hdraws & Hlen).
    { destruct Hrun as [Hrun|Hrun];
        [apply (renderLayersRaw_added env) in Hrun|
         apply renderLayersCanvas_added in Hrun]; done. }
    cbn [fresh_context ctx_canvas set_height set_width cv_width cv_height cv_ops
         createElement_canvas] in Hcw, Hch, Hops.
    split_and!; try done.
    + intros Hr. by rewrite Hcw, reflect_unsigned_long_id.
    + intros Hr. by rewrite Hch, reflect_unsigned_long_id.
    + by rewrite Hops.
    + by rewrite Hops.
Qed.

Lemma composite_canvas_of_document_witness :
  compositeRawLayers env_rejecting (mkPsd 0 7 (Some [painted_leaf]) None None) = Ok None /\
  match compositeCanvasLayers env_rejecting
          (mkPsd 4 4 (Some [painted_leaf; hidden_leaf]) None None) with
  | Ok (Some c) => cv_width c = 4 /\ cv_height c = 4 /\ Forall is_layer_draw (cv_ops c)
  | _ => False
  end.
Proof.
  split.
  - apply (proj1 (composite_canvas_of_document env_rejecting
                    (mkPsd 0 7 (Some [painted_leaf]) None None))).
    left. reflexivity.
  - destruct (compositeCanvasLayers env_rejecting
                (mkPsd 4 4 (Some [painted_leaf; hidden_leaf]) None None))
      as [[c|]|e] eqn:Hrun;
      [|vm_compute in Hrun; discriminate Hrun..].
    destruct (proj2 (composite_canvas_of_document env_rejecting
                       (mkPsd 4 4 (Some [painted_leaf; hidden_leaf]) None None))
                c (or_intror Hrun))
      as (_ & _ & _ & Hw & Hh & Hdraws & _).
    split_and!; [apply Hw|apply Hh|exact Hdraws]; cbn; lia.
Defined.

(** * Further properties of the pipeline *)

Section ConsoleFacts.
Context (env : Platform).

Lemma stage_warning_eq s buffer :
  stage_warning env s buffer =
  match stage_label s,
        snd (readPsd env buffer (stage_options s)) ≫= stage_render env s with
  | Some label, Throw e => Some (label, err_message e)
  | _, _ => None
  end.
Proof. unfold stage_warning. rewrite stage_body_run. reflexivity. Qed.

(** What one attempt adds to the trace: its parse, then its warning if any. *)
Lemma attempt_events s w :
  attempt env s w =
  (mkWorld (fst (readPsd env (w_buffer w) (stage_options s)))
           (w_trace w ++ EvReadPsd (stage_options s) ::
              match stage_warning env s (w_buffer w) with
              | Some (label, message) => [EvWarn label message]
              | None => []
              end),
   Ok (stage_surface env s (w_buffer w))).
Proof.
  unfold attempt, try_catch.
  rewrite stage_body_run, stage_surface_eq, stage_warning_eq.
  destruct (snd (readPsd env _ _) ≫= stage_render env s) as [[r|]|e].
  - by destruct (stage_label s).
  - by destruct (stage_label s).
  - destruct s; cbn [stage_catch stage_label];
      unfold catch_raw_data, catch_high_fidelity, catch_safe_mode,
             catch_composite, console_warn, mbind, M_bind, mret, M_ret;
      cbn [w_buffer w_trace]; rewrite <- ?(assoc_L (++)); reflexivity.
Qed.

Context (Hro : parser_read_only env).

Lemma cascade_trace stages w :
  exists evs,
    w_trace (fst (cascade env stages w)) = w_trace w ++ evs /\
    parses evs = stage_options <$> stages_attempted env stages (w_buffer w) /\
    warnings evs =
      omap (fun s => stage_warning env s (w_buffer w))
           (stages_attempted env stages (w_buffer w)).
Proof using Hro.
  revert w. induction stages as [|s rest IH]; intros w.
  - exists []. by rewrite (right_id_L [] (++)).
  - cbn [cascade stages_attempted]. unfold mbind, M_bind.
    rewrite attempt_events, Hro.
    destruct (stage_surface env s (w_buffer w)) as [r|].
    + eexists. cbn [fst w_trace]. split; [reflexivity|].
      unfold warnings. cbn [omap list_omap].
      destruct (stage_warning env s (w_buffer w)) as [[label message]|];
        split; reflexivity.
    + match goal with |- context [cascade env rest ?w1] =>
        destruct (IH w1) as (evs & Htrace & Hparses & Hwarn)
      end.
      cbn [w_buffer w_trace] in *. rewrite Htrace, <- (assoc_L (++)).
      eexists. split; [reflexivity|].
      unfold parses, warnings in *. cbn [omap list_omap app fmap list_fmap].
      rewrite !omap_app, Hparses, Hwarn.
      destruct (stage_warning env s (w_buffer w)) as [[label message]|];
        split; reflexivity.
Qed.

End ConsoleFacts.

(** X6. What a run on an accepted buffer writes to the console (parser
    leaving the buffer alone): one warning for each attempted stage that
    threw and is not the raw-data stage, carrying the number of the stage
    and the message of what it threw, in the order of the stages. A failure
    of the raw-data stage is never reported, nor is a stage that parsed but
    found no surface; so at most three warnings, and none at all when the
    raw-data stage yields the surface. *)
Theorem console_warnings_of_run env file w :
  parser_read_only env ->
  signature_error file = None ->
  exists evs,
    w_trace (fst (renderPSDToCanvas env (Ok file) w)) = w_trace w ++ evs /\
    warnings evs =
      omap (fun s => stage_warning env s file)
           (stages_attempted env all_stages file) /\
    (length (warnings evs) <= 3)%nat /\
    (is_Some (stage_surface env RawData file) -> warnings evs = []).
Proof.
  intros Hro Hsig. rewrite renderPSDToCanvas_renderBuffer, renderBuffer_cascade.
  unfold mbind, M_bind. rewrite validate_signature_run. cbn [w_buffer]. rewrite Hsig.
  destruct (cascade_trace env Hro all_stages (mkWorld file (w_trace w)))
    as (evs & Htrace & _ & Hwarn).
  cbn [w_buffer w_trace] in *. exists evs. split; [exact Htrace|].
  split; [exact Hwarn|]. rewrite Hwarn. split.
  - unfold all_stages. cbn [stages_attempted].
    destruct (stage_surface env RawData file),
             (stage_surface env HighFidelity file),
             (stage_surface env SafeMode file),
             (stage_surface env Composite file);
      cbn [omap list_omap]; unfold stage_warning at 1; cbn [stage_label];
      repeat match goal with
             | |- context [stage_warning env ?s file] =>
                 destruct (stage_warning env s file)
             end; cbn [length]; lia.
  - intros [r Hr]. unfold all_stages. cbn [stages_attempted]. rewrite Hr.
    reflexivity.
Qed.

Lemma console_warnings_of_run_witness :
  parser_read_only env_composite_only /\
  signature_error sample_psd_file = None /\
  exists evs,
    w_trace (fst (renderPSDToCanvas env_composite_only (Ok sample_psd_file) empty_world))
      = w_trace empty_world ++ evs /\
    warnings evs =
      omap (fun s => stage_warning env_composite_only s sample_psd_file)
           (stages_attempted env_composite_only all_stages sample_psd_file) /\
    (length (warnings evs) <= 3)%nat /\
    (is_Some (stage_surface env_composite_only RawData sample_psd_file) ->
     warnings evs = []).
Proof.
  assert (Hro : parser_read_only env_composite_only) by (intros ? ?; reflexivity).
  split; [exact Hro|]. split; [reflexivity|].
  exact (console_warnings_of_run env_composite_only sample_psd_file empty_world
           Hro eq_refl).
Defined.

Example console_sample :
  warnings (w_trace (fst (renderPSDToCanvas env_composite_only (Ok sample_psd_file)
                            empty_world)))
  = [("[PSD] Stage 1 failed:", "Invalid blend mode");
     ("[PSD] Stage 2 failed:", "Invalid blend mode")].
Proof. reflexivity. Qed.

(** * Properties of the export functions *)

Lemma split_on_cons sep s : exists piece pieces, split_on sep s = piece :: pieces.
Proof.
  destruct s as [|c s]; cbn [split_on]; [eauto|].
  destruct (Ascii.eqb c sep); [eauto|].
  destruct (split_on sep s); eauto.
Qed.

Lemma append_String c s t : String c s +:+ t = String c (s +:+ t).
Proof. reflexivity. Qed.

Lemma append_Empty t : EmptyString +:+ t = t.
Proof. reflexivity. Qed.

Lemma has_char_append c s t :
  has_char c (s +:+ t) = has_char c s || has_char c t.
Proof.
  induction s as [|c' s IH]; [reflexivity|].
  rewrite append_String. cbn [has_char]. rewrite IH. apply orb_assoc.
Qed.

Lemma count_char_append c s t :
  count_char c (s +:+ t) = (count_char c s + count_char c t)%nat.
Proof.
  induction s as [|c' s IH]; [reflexivity|].
  rewrite append_String. cbn [count_char]. rewrite IH. lia.
Qed.

Lemma count_char_none c s : has_char c s = false -> count_char c s = 0%nat.
Proof.
  induction s as [|c' s IH]; cbn; [reflexivity|].
  destruct (Ascii.eqb c' c); cbn; [discriminate|exact IH].
Qed.

(** The first piece of a split: it is free of the separator, and the string
    is that piece alone or that piece, a separator and a remainder. *)
Lemma split_on_first sep s :
  exists piece pieces,
    split_on sep s = piece :: pieces /\
    has_char sep piece = false /\
    (s = piece \/ exists rest, s = piece +:+ String sep rest).
Proof.
  induction s as [|c s (piece & pieces & Hs & Hfree & Hshape)]; cbn [split_on].
  - exists EmptyString, []. auto.
  - destruct (Ascii.eqb c sep) eqn:Hc.
    + apply Ascii.eqb_eq in Hc as ->. exists EmptyString, (split_on sep s).
      split_and!; [reflexivity..|]. right. by exists s.
    + rewrite Hs. exists (String c piece), pieces.
      split_and!; [reflexivity|cbn; by rewrite Hc|].
      destruct Hshape as [->|[rest ->]]; [by left|right; by exists rest].
Qed.

Lemma split_on_first_free sep base rest :
  has_char sep base = false ->
  template_index (split_on sep base) 0 = base /\
  template_index (split_on sep (base +:+ String sep rest)) 0 = base.
Proof.
  induction base as [|c base IH]; cbn [has_char].
  - intros _. rewrite append_Empty. cbn [split_on]. by rewrite Ascii.eqb_refl.
  - destruct (Ascii.eqb c sep) eqn:Hc; [discriminate|]. cbn [orb].
    intros Hfree. destruct (IH Hfree) as [IH1 IH2].
    rewrite append_String. cbn [split_on]. rewrite Hc.
    destruct (split_on_cons sep base) as (p1 & ps1 & H1).
    destruct (split_on_cons sep (base +:+ String sep rest)) as (p2 & ps2 & H2).
    rewrite H1, H2 in *. unfold template_index in *. cbn in *. by subst.
Qed.

Lemma before_first_dot_spec name :
  has_char dot (before_first_dot name) = false /\
  (name = before_first_dot name \/
   exists rest, name = before_first_dot name +:+ String dot rest).
Proof.
  unfold before_first_dot.
  destruct (split_on_first dot name) as (piece & pieces & -> & Hfree & Hshape).
  done.
Qed.

Lemma export_name_of_base ext base rest :
  has_char dot base = false ->
  export_name ext base = base +:+ "." +:+ ext /\
  export_name ext (base +:+ String dot rest) = base +:+ "." +:+ ext.
Proof.
  intros Hfree. unfold export_name, before_first_dot.
  destruct (split_on_first_free dot base rest Hfree) as [-> ->]. done.
Qed.

Lemma export_name_idempotent ext name :
  export_name ext (export_name ext name) = export_name ext name.
Proof.
  destruct (before_first_dot_spec name) as [Hfree _].
  unfold export_name at 2.
  apply (export_name_of_base ext (before_first_dot name) ext Hfree).
Qed.

Lemma image_download_facts penv c format fileName href download :
  EvAnchorClick href download ∈ exportCanvasAsImage penv c format fileName ->
  download = export_name (image_extension format) fileName.
Proof.
  unfold exportCanvasAsImage.
  destruct (toBlob penv c _ _) as [blob|]; [|by intros ?%elem_of_nil].
  unfold download_blob. intros Hin.
  repeat (apply elem_of_cons in Hin as [Hin|Hin]); try discriminate;
    [|by apply elem_of_nil in Hin].
  by injection Hin as _ ->.
Qed.

(** X7. When the canvas is encoded, [exportCanvasAsImage] offers exactly
    one download: an object URL is made for the encoded image, an anchor on
    it is clicked, and the URL is revoked. The name of the download is the
    part of the file name before its first dot, then [.png] or [.jpg]: it
    holds exactly one dot. All that follows the first dot of the file name
    is dropped, so two file names that agree up to there are exported under
    one and the same name, and exporting under an exported name changes
    nothing. When the canvas cannot be encoded nothing reaches the DOM. *)
Theorem exported_image_name penv c format fileName :
  (toBlob penv c (image_mime format) (95 # 100)%Q = None ->
   exportCanvasAsImage penv c format fileName = []) /\
  (forall blob,
     toBlob penv c (image_mime format) (95 # 100)%Q = Some blob ->
     let url := createObjectURL penv blob (image_mime format) in
     let download := export_name (image_extension format) fileName in
     exportCanvasAsImage penv c format fileName
     = [EvCreateObjectURL blob (image_mime format) url;
        EvAnchorClick url download; EvRevokeObjectURL url] /\
     count_char dot download = 1%nat /\
     has_char dot (before_first_dot fileName) = false /\
     (fileName = before_first_dot fileName \/
      exists rest, fileName = before_first_dot fileName +:+ String dot rest)) /\
  (forall href download,
     EvAnchorClick href download ∈ exportCanvasAsImage penv c format fileName ->
     download = export_name (image_extension format) fileName) /\
  (forall base rest rest',
     has_char dot base = false ->
     exportCanvasAsImage penv c format (base +:+ String dot rest) =
     exportCanvasAsImage penv c format (base +:+ String dot rest')) /\
  exportCanvasAsImage penv c format
    (export_name (image_extension format) fileName)
  = exportCanvasAsImage penv c format fileName.
Proof.
  split_and!.
  - intros Hnull. unfold exportCanvasAsImage. by rewrite Hnull.
  - intros blob Hblob url download. unfold exportCanvasAsImage. rewrite Hblob.
    destruct (before_first_dot_spec fileName) as [Hfree Hshape].
    split_and!; [reflexivity| |exact Hfree|exact Hshape].
    unfold download, export_name.
    rewrite !count_char_append, (count_char_none _ _ Hfree).
    by destruct format.
  - intros href download. unfold exportCanvasAsImage.
    destruct (toBlob penv c _ _) as [blob|]; [|by intros ?%elem_of_nil].
    unfold download_blob.
    intros Hin. repeat (apply elem_of_cons in Hin as [Hin|Hin]); try discriminate;
      [|by apply elem_of_nil in Hin].
    by injection Hin as _ ->.
  - intros base rest rest' Hfree. unfold exportCanvasAsImage.
    destruct (export_name_of_base (image_extension format) base rest Hfree) as [_ ->].
    destruct (export_name_of_base (image_extension format) base rest' Hfree) as [_ ->].
    reflexivity.
  - unfold exportCanvasAsImage. by rewrite export_name_idempotent.
Qed.

Lemma exported_image_name_witness :
  toBlob penv_failing (mkCanvas 2 1 []) (image_mime FormatPng) (95 # 100)%Q = None /\
  exportCanvasAsImage penv_failing (mkCanvas 2 1 []) FormatPng "poster.final.psd" = [] /\
  toBlob penv_encoding (mkCanvas 2 1 []) (image_mime FormatJpg) (95 # 100)%Q
  = Some [x89; x50] /\
  exportCanvasAsImage penv_encoding (mkCanvas 2 1 []) FormatJpg "poster.final.psd"
  = [EvCreateObjectURL [x89; x50] "image/jpeg" "blob:1";
     EvAnchorClick "blob:1" "poster.jpg"; EvRevokeObjectURL "blob:1"] /\
  exportCanvasAsImage penv_encoding (mkCanvas 2 1 []) FormatJpg ("poster" +:+ String dot "v1.psd")
  = exportCanvasAsImage penv_encoding (mkCanvas 2 1 []) FormatJpg ("poster" +:+ String dot "v2.psd").
Proof.
  pose proof (exported_image_name penv_failing (mkCanvas 2 1 []) FormatPng
                "poster.final.psd") as (Hnull & _).
  pose proof (exported_image_name penv_encoding (mkCanvas 2 1 []) FormatJpg
                "poster.final.psd") as (_ & Hblob & _ & Hsame & _).
  split; [reflexivity|]. split; [apply Hnull; reflexivity|].
  split; [reflexivity|]. split.
  - exact (proj1 (Hblob [x89; x50] eq_refl)).
  - apply (Hsame "poster" "v1.psd" "v2.psd"). reflexivity.
Defined.

Example export_name_samples :
  export_name "png" "poster.final.psd" = "poster.png" /\
  export_name "jpg" "poster" = "poster.jpg" /\
  export_name "pdf" ".hidden.psd" = ".pdf" /\
  split_on dot "a.b..c" = ["a"; "b"; EmptyString; "c"].
Proof. repeat split; reflexivity. Qed.

(** * Properties of the viewer *)

Lemma render_error_is_own env file w w' e :
  renderPSDToCanvas env (Ok file) w = (w', Throw e) ->
  e = Error PDF_MESSAGE \/ e = Error NOT_PSD_MESSAGE \/ e = Error UNSUPPORTED_MESSAGE.
Proof.
  rewrite renderPSDToCanvas_renderBuffer.
  destruct (renderBuffer_run env (mkWorld file (w_trace w)))
    as (buffer' & evs & -> & _). cbn [w_buffer].
  destruct (signature_error file) as [msg|] eqn:Hsig.
  - intros [= _ <-]. apply signature_error_cases in Hsig as [->| ->]; auto.
  - destruct (first_surface_threaded env all_stages file) as [[s r]|];
      [discriminate|]. intros [= _ <-]. auto.
Qed.

(** X8. [handleFileSelect] on the files the upload control hands over
    always ends with [isProcessing] off. When the first file renders, it is
    the source file, the result is kept, the zoom is the fit of the canvas
    into the container less 160 pixels each way (or untouched without a
    container) and no toast is shown. When it does not, source file and
    result are both cleared, the zoom is untouched, and exactly one toast is
    shown, a destructive "Load Error". If the file could be read, its text
    is the message of the pipeline: the wrong-tool text, the invalid-file
    text or the advice to save with maximum compatibility, never the
    fallback text of the handler. If the file could not be read, nothing
    was parsed and the text is the message of the exception of the read, or
    the fallback text when that has none. Files after the first are
    ignored. *)
Theorem handleFileSelect_outcome env venv container file files
    (st : ViewerState (Number venv)) w :
  let read := File_arrayBuffer venv file in
  let '(st', toasts, w') :=
    handleFileSelect env venv container (file :: files) st w in
  isProcessing st' = false /\
  isFullscreen st' = isFullscreen st /\
  w' = fst (renderPSDToCanvas env read w) /\
  match snd (renderPSDToCanvas env read w) with
  | Ok result =>
      sourceFile st' = Some file /\ renderResult st' = Some result /\ toasts = [] /\
      read = Ok (file_bytes file) /\
      zoom st' = match container with
                 | Some (clientWidth, clientHeight) =>
                     fit_ratio venv (clientWidth - 160) (cv_width (canvas result))
                                    (clientHeight - 160) (cv_height (canvas result))
                 | None => zoom st
                 end
  | Throw e =>
      sourceFile st' = None /\ renderResult st' = None /\ zoom st' = zoom st /\
      toasts = [mkToast (Some "destructive") "Load Error" (message_or LOAD_FALLBACK e)] /\
      match read_error venv file with
      | None =>
          message_or LOAD_FALLBACK e = err_message e /\
          err_message e ∈ [PDF_MESSAGE; NOT_PSD_MESSAGE; UNSUPPORTED_MESSAGE] /\
          err_message e <> LOAD_FALLBACK
      | Some e' => e = e' /\ w' = w
      end
  end.
Proof.
  unfold handleFileSelect, File_arrayBuffer. cbn [lookup list_lookup].
  destruct (read_error venv file) as [e'|] eqn:Hread.
  - cbn. done.
  - destruct (renderPSDToCanvas env (Ok (file_bytes file)) w)
      as [w' [result|e]] eqn:Hrun.
    + destruct container as [[cw ch]|]; cbn; done.
    + cbn. apply render_error_is_own in Hrun.
      split_and!; try reflexivity;
        destruct Hrun as [->|[->| ->]]; try reflexivity;
        try (vm_compute; discriminate); set_solver.
Qed.

Example handleFileSelect_samples :
  handleFileSelect env_composite_only venv_sample (Some (1000, 800))
                   [sample_upload] idle_viewer empty_world
  = (mkViewerState (Some sample_upload)
                   (Some (buildResult (mkCanvas 2 1 []) Composite sample_psd))
                   false 1%Q false,
     [],
     fst (renderPSDToCanvas env_composite_only (Ok sample_psd_file) empty_world)) /\
  snd (fst (handleFileSelect env_rejecting venv_sample None
              [mkFile "notes.psd" EmptyString sample_pdf_file] loaded_viewer empty_world))
  = [mkToast (Some "destructive") "Load Error" PDF_MESSAGE] /\
  handleFileSelect env_composite_only venv_sample None
                   [unreadable_upload] loaded_viewer empty_world
  = (mkViewerState None None false 1%Q false,
     [mkToast (Some "destructive") "Load Error" "The file could not be read."],
     empty_world) /\
  snd (fst (handleFileSelect env_rejecting venv_sample None [] loaded_viewer empty_world))
  = [mkToast (Some "destructive") "Load Error"
             "Cannot read properties of undefined (reading 'arrayBuffer')"].
Proof. split_and!; vm_compute; reflexivity. Qed.

(** X9. [handleExport] does nothing at all while no document is loaded.
    With a document loaded it leaves source file, result and zoom alone,
    ends with [isProcessing] off and shows exactly one toast. For PNG and
    JPG that toast is always the success toast, even when the canvas could
    not be encoded and nothing is downloaded; for PDF it is the failure
    toast, with no download, exactly when [exportCanvasAsPDF] throws. Every
    download, in any of the three formats, is named after the part of the
    source file name before its first dot, with the extension of the format. *)
Theorem handleExport_outcome {N : Type} penv format (st : ViewerState N) :
  (renderResult st = None \/ sourceFile st = None ->
   handleExport penv format st = (st, [], [])) /\
  (forall result file,
     renderResult st = Some result -> sourceFile st = Some file ->
     let '(st', toasts, events) := handleExport penv format st in
     isProcessing st' = false /\
     sourceFile st' = sourceFile st /\ renderResult st' = renderResult st /\
     zoom st' = zoom st /\ isFullscreen st' = isFullscreen st /\
     (format <> ExportPdf -> toasts = [export_success format]) /\
     (format = ExportPdf ->
      match exportCanvasAsPDF penv (canvas result) with
      | Ok _ => toasts = [export_success format]
      | Throw _ => toasts = [export_failure] /\ events = []
      end) /\
     (forall href download,
        EvAnchorClick href download ∈ events ->
        download = export_name (export_extension format) (file_name file))).
Proof.
  split.
  - unfold handleExport. intros [-> | ->]; [reflexivity|].
    by destruct (renderResult st).
  - intros result file Hr Hf. unfold handleExport. rewrite Hr, Hf.
    assert (Himage : forall fmt href download,
      EvAnchorClick href download ∈
        exportCanvasAsImage penv (canvas result) fmt (file_name file) ->
      download = export_name (image_extension fmt) (file_name file)).
    { intros fmt href download Hin.
      by apply (image_download_facts penv (canvas result) fmt) in Hin. }
    destruct format; cbn [export_extension].
    + split_and!; try done. intros href download. apply (Himage FormatPng).
    + split_and!; try done. intros href download. apply (Himage FormatJpg).
    + destruct (exportCanvasAsPDF penv (canvas result)) as [pdfBytes|e].
      * split_and!; try done. intros href download.
        unfold triggerDownload, download_blob. intros Hin.
        repeat (apply elem_of_cons in Hin as [Hin|Hin]); try discriminate;
          [|by apply elem_of_nil in Hin].
        by injection Hin as _ ->.
      * split_and!; try done. by intros href download ?%elem_of_nil.
Qed.

(** * Properties of the upload control *)

Lemma endsWith_spec s suffix :
  endsWith s suffix = true <-> exists front, s = front +:+ suffix.
Proof.
  induction s as [|c s IH]; cbn [endsWith].
  - rewrite orb_false_r, String.eqb_eq. split.
    + intros <-. by exists EmptyString.
    + intros [[|c front] H]; [exact H|discriminate].
  - rewrite orb_true_iff, String.eqb_eq, IH. split.
    + intros [<-|[front ->]]; [by exists EmptyString|by exists (String c front)].
    + intros [[|c' front] H]; [left; exact H|].
      rewrite append_String in H. injection H as -> ->. right. by exists front.
Qed.

Lemma filter_first {A : Type} (p : A -> bool) (l : list A) x rest :
  List.filter p l = x :: rest ->
  exists before after,
    l = before ++ x :: after /\ Forall (fun y => p y = false) before /\
    p x = true /\ rest = List.filter p after.
Proof.
  induction l as [|y l IH]; [discriminate|]. cbn [List.filter].
  destruct (p y) eqn:Hy.
  - intros [= -> <-]. exists [], l. by split_and!.
  - intros (before & after & -> & Hbefore & Hx & Hrest)%IH.
    exists (y :: before), after. split_and!; try done. by constructor.
Qed.

Lemma filter_sublist {A : Type} (p : A -> bool) (l : list A) :
  List.filter p l `sublist_of` l.
Proof.
  induction l as [|y l IH]; [constructor|]. cbn [List.filter].
  destruct (p y); [by apply sublist_skip|by apply sublist_cons].
Qed.

(** X10. [onDrop] calls [onFilesSelected] exactly when some dropped file
    passes the filter, and never with an empty list. What it hands over is
    taken from the dropped files in their order; with an [accept] list
    every file handed over has a lower-cased name that ends in one of its
    (trimmed, lower-cased) entries; without [multiple] it is one file alone,
    the first of the dropped files that passes, every file dropped before it
    failing the filter; with [multiple] no file that passes is left out;
    without an [accept] list nothing is filtered. *)
Theorem onDrop_selection tenv accept multiple dropped :
  let accepted f :=
    match accept with
    | Some (String _ _ as a) =>
        exists ext, ext ∈ accepted_extensions tenv a /\
                    exists front, toLowerCase tenv (file_name f) = front +:+ ext
    | Some EmptyString | None => True
    end in
  match onDrop tenv accept multiple dropped with
  | Some files =>
      files <> [] /\
      files `sublist_of` dropped /\
      Forall accepted files /\
      (multiple = false ->
       length files = 1%nat /\
       exists before first after,
         dropped = before ++ first :: after /\ files = [first] /\
         Forall (fun f => ~ accepted f) before) /\
      (multiple = true -> forall f, f ∈ dropped -> accepted f -> f ∈ files)
  | None => forall f, f ∈ dropped -> ~ accepted f
  end.
Proof.
  intros accepted. unfold onDrop.
  set (test := match accept with
               | Some (String _ _ as a) =>
                   file_accepted tenv (accepted_extensions tenv a)
               | _ => fun _ => true
               end).
  assert (Htest : forall f, test f = true <-> accepted f).
  { intros f. subst test accepted. destruct accept as [[|c a]|]; [tauto| |tauto].
    unfold file_accepted. rewrite existsb_exists. setoid_rewrite endsWith_spec.
    setoid_rewrite <- list_elem_of_In. tauto. }
  assert (Hfalse : forall f, test f = false -> ~ accepted f).
  { intros f Hf Hacc%Htest. congruence. }
  assert (match accept with
          | Some (String _ _ as a) =>
              List.filter (file_accepted tenv (accepted_extensions tenv a)) dropped
          | _ => dropped
          end = List.filter test dropped) as ->.
  { subst test. clear Htest Hfalse.
    destruct accept as [[|c a]|]; try reflexivity;
      (induction dropped as [|f dropped IH]; cbn [List.filter]; congruence). }
  assert (Hkept : forall f, f ∈ List.filter test dropped <-> f ∈ dropped /\ accepted f).
  { intros f. rewrite !list_elem_of_In, filter_In, Htest. tauto. }
  destruct (List.filter test dropped) as [|first rest] eqn:Hk.
  - intros f Hf Hacc. by apply (elem_of_nil f), Hkept.
  - pose proof (filter_sublist test dropped) as Hsub. rewrite Hk in Hsub.
    split_and!.
    + by destruct multiple.
    + destruct multiple; [exact Hsub|].
      etrans; [|exact Hsub]. apply sublist_skip, sublist_nil_l.
    + assert (Forall accepted (first :: rest)) as Hall.
      { apply Forall_forall. intros f Hf. by apply Hkept. }
      destruct multiple; [exact Hall|]. constructor; [|constructor].
      by apply Forall_cons_1 in Hall as [? _].
    + intros ->. split; [reflexivity|].
      apply filter_first in Hk as (before & after & -> & Hbefore & _).
      exists before, first, after. split_and!; try reflexivity.
      eapply Forall_impl; [exact Hbefore|]. exact Hfalse.
    + intros -> f Hf Hacc. by apply Hkept.
Qed.

Example onDrop_samples :
  onDrop tenv_ascii (Some ".psd") false dropped_files
  = Some [mkFile "Poster.PSD" EmptyString sample_psd_file] /\
  onDrop tenv_ascii (Some ".psd") true dropped_files
  = Some [mkFile "Poster.PSD" EmptyString sample_psd_file;
          mkFile "logo.psd" EmptyString sample_psd_file] /\
  onDrop tenv_ascii (Some ".pdf, .png") true dropped_files = None /\
  onDrop tenv_ascii None false dropped_files
  = Some [mkFile "notes.txt" "text/plain" []] /\
  onInputChange (Some dropped_files) = Some dropped_files /\
  onInputChange (Some []) = None.
Proof. split_and!; vm_compute; reflexivity. Qed.

(** * Properties of [pdf-service.ts] *)

Lemma filter_seqZ_window (total : Z) (n : nat) :
  forall a,
    filter (fun i => 0 <= i /\ i < total) (seqZ a (Z.of_nat n)) =
    seqZ (Z.max a 0) (Z.min (a + Z.of_nat n) total - Z.max a 0).
Proof.
  induction n as [|n IH]; intros a.
  - rewrite (seqZ_nil _ (Z.min _ _ - _)) by lia. reflexivity.
  - rewrite (seqZ_cons a) by lia. rewrite filter_cons.
    replace (Z.pred (Z.of_nat (S n))) with (Z.of_nat n) by lia.
    rewrite IH. destruct (decide (0 <= a /\ a < total)) as [Hin|Hout].
    + rewrite (seqZ_cons (Z.max a 0)) by lia. f_equal; [lia|]. f_equal; lia.
    + destruct (decide (a < 0)) as [Hneg|Hpos].
      * f_equal; lia.
      * rewrite !seqZ_nil by lia. reflexivity.
Qed.

Section PdfFacts.
Context {Page : Type} (lib : PdfLib Page).

Lemma addPages_app (doc pages : list Page) : addPages doc pages = doc ++ pages.
Proof.
  unfold addPages. revert doc.
  induction pages as [|p pages IH]; intros doc; cbn [foldl].
  - by rewrite app_nil_r.
  - rewrite IH, <- app_assoc. reflexivity.
Qed.

Lemma copyPages_window (source : list Page) (n : nat) :
  forall first,
    0 <= first -> first + Z.of_nat n <= Z.of_nat (length source) ->
    copyPages source (seqZ first (Z.of_nat n)) =
    Ok (take n (drop (Z.to_nat first) source)).
Proof.
  induction n as [|n IH]; intros first Hfirst Hlast.
  - rewrite seqZ_nil by lia. by rewrite take_0.
  - rewrite seqZ_cons by lia. cbn [copyPages].
    rewrite bool_decide_eq_true_2 by exact Hfirst.
    destruct (source !! Z.to_nat first) as [page|] eqn:Hpage.
    + replace (Z.pred (Z.of_nat (S n))) with (Z.of_nat n) by lia.
      rewrite IH by lia. cbn [mbind Res_bind mret Res_ret]. f_equal.
      replace (Z.to_nat (Z.succ first)) with (S (Z.to_nat first)) by lia.
      rewrite (drop_S _ _ _ Hpage). reflexivity.
    + apply lookup_ge_None in Hpage. lia.
Qed.

Lemma range_indices_window total range :
  range_indices total range =
  if range_fits range
  then Ok (seqZ (Z.max (range_start range) 1 - 1)
                (Z.min (range_end range) total - Z.max (range_start range) 1 + 1))
  else Throw RangeError.
Proof.
  unfold range_indices, Array_from_length, range_fits.
  case_bool_decide as Hover.
  { by rewrite bool_decide_eq_false_2 by lia. }
  rewrite bool_decide_eq_true_2 by lia. cbn [mbind Res_bind mret Res_ret]. f_equal.
  rewrite fmap_add_seqZ.
  destruct (decide (0 <= range_end range - range_start range + 1)) as [Hlen|Hlen].
  - rewrite <- (Z2Nat.id _ Hlen), filter_seqZ_window, Z2Nat.id by exact Hlen.
    f_equal; lia.
  - rewrite !seqZ_nil by lia. reflexivity.
Qed.

(** What [copyPages] is asked for in the loops is always there to copy. *)
Lemma copyPages_range (source : list Page) range :
  copyPages source
    (seqZ (Z.max (range_start range) 1 - 1)
          (Z.min (range_end range) (Z.of_nat (length source))
           - Z.max (range_start range) 1 + 1)) =
  Ok (page_slice source range).
Proof.
  unfold page_slice.
  set (first := Z.max (range_start range) 1).
  set (last := Z.min (range_end range) (Z.of_nat (length source))).
  destruct (decide (0 <= last - first + 1)) as [Hlen|Hlen].
  - rewrite <- (Z2Nat.id _ Hlen). rewrite copyPages_window by lia.
    rewrite Z2Nat.id by exact Hlen. reflexivity.
  - rewrite seqZ_nil by lia. replace (Z.to_nat (last - first + 1)) with 0%nat by lia.
    by rewrite take_0.
Qed.

Lemma range_indices_length (source : list Page) range :
  length (seqZ (Z.max (range_start range) 1 - 1)
               (Z.min (range_end range) (Z.of_nat (length source))
                - Z.max (range_start range) 1 + 1)) =
  length (page_slice source range).
Proof.
  rewrite length_seqZ. unfold page_slice.
  rewrite length_take, length_drop. lia.
Qed.

Lemma split_loop_slices (source : list Page) ranges :
  forall results,
    split_loop lib source (Z.of_nat (length source)) results ranges =
    if forallb range_fits ranges
    then Ok (results ++
             ((fun doc => PDFDocument_save lib doc SAVE_OPTS) <$>
                filter (fun doc => doc <> []) (page_slice source <$> ranges)))
    else Throw RangeError.
Proof.
  induction ranges as [|range ranges IH]; intros results;
    cbn [split_loop forallb].
  - by rewrite app_nil_r.
  - rewrite range_indices_window.
    destruct (range_fits range); [|reflexivity]. cbn [mbind Res_bind andb].
    rewrite fmap_cons, filter_cons, range_indices_length, copyPages_range.
    destruct (page_slice source range) as [|p ps] eqn:Hslice.
    + rewrite bool_decide_eq_false_2 by (cbn; lia).
      rewrite decide_False by auto. apply IH.
    + rewrite bool_decide_eq_true_2 by (cbn; lia).
      rewrite decide_True by done. cbn [mbind Res_bind].
      rewrite IH, addPages_app, fmap_cons, <- app_assoc. reflexivity.
Qed.

Lemma extract_loop_slices (source : list Page) ranges :
  forall doc,
    extract_loop source (Z.of_nat (length source)) doc ranges =
    if forallb range_fits ranges
    then Ok (doc ++ concat (page_slice source <$> ranges))
    else Throw RangeError.
Proof.
  induction ranges as [|range ranges IH]; intros doc;
    cbn [extract_loop forallb].
  - by rewrite app_nil_r.
  - rewrite range_indices_window.
    destruct (range_fits range); [|reflexivity]. cbn [mbind Res_bind andb].
    rewrite copyPages_range. cbn [mbind Res_bind].
    rewrite IH, addPages_app, fmap_cons, <- app_assoc. reflexivity.
Qed.

(** Ranges within a loaded document ask for no more indices than an array
    holds, a document having no more pages than that. *)
Lemma ranges_within_fit file (source : list Page) ranges :
  PDFDocument_load lib file = Ok source ->
  Forall (fun range =>
            1 <= range_start range /\ range_start range <= range_end range /\
            range_end range <= Z.of_nat (length source)) ranges ->
  forallb range_fits ranges = true.
Proof.
  intros Hload%page_count_bound Hranges. apply forallb_forall. intros range Hin.
  rewrite Forall_forall in Hranges.
  destruct (Hranges range) as (H1 & H2 & H3); [by apply list_elem_of_In|].
  unfold range_fits. apply bool_decide_eq_true_2. lia.
Qed.

End PdfFacts.

Lemma split_results_eq {Page : Type} (lib : PdfLib Page) file ranges :
  splitPDFDocument lib file ranges =
  match PDFDocument_load lib file with
  | Ok source =>
      if forallb range_fits ranges
      then Ok ((fun doc => PDFDocument_save lib doc SAVE_OPTS) <$>
                 filter (fun doc => doc <> []) (page_slice source <$> ranges))
      else Throw RangeError
  | Throw e => Throw e
  end.
Proof.
  unfold splitPDFDocument.
  destruct (PDFDocument_load lib file) as [source|e]; [|reflexivity].
  cbn [mbind Res_bind]. apply (split_loop_slices lib source ranges []).
Qed.

(** X11. On the bytes of a file, [splitPDFDocument] throws what loading
    them throws. On a loaded document it throws a [RangeError], and returns
    nothing of what it made so far, when a range spans more page numbers
    than an array can hold (2^32 - 1). Otherwise it returns, in the order of
    the ranges, one saved document for each range that covers a page of the
    source, holding the pages whose numbers, counted from 1, lie in the
    range and in the document: a range is clipped to the document, and a
    range that covers no page (reversed, or wholly outside) is passed over
    without a document. No document it saves is empty, and [copyPages] is
    never asked for a page that is not there. *)
Theorem splitPDFDocument_slices {Page : Type} (lib : PdfLib Page) file ranges :
  splitPDFDocument lib file ranges =
  match PDFDocument_load lib file with
  | Ok source =>
      if forallb range_fits ranges
      then Ok ((fun doc => PDFDocument_save lib doc SAVE_OPTS) <$>
                 filter (fun doc => doc <> []) (page_slice source <$> ranges))
      else Throw RangeError
  | Throw e => Throw e
  end.
Proof.
  unfold splitPDFDocument.
  destruct (PDFDocument_load lib file) as [source|e]; [|reflexivity].
  cbn [mbind Res_bind]. apply (split_loop_slices lib source ranges []).
Qed.

Example splitPDFDocument_sample :
  splitPDFDocument lib_sample five_page_file
    [mkPageRange 2 3; mkPageRange 4 2; mkPageRange 0 1; mkPageRange 5 9;
     mkPageRange 7 8]
  = Ok [[x02; x03]; [x01]; [x05]] /\
  splitPDFDocument lib_sample five_page_file
    [mkPageRange 2 3; mkPageRange 1 4294967296; mkPageRange 5 5]
  = Throw RangeError /\
  splitPDFDocument lib_sample five_page_file [mkPageRange 1 4294967295]
  = Ok [[x01; x02; x03; x04; x05]] /\
  splitPDFDocument lib_sample [] [mkPageRange 1 1]
  = Throw (Error "No PDF header found").
Proof.
  rewrite !split_results_eq. split_and!; vm_compute; reflexivity.
Qed.

Lemma page_slice_within {Page : Type} (source : list Page) range :
  1 <= range_start range -> range_start range <= range_end range ->
  range_end range <= Z.of_nat (length source) ->
  page_slice source range =
    take (Z.to_nat (range_end range - range_start range + 1))
         (drop (Z.to_nat (range_start range - 1)) source) /\
  length (page_slice source range) =
    Z.to_nat (range_end range - range_start range + 1) /\
  page_slice source range <> [].
Proof.
  intros H1 H2 H3. unfold page_slice.
  rewrite Z.max_l, Z.min_l by lia. split; [reflexivity|].
  assert (Hlen : length (take (Z.to_nat (range_end range - range_start range + 1))
                     (drop (Z.to_nat (range_start range - 1)) source))
                 = Z.to_nat (range_end range - range_start range + 1)).
  { rewrite length_take, length_drop. lia. }
  split; [exact Hlen|]. intros Hnil. rewrite Hnil in Hlen. cbn in Hlen. lia.
Qed.

(** X12. For ranges that lie within the document (1 <= start <= end <=
    number of pages) [splitPDFDocument] returns exactly one document for
    each range, at the position of the range: the document at position [k]
    is the save of the [end - start + 1] pages from [start] to [end] of the
    range at position [k]. This is what pairs a result with "its" range by
    index in the split tool. *)
Theorem splitPDFDocument_one_per_range {Page : Type} (lib : PdfLib Page)
    file source ranges :
  PDFDocument_load lib file = Ok source ->
  Forall (fun range =>
            1 <= range_start range /\ range_start range <= range_end range /\
            range_end range <= Z.of_nat (length source)) ranges ->
  exists docs,
    splitPDFDocument lib file ranges =
      Ok ((fun doc => PDFDocument_save lib doc SAVE_OPTS) <$> docs) /\
    length docs = length ranges /\
    forall k range,
      ranges !! k = Some range ->
      docs !! k =
        Some (take (Z.to_nat (range_end range - range_start range + 1))
                   (drop (Z.to_nat (range_start range - 1)) source)) /\
      exists doc, docs !! k = Some doc /\
        length doc = Z.to_nat (range_end range - range_start range + 1).
Proof.
  intros Hload Hranges. exists (page_slice source <$> ranges).
  rewrite split_results_eq, Hload, (ranges_within_fit lib file source ranges Hload Hranges).
  split_and!.
  - do 2 f_equal. induction Hranges as [|range ranges (H1 & H2 & H3) _ IH];
      [reflexivity|].
    rewrite fmap_cons, filter_cons, IH.
    destruct (page_slice_within source range H1 H2 H3) as (_ & _ & Hne).
    by rewrite decide_True.
  - apply length_fmap.
  - intros k range Hk. rewrite list_lookup_fmap, Hk. cbn [fmap option_fmap option_map].
    rewrite Forall_forall in Hranges.
    destruct (Hranges range) as (H1 & H2 & H3).
    { apply list_elem_of_lookup. eauto. }
    destruct (page_slice_within source range H1 H2 H3) as (Heq & Hlen & _).
    split; [by rewrite Heq|]. eauto.
Qed.

Lemma splitPDFDocument_one_per_range_witness :
  PDFDocument_load lib_sample five_page_file = Ok [1; 2; 3; 4; 5]%nat /\
  exists docs,
    splitPDFDocument lib_sample five_page_file [mkPageRange 2 3; mkPageRange 5 5] =
      Ok ((fun doc => PDFDocument_save lib_sample doc SAVE_OPTS) <$> docs) /\
    length docs = 2%nat.
Proof.
  assert (Hload : PDFDocument_load lib_sample five_page_file = Ok [1; 2; 3; 4; 5]%nat)
    by reflexivity.
  split; [exact Hload|].
  destruct (splitPDFDocument_one_per_range lib_sample five_page_file
              [1; 2; 3; 4; 5]%nat [mkPageRange 2 3; mkPageRange 5 5] Hload)
    as (docs & Hsplit & Hlen & _).
  { repeat constructor; cbn; lia. }
  exists docs. split; [exact Hsplit|exact Hlen].
Defined.

Lemma extract_merge_eq {Page : Type} (lib : PdfLib Page) file ranges :
  extractAndMergePDFRanges lib file ranges =
  match PDFDocument_load lib file with
  | Ok source =>
      if forallb range_fits ranges
      then Ok (PDFDocument_save lib (concat (page_slice source <$> ranges)) SAVE_OPTS)
      else Throw RangeError
  | Throw e => Throw e
  end.
Proof.
  unfold extractAndMergePDFRanges.
  destruct (PDFDocument_load lib file) as [source|e]; [|reflexivity].
  cbn [mbind Res_bind]. rewrite (extract_loop_slices source ranges []).
  by destruct (forallb range_fits ranges).
Qed.

(** X13. On the bytes of a file, [extractAndMergePDFRanges] throws what
    loading them throws. On a loaded document it throws a [RangeError],
    saving nothing, when a range spans more page numbers than an array can
    hold (2^32 - 1). Otherwise it saves one document, made of the pages of
    the ranges, each range clipped to the source, one range after the other:
    a page named by two ranges comes twice, a range that covers no page adds
    none, and the pages of a range that lies within the source are the
    [end - start + 1] pages from [start] to [end]. *)
Theorem extractAndMergePDFRanges_concat {Page : Type} (lib : PdfLib Page)
    file ranges :
  extractAndMergePDFRanges lib file ranges =
  match PDFDocument_load lib file with
  | Ok source =>
      if forallb range_fits ranges
      then Ok (PDFDocument_save lib (concat (page_slice source <$> ranges)) SAVE_OPTS)
      else Throw RangeError
  | Throw e => Throw e
  end /\
  forall source range,
    PDFDocument_load lib file = Ok source ->
    (range_end range < range_start range \/ range_end range < 1 \/
     Z.of_nat (length source) < range_start range ->
     page_slice source range = []) /\
    (1 <= range_start range -> range_start range <= range_end range ->
     range_end range <= Z.of_nat (length source) ->
     page_slice source range =
       take (Z.to_nat (range_end range - range_start range + 1))
            (drop (Z.to_nat (range_start range - 1)) source) /\
     length (page_slice source range) =
       Z.to_nat (range_end range - range_start range + 1)).
Proof.
  split.
  - unfold extractAndMergePDFRanges.
    destruct (PDFDocument_load lib file) as [source|e]; [|reflexivity].
    cbn [mbind Res_bind]. rewrite (extract_loop_slices source ranges []).
    by destruct (forallb range_fits ranges).
  - intros source range _. split.
    + intros Hout. unfold page_slice.
      destruct (decide (Z.of_nat (length source) < range_start range)) as [Hpast|Hin].
      * rewrite drop_ge by lia. apply take_nil.
      * replace (Z.to_nat _) with 0%nat by lia. apply take_0.
    + intros H1 H2 H3.
      destruct (page_slice_within source range H1 H2 H3) as (Heq & Hlen & _).
      by split.
Qed.

Lemma extractAndMergePDFRanges_concat_witness :
  PDFDocument_load lib_sample five_page_file = Ok [1; 2; 3; 4; 5]%nat /\
  extractAndMergePDFRanges lib_sample five_page_file
    [mkPageRange 4 9; mkPageRange 3 1; mkPageRange 1 2]
  = Ok [x04; x05; x01; x02] /\
  page_slice [1; 2; 3; 4; 5]%nat (mkPageRange 2 3) = [2; 3]%nat.
Proof.
  assert (Hload : PDFDocument_load lib_sample five_page_file = Ok [1; 2; 3; 4; 5]%nat)
    by reflexivity.
  split; [exact Hload|]. split.
  - rewrite (proj1 (extractAndMergePDFRanges_concat lib_sample five_page_file
                      [mkPageRange 4 9; mkPageRange 3 1; mkPageRange 1 2])).
    reflexivity.
  - rewrite (proj1 (proj2 (proj2 (extractAndMergePDFRanges_concat lib_sample
                                    five_page_file [])
                             [1; 2; 3; 4; 5]%nat (mkPageRange 2 3) Hload)
                      ltac:(cbn; lia) ltac:(cbn; lia) ltac:(cbn; lia))).
    reflexivity.
Defined.

Section MergeFacts.
Context {Page : Type} (lib : PdfLib Page).

Lemma copyPages_all (doc : list Page) :
  copyPages doc (getPageIndices doc) = Ok doc.
Proof.
  unfold getPageIndices. rewrite copyPages_window by lia.
  by rewrite drop_0, firstn_all.
Qed.

Lemma merge_loop_loaded files docs :
  Forall2 (fun file doc => PDFDocument_load lib file = Ok doc) files docs ->
  forall merged rest,
    merge_loop lib merged (files ++ rest) =
    merge_loop lib (merged ++ concat docs) rest.
Proof.
  induction 1 as [|file doc files docs Hload _ IH]; intros merged rest.
  - by rewrite app_nil_r.
  - cbn [app merge_loop concat]. rewrite Hload. cbn [mbind Res_bind].
    rewrite copyPages_all. cbn [mbind Res_bind].
    rewrite IH, addPages_app, app_assoc. reflexivity.
Qed.

End MergeFacts.

(** X14. [mergePDFDocuments] saves one document holding the pages of the
    files, file after file in the order given and each file's pages in
    their own order, when every file loads. When a file does not load, what
    is thrown is the error of the first such file, and nothing is saved,
    whatever loaded before it. *)
Theorem mergePDFDocuments_concat {Page : Type} (lib : PdfLib Page) :
  (forall files docs,
     Forall2 (fun file doc => PDFDocument_load lib file = Ok doc) files docs ->
     mergePDFDocuments lib files
     = Ok (PDFDocument_save lib (concat docs) SAVE_OPTS)) /\
  (forall loadable docs file rest e,
     Forall2 (fun file doc => PDFDocument_load lib file = Ok doc) loadable docs ->
     PDFDocument_load lib file = Throw e ->
     mergePDFDocuments lib (loadable ++ file :: rest) = Throw e).
Proof.
  split.
  - intros files docs Hloads. unfold mergePDFDocuments.
    rewrite <- (app_nil_r files), (merge_loop_loaded lib files docs Hloads [] []).
    reflexivity.
  - intros loadable docs file rest e Hloads Hfail. unfold mergePDFDocuments.
    rewrite (merge_loop_loaded lib loadable docs Hloads [] (file :: rest)).
    cbn [merge_loop]. by rewrite Hfail.
Qed.

Lemma mergePDFDocuments_concat_witness :
  Forall2 (fun file doc => PDFDocument_load lib_sample file = Ok doc)
          [[x25; x50]; five_page_file] [[1; 2]; [1; 2; 3; 4; 5]]%nat /\
  mergePDFDocuments lib_sample [[x25; x50]; five_page_file]
  = Ok [x01; x02; x01; x02; x03; x04; x05] /\
  mergePDFDocuments lib_sample [[x25; x50]; []; five_page_file]
  = Throw (Error "No PDF header found").
Proof.
  assert (H2 : Forall2 (fun file doc => PDFDocument_load lib_sample file = Ok doc)
                 [[x25; x50]; five_page_file] [[1; 2]; [1; 2; 3; 4; 5]]%nat)
    by (repeat constructor).
  assert (H1 : Forall2 (fun file doc => PDFDocument_load lib_sample file = Ok doc)
                 [[x25; x50]] [[1; 2]]%nat)
    by (repeat constructor).
  split; [exact H2|]. split.
  - rewrite (proj1 (mergePDFDocuments_concat lib_sample) _ _ H2). reflexivity.
  - exact (proj2 (mergePDFDocuments_concat lib_sample) [[x25; x50]] [[1; 2]]%nat
             [] [five_page_file] (Error "No PDF header found") H1 eq_refl).
Defined.

(** * Properties of the split tool *)

Lemma entered_range_within nenv tenv total r :
  let range := entered_range nenv tenv total r in
  range_start range <= range_end range ->
  1 <= range_start range /\ range_start range <= range_end range /\
  range_end range <= total.
Proof.
  intros range. subst range. unfold entered_range. cbn [range_start range_end].
  generalize (match parseInt nenv (input_start r) with
              | Some 0 | None => 1
              | Some n => n
              end).
  intros start0.
  generalize (if String.eqb (trim tenv (input_end r)) EmptyString
              then Some (1 `max` start0) else parseInt nenv (input_end r)).
  intros [endValue|]; cbn [default from_option id]; lia.
Qed.

Lemma validRanges_within nenv tenv total inputs :
  Forall (fun range =>
            1 <= range_start range /\ range_start range <= range_end range /\
            range_end range <= total)
         (validRanges nenv tenv total inputs).
Proof.
  unfold validRanges. apply Forall_forall. intros range.
  rewrite list_elem_of_filter, list_elem_of_fmap. intros [Hle (r & -> & _)].
  by apply entered_range_within.
Qed.

Lemma split_downloads_paired nenv penv name (data_of : PageRange -> list byte) post :
  forall pre,
    split_downloads nenv penv name (pre ++ post) (data_of <$> post) (length pre) =
    (concat ((fun range =>
                triggerDownload penv (data_of range) (split_name nenv range name) None)
             <$> post), None).
Proof.
  induction post as [|range post IH]; intros pre; [reflexivity|].
  rewrite fmap_cons. cbn [split_downloads].
  rewrite list_lookup_middle by reflexivity.
  specialize (IH (pre ++ [range])).
  rewrite <- app_assoc, length_app, Nat.add_1_r in IH. cbn [app] in IH.
  rewrite IH. reflexivity.
Qed.

(** X15. Let the page count the split tool holds be that of the document
    pdf-lib loads. Every range [onExecuteSplit] keeps lies within the
    document, whatever was typed. If none is kept, the only effect is the
    "Invalid Ranges" toast. Otherwise the handler succeeds: in separate mode
    it offers one download for each kept range, in their order, and the
    download named [split_p<start>-p<end>_<name>] holds exactly the pages
    [start] to [end]; in merge mode it offers one download, named
    [split_merged_<name>], holding the pages of the kept ranges in a row.
    The "Error" toast cannot appear. *)
Theorem onExecuteSplit_pairs {Page : Type} nenv tenv (lib : PdfLib Page) penv
    file source totalPageCount inputs :
  PDFDocument_load lib (file_bytes file) = Ok source ->
  totalPageCount = Z.of_nat (length source) ->
  let valid := validRanges nenv tenv totalPageCount inputs in
  Forall (fun range =>
            1 <= range_start range /\ range_start range <= range_end range /\
            range_end range <= totalPageCount) valid /\
  onExecuteSplit nenv tenv lib penv (Some file) totalPageCount inputs false =
    Some match valid with
         | [] => ([invalid_ranges_toast], [])
         | _ :: _ =>
             ([split_success_toast],
              concat ((fun range =>
                         triggerDownload penv
                           (PDFDocument_save lib (page_slice source range) SAVE_OPTS)
                           (split_name nenv range (file_name file)) None)
                      <$> valid))
         end /\
  onExecuteSplit nenv tenv lib penv (Some file) totalPageCount inputs true =
    Some match valid with
         | [] => ([invalid_ranges_toast], [])
         | _ :: _ =>
             ([split_success_toast],
              triggerDownload penv
                (PDFDocument_save lib (concat (page_slice source <$> valid)) SAVE_OPTS)
                ("split_merged_" +:+ file_name file) None)
         end.
Proof.
  intros Hload Htotal valid.
  pose proof (validRanges_within nenv tenv totalPageCount inputs) as Hwithin.
  fold valid in Hwithin. split; [exact Hwithin|].
  unfold onExecuteSplit. fold valid.
  destruct valid as [|range0 valid0] eqn:Hvalid; [done|]. rewrite <- Hvalid in *.
  assert (Hfit : forallb range_fits valid = true).
  { apply (ranges_within_fit lib (file_bytes file) source valid Hload).
    by rewrite <- Htotal. }
  split; f_equal.
  - rewrite split_results_eq, Hload, Hfit.
    assert (filter (fun doc : list Page => doc <> []) (page_slice source <$> valid)
            = page_slice source <$> valid) as ->.
    { clear Hvalid Hfit. induction Hwithin as [|range rest (H1 & H2 & H3) _ IH];
        [reflexivity|].
      rewrite fmap_cons, filter_cons, IH. subst totalPageCount.
      destruct (page_slice_within source range H1 H2 H3) as (_ & _ & Hne).
      by rewrite decide_True. }
    rewrite <- list_fmap_compose.
    pose proof (split_downloads_paired nenv penv (file_name file)
                  (fun range => PDFDocument_save lib (page_slice source range) SAVE_OPTS)
                  valid []) as Hpaired.
    cbn [app length] in Hpaired. unfold compose. rewrite Hpaired.
    by rewrite Hvalid.
  - rewrite (extract_merge_eq lib (file_bytes file) valid), Hload, Hfit.
    by rewrite Hvalid.
Qed.

(** * Instances of the further properties *)

Lemma handleExport_outcome_witness :
  renderResult loaded_viewer
    = Some (buildResult (mkCanvas 2 1 []) Composite sample_psd) /\
  sourceFile loaded_viewer = Some sample_upload /\
  handleExport penv_failing ExportPng loaded_viewer
    = (loaded_viewer, [export_success ExportPng], []) /\
  snd (fst (handleExport penv_failing ExportPdf loaded_viewer)) = [export_failure].
Proof.
  assert (Hr : renderResult loaded_viewer
               = Some (buildResult (mkCanvas 2 1 []) Composite sample_psd))
    by reflexivity.
  assert (Hf : sourceFile loaded_viewer = Some sample_upload) by reflexivity.
  split; [exact Hr|]. split; [exact Hf|]. split; [reflexivity|].
  pose proof (proj2 (handleExport_outcome penv_failing ExportPdf loaded_viewer)
                _ _ Hr Hf) as H.
  destruct (handleExport penv_failing ExportPdf loaded_viewer)
    as [[st' toasts] events].
  destruct H as (_ & _ & _ & _ & _ & _ & Hpdf & _).
  specialize (Hpdf eq_refl). cbn in Hpdf. exact (proj1 Hpdf).
Defined.

Example handleExport_samples :
  snd (handleExport penv_encoding ExportJpg loaded_viewer)
  = [EvCreateObjectURL [x89; x50] "image/jpeg" "blob:1";
     EvAnchorClick "blob:1" "poster.jpg"; EvRevokeObjectURL "blob:1"] /\
  snd (handleExport penv_encoding ExportPdf loaded_viewer)
  = [EvCreateObjectURL [x25; x50; xff; xd8] "application/pdf" "blob:1";
     EvAnchorClick "blob:1" "poster.pdf"; EvRevokeObjectURL "blob:1"] /\
  handleExport penv_encoding ExportPdf idle_viewer = (idle_viewer, [], []).
Proof. split_and!; vm_compute; reflexivity. Qed.

Lemma onDrop_selection_witness :
  match onDrop tenv_ascii (Some ".psd") false dropped_files with
  | Some files =>
      files <> [] /\ length files = 1%nat /\
      exists before first after,
        dropped_files = before ++ first :: after /\ files = [first]
  | None => False
  end.
Proof.
  pose proof (onDrop_selection tenv_ascii (Some ".psd") false dropped_files) as H.
  cbv zeta in H.
  destruct (onDrop tenv_ascii (Some ".psd") false dropped_files) as [files|] eqn:E.
  - destruct H as (Hne & _ & _ & Hone & _).
    destruct (Hone eq_refl) as (Hlen & before & first & after & Hsplit & Hfiles & _).
    split; [exact Hne|]. split; [exact Hlen|].
    exists before, first, after. split; [exact Hsplit|exact Hfiles].
  - vm_compute in E. discriminate E.
Defined.

Lemma onExecuteSplit_pairs_witness :
  PDFDocument_load lib_sample (file_bytes split_upload) = Ok [1; 2; 3; 4; 5]%nat /\
  Forall (fun range =>
            1 <= range_start range /\ range_start range <= range_end range /\
            range_end range <= 5)
         (validRanges nenv_decimal tenv_ascii 5 entered_ranges).
Proof.
  assert (Hload : PDFDocument_load lib_sample (file_bytes split_upload)
                  = Ok [1; 2; 3; 4; 5]%nat) by reflexivity.
  split; [exact Hload|].
  exact (proj1 (onExecuteSplit_pairs nenv_decimal tenv_ascii lib_sample penv_encoding
                  split_upload [1; 2; 3; 4; 5]%nat 5 entered_ranges Hload eq_refl)).
Defined.

Example onExecuteSplit_samples :
  validRanges nenv_decimal tenv_ascii 5 entered_ranges
  = [mkPageRange 2 3; mkPageRange 1 1; mkPageRange 5 5] /\
  onExecuteSplit nenv_decimal tenv_ascii lib_sample penv_encoding
                 (Some split_upload) 5 entered_ranges false
  = Some ([split_success_toast],
          [EvCreateObjectURL [x02; x03] "application/pdf" "blob:1";
           EvAnchorClick "blob:1" "split_p2-p3_report.pdf"; EvRevokeObjectURL "blob:1";
           EvCreateObjectURL [x01] "application/pdf" "blob:1";
           EvAnchorClick "blob:1" "split_p1-p1_report.pdf"; EvRevokeObjectURL "blob:1";
           EvCreateObjectURL [x05] "application/pdf" "blob:1";
           EvAnchorClick "blob:1" "split_p5-p5_report.pdf"; EvRevokeObjectURL "blob:1"]) /\
  onExecuteSplit nenv_decimal tenv_ascii lib_sample penv_encoding
                 (Some split_upload) 5 [mkRangeInput "9" EmptyString "a"] false
  = Some ([invalid_ranges_toast], []) /\
  onExecuteSplit nenv_decimal tenv_ascii lib_sample penv_encoding
                 None 5 entered_ranges true = None.
Proof. split_and!; vm_compute; reflexivity. Qed.
